(** * camera-wroom-display: frame reassembly, pacing and tile output

    A shallow embedding of the ESP32 firmware sources
    ([config.h], [config.cpp], [performance_monitor.h],
    [frame_processor.h], [task_manager.h], [display_manager.h]) and the
    properties of its natural-language specification.

    Conventions.
    - Fixed-width integers are [Z] values; every place where the C++ code
      computes in [uint16_t] / [uint32_t] carries its wrap-around
      ([u16], [u32]) explicitly.
    - Byte buffers are [list byte]; arrays that the code updates in place
      are lists updated with stdpp's [<[i:=x]>] and [list_inserts], which
      keep the length of the array (its fixed capacity).
    - The two singletons touched by the reassembler ([FrameProcessor] and
      [PerformanceMonitor]) are threaded explicitly as one [System] value.
    - Results of the environment ([millis()], the outcome of a bounded
      [xSemaphoreTake]) are parameters of the operation that consults them.
    - The reassembler is modelled after a successful [initialize()]: the
      three buffers are allocated, so its null-pointer guards are not taken. *)

From Stdlib Require Import ZArith Lia Bool.
From Stdlib Require Import Strings.Byte.
From Stdlib Require Import Floats.SpecFloat.
From stdpp Require Import base tactics option list.

Local Open Scope Z_scope.

(** ** Machine integers *)

Definition u16 (x : Z) : Z := x mod 65536.
Definition u32 (x : Z) : Z := x mod 4294967296.

(** Value of a byte as an unsigned integer. *)
Definition u8 (b : byte) : Z := Z.of_N (Byte.to_N b).

(** [buffer[i]] for a byte buffer.  A read past the end of the list (undefined
    in C++) yields 0. *)
Definition byte_at (buffer : list byte) (i : Z) : Z :=
  match buffer !! Z.to_nat i with
  | Some b => u8 b
  | None => 0
  end.

(** ** config.h / config.cpp *)

Module Config.
Definition DISPLAY_WIDTH : Z := 480.
Definition DISPLAY_HEIGHT : Z := 320.
Definition MAX_FRAME_SIZE : Z := 35000.
Definition FRAME_TIMEOUT : Z := 150.
Definition MIN_HEAP_SIZE : Z := 15000.
Definition TARGET_FPS : Z := 60.
Definition MIN_RENDER_INTERVAL : Z := 16.
Definition FAST_RENDER_INTERVAL : Z := 8.
Definition STRIP_HEIGHT : Z := 20.
Definition FAST_STRIP_HEIGHT : Z := 10.
Definition MAX_PACKETS : Z := 500.
End Config.

(** [struct CompleteFrameState].  [frameId], [totalPackets] and
    [receivedPackets] are [uint16_t]; [totalSize] and [startTime] are
    [uint32_t]. *)
Record CompleteFrameState := mkFrame {
  frameId : Z;
  totalPackets : Z;
  receivedPackets : Z;
  totalSize : Z;
  startTime : Z;
  isComplete : bool;
  isValid : bool;
  isRendering : bool
}.

(** [CompleteFrameState::reset()] applied to a fresh descriptor. *)
Definition reset : CompleteFrameState :=
  mkFrame 0 0 0 0 0 false false false.

(** ** performance_monitor.h *)

Record PerformanceMonitor := mkMonitor {
  totalFramesStarted : Z;
  completeFramesReceived : Z;
  completeFramesRendered : Z;
  incompleteFramesDiscarded : Z;
  corruptFramesDiscarded : Z;
  memoryErrors : Z
}.

Definition newMonitor : PerformanceMonitor := mkMonitor 0 0 0 0 0 0.

Definition incrementFramesStarted (pm : PerformanceMonitor) :=
  mkMonitor (u32 (totalFramesStarted pm + 1)) (completeFramesReceived pm)
            (completeFramesRendered pm) (incompleteFramesDiscarded pm)
            (corruptFramesDiscarded pm) (memoryErrors pm).

Definition incrementCompleteFrames (pm : PerformanceMonitor) :=
  mkMonitor (totalFramesStarted pm) (u32 (completeFramesReceived pm + 1))
            (completeFramesRendered pm) (incompleteFramesDiscarded pm)
            (corruptFramesDiscarded pm) (memoryErrors pm).

Definition incrementRenderedFrames (pm : PerformanceMonitor) :=
  mkMonitor (totalFramesStarted pm) (completeFramesReceived pm)
            (u32 (completeFramesRendered pm + 1)) (incompleteFramesDiscarded pm)
            (corruptFramesDiscarded pm) (memoryErrors pm).

Definition incrementIncompleteFrames (pm : PerformanceMonitor) :=
  mkMonitor (totalFramesStarted pm) (completeFramesReceived pm)
            (completeFramesRendered pm) (u32 (incompleteFramesDiscarded pm + 1))
            (corruptFramesDiscarded pm) (memoryErrors pm).

Definition incrementCorruptFrames (pm : PerformanceMonitor) :=
  mkMonitor (totalFramesStarted pm) (completeFramesReceived pm)
            (completeFramesRendered pm) (incompleteFramesDiscarded pm)
            (u32 (corruptFramesDiscarded pm + 1)) (memoryErrors pm).

(** ** frame_processor.h: structural JPEG check *)

(** The end-marker loop of [validateCompleteJPEG]: [n] iterations starting at
    index [i], leaving at the first [FF D9] pair. *)
Fixpoint scanEndMarker (buffer : list byte) (i : Z) (n : nat) : bool :=
  match n with
  | O => false
  | S n' =>
      if (byte_at buffer i =? 255) && (byte_at buffer (i + 1) =? 217)
      then true
      else scanEndMarker buffer (i + 1) n'
  end.

(** [FrameProcessor::validateCompleteJPEG(buffer, size)], [size : uint32_t]. *)
Definition validateCompleteJPEG (buffer : list byte) (size : Z) : bool :=
  if size <? 20 then false
  else if negb (byte_at buffer 0 =? 255) || negb (byte_at buffer 1 =? 216)
  then false
  else
    let searchStart := if size >? 20 then u32 (size - 20) else 0 in
    scanEndMarker buffer searchStart (Z.to_nat (u32 (size - 1) - searchStart)).

(** ** frame_processor.h: reassembly state *)

(** The data members of [FrameProcessor] (the two mutex handles are
    represented by the lock outcomes passed to the operations). *)
Record FrameProcessor := mkFP {
  frameBuffer : list byte;
  assemblyBuffer : list byte;
  packetReceived : list bool;
  currentFrame : CompleteFrameState
}.

(** The two singletons the reassembler reads and writes. *)
Record System := mkSys {
  fp : FrameProcessor;
  pm : PerformanceMonitor
}.

(** State after the constructors and a successful [initialize()]:
    zeroed buffers of their fixed capacities and a reset descriptor. *)
Definition initialSystem : System :=
  mkSys (mkFP (replicate (Z.to_nat Config.MAX_FRAME_SIZE) x00)
              (replicate (Z.to_nat Config.MAX_FRAME_SIZE) x00)
              (replicate (Z.to_nat Config.MAX_PACKETS) false)
              reset)
        newMonitor.

(** Little-endian loads [*(uint16_t* )&p[off]] and [*(uint32_t* )&p[off]]. *)
Definition le16 (p : list byte) (off : Z) : Z :=
  byte_at p off + 256 * byte_at p (off + 1).

Definition le32 (p : list byte) (off : Z) : Z :=
  byte_at p off + 256 * byte_at p (off + 1)
  + 65536 * byte_at p (off + 2) + 16777216 * byte_at p (off + 3).

(** [packetReceived[i]]. *)
Definition received_at (tracking : list bool) (i : Z) : bool :=
  match tracking !! Z.to_nat i with
  | Some b => b
  | None => false
  end.

(** [memcpy(dst + off, src, n)] into a buffer of fixed capacity: the first
    [n] bytes of [src] overwrite [dst] from offset [off].  The list keeps its
    length; a copy that would run past the capacity (undefined in C++, and
    excluded by the size tests of the callers) stops at the end. *)
Definition memcpy (dst : list byte) (off : Z) (src : list byte) (n : Z)
  : list byte :=
  list_inserts (Z.to_nat off) (take (Z.to_nat n) src) dst.

(** [FrameProcessor::processPacket(packetData, size)].  [packetData] is the
    (non-null) datagram and [size] its length, as [highSpeedUdpTask] passes
    them; [lockOk] is the outcome of [lockFrame(5)] and [now] the value of
    [millis()], both consulted only where the code does.  Every path after
    the lock was taken releases it before returning. *)
Definition processPacket (lockOk : bool) (now : Z) (packetData : list byte)
    (s : System) : System * bool :=
  let size := Z.of_nat (length packetData) in
  if size <? 12 then (s, false) else
  let frame_id := le32 packetData 0 in
  let total_packets := le16 packetData 4 in
  let packet_idx := le16 packetData 6 in
  let packet_size := le32 packetData 8 in
  let payload := drop 12 packetData in
  let actualDataSize := u32 (size - 12) in
  if negb (packet_size =? actualDataSize) || (packet_idx >=? total_packets)
     || (total_packets =? 0) || (total_packets >? Config.MAX_PACKETS)
  then (s, false)
  else if negb lockOk then (s, false)
  else
    let f := fp s in
    let cur := currentFrame f in
    if packet_idx =? 0 then
      if (actualDataSize <? 2) || negb (byte_at payload 0 =? 255)
         || negb (byte_at payload 1 =? 216)
      then (s, false)
      else
        let started :=
          mkFrame (u16 frame_id) total_packets 1 packet_size now
                  false false false in
        let pm' := incrementFramesStarted (pm s) in
        let tracking :=
          <[0%nat := true]> (replicate (Z.to_nat Config.MAX_PACKETS) false) in
        if packet_size <=? Config.MAX_FRAME_SIZE then
          let asm := memcpy (assemblyBuffer f) 0 payload packet_size in
          let cur' :=
            if total_packets =? 1
            then mkFrame (u16 frame_id) total_packets 1 packet_size now
                         true false false
            else started in
          (mkSys (mkFP (frameBuffer f) asm tracking cur') pm', true)
        else
          (mkSys (mkFP (frameBuffer f) (assemblyBuffer f) tracking started) pm',
           false)
    else
      if (frame_id =? frameId cur) && (receivedPackets cur >? 0) then
        if negb (received_at (packetReceived f) packet_idx) then
          if u32 (totalSize cur + packet_size) <=? Config.MAX_FRAME_SIZE then
            let asm :=
              memcpy (assemblyBuffer f) (totalSize cur) payload packet_size in
            let received' := u16 (receivedPackets cur + 1) in
            let cur' :=
              mkFrame (frameId cur) (totalPackets cur) received'
                      (u32 (totalSize cur + packet_size)) (startTime cur)
                      (if received' =? totalPackets cur
                       then true else isComplete cur)
                      (isValid cur) (isRendering cur) in
            (mkSys (mkFP (frameBuffer f) asm
                         (<[Z.to_nat packet_idx := true]> (packetReceived f))
                         cur')
                   (pm s), true)
          else (s, false)
        else (s, false)
      else (s, false).

(** The verification loop of [assembleCompleteFrame]: [n] iterations from
    index [i], leaving at the first missing fragment. *)
Fixpoint allReceived (tracking : list bool) (i : Z) (n : nat) : bool :=
  match n with
  | O => true
  | S n' =>
      if negb (received_at tracking i) then false
      else allReceived tracking (i + 1) n'
  end.

(** [FrameProcessor::assembleCompleteFrame()]. *)
Definition assembleCompleteFrame (s : System) : System * bool :=
  let f := fp s in
  let cur := currentFrame f in
  if negb (allReceived (packetReceived f) 0 (Z.to_nat (totalPackets cur)))
  then (s, false)
  else if negb (validateCompleteJPEG (assemblyBuffer f) (totalSize cur))
  then (mkSys f (incrementCorruptFrames (pm s)), false)
  else
    (mkSys (mkFP (memcpy (frameBuffer f) 0 (assemblyBuffer f) (totalSize cur))
                 (assemblyBuffer f) (packetReceived f)
                 (mkFrame (frameId cur) (totalPackets cur) (receivedPackets cur)
                          (totalSize cur) (startTime cur) (isComplete cur)
                          true (isRendering cur)))
           (incrementCompleteFrames (pm s)), true).

(** [FrameProcessor::handleFrameTimeout()]; [lockOk] is the outcome of
    [lockFrame(2)], [now] the value of [millis()]. *)
Definition handleFrameTimeout (lockOk : bool) (now : Z) (s : System) : System :=
  let f := fp s in
  let cur := currentFrame f in
  if (receivedPackets cur >? 0)
     && (u32 (now - startTime cur) >? Config.FRAME_TIMEOUT)
  then
    if lockOk then
      mkSys (mkFP (frameBuffer f) (assemblyBuffer f) (packetReceived f)
                  (mkFrame (frameId cur) (totalPackets cur) 0 (totalSize cur)
                           (startTime cur) false (isValid cur)
                           (isRendering cur)))
            (incrementIncompleteFrames (pm s))
    else s
  else s.

(** [FrameProcessor::resetCurrentFrame()]. *)
Definition resetCurrentFrame (s : System) : System :=
  let f := fp s in
  let cur := currentFrame f in
  mkSys (mkFP (frameBuffer f) (assemblyBuffer f) (packetReceived f)
              (mkFrame (frameId cur) (totalPackets cur) 0 (totalSize cur)
                       (startTime cur) false false (isRendering cur)))
        (pm s).

(** The public operations that change the reassembler, with the environment
    results each one consults. *)
Inductive Op :=
| OpPacket (lockOk : bool) (now : Z) (packetData : list byte)
| OpAssemble
| OpTimeout (lockOk : bool) (now : Z)
| OpReset.

Definition step (s : System) (o : Op) : System :=
  match o with
  | OpPacket lockOk now packetData => fst (processPacket lockOk now packetData s)
  | OpAssemble => fst (assembleCompleteFrame s)
  | OpTimeout lockOk now => handleFrameTimeout lockOk now s
  | OpReset => resetCurrentFrame s
  end.

(** State reached from [s] by a sequence of calls, oldest first. *)
Definition run (ops : list Op) (s : System) : System := foldl step s ops.


(** Builds a datagram with the 12-byte little-endian header. *)
Definition le_bytes (n : nat) (x : Z) : list byte :=
  (fun i => match Byte.of_N (Z.to_N ((x / 256 ^ Z.of_nat i) mod 256)) with
            | Some b => b
            | None => x00
            end) <$> seq 0 n.

Definition datagram (frame_id total_packets packet_idx : Z)
    (payload : list byte) : list byte :=
  le_bytes 4 frame_id ++ le_bytes 2 total_packets ++ le_bytes 2 packet_idx
  ++ le_bytes 4 (Z.of_nat (length payload)) ++ payload.

(** ** Outcome states of the reassembler's operations *)

(** State after an accepted fragment 0. *)
Definition startedBy (now : Z) (packetData : list byte) (s : System) : System :=
  mkSys (mkFP (frameBuffer (fp s))
              (memcpy (assemblyBuffer (fp s)) 0 (drop 12 packetData)
                      (le32 packetData 8))
              (<[0%nat := true]> (replicate (Z.to_nat Config.MAX_PACKETS) false))
              (mkFrame (u16 (le32 packetData 0)) (le16 packetData 4) 1
                       (le32 packetData 8) now (le16 packetData 4 =? 1)
                       false false))
        (incrementFramesStarted (pm s)).

(** State after a refused, oversized fragment 0. *)
Definition startedOversized (now : Z) (packetData : list byte) (s : System)
  : System :=
  mkSys (mkFP (frameBuffer (fp s)) (assemblyBuffer (fp s))
              (<[0%nat := true]> (replicate (Z.to_nat Config.MAX_PACKETS) false))
              (mkFrame (u16 (le32 packetData 0)) (le16 packetData 4) 1
                       (le32 packetData 8) now false false false))
        (incrementFramesStarted (pm s)).

(** State after an accepted continuation fragment. *)
Definition continuedBy (packetData : list byte) (s : System) : System :=
  let cur := currentFrame (fp s) in
  let received' := u16 (receivedPackets cur + 1) in
  mkSys (mkFP (frameBuffer (fp s))
              (memcpy (assemblyBuffer (fp s)) (totalSize cur)
                      (drop 12 packetData) (le32 packetData 8))
              (<[Z.to_nat (le16 packetData 6) := true]> (packetReceived (fp s)))
              (mkFrame (frameId cur) (totalPackets cur) received'
                       (u32 (totalSize cur + le32 packetData 8)) (startTime cur)
                       (if received' =? totalPackets cur
                        then true else isComplete cur)
                       (isValid cur) (isRendering cur)))
        (pm s).

(** Descriptor and counters after an abort by timeout. *)
Definition abortedBy (s : System) : System :=
  let cur := currentFrame (fp s) in
  mkSys (mkFP (frameBuffer (fp s)) (assemblyBuffer (fp s))
              (packetReceived (fp s))
              (mkFrame (frameId cur) (totalPackets cur) 0 (totalSize cur)
                       (startTime cur) false (isValid cur) (isRendering cur)))
        (mkMonitor (totalFramesStarted (pm s)) (completeFramesReceived (pm s))
                   (completeFramesRendered (pm s))
                   (u32 (incompleteFramesDiscarded (pm s) + 1))
                   (corruptFramesDiscarded (pm s)) (memoryErrors (pm s))).

(** Some fragment among indices [0 .. totalPackets-1] is not marked. *)
Definition missingFragment (s : System) : Prop :=
  exists j, 0 <= j < totalPackets (currentFrame (fp s)) /\
            received_at (packetReceived (fp s)) j = false.

(** ** Conforming senders and the tracked-frame invariant *)

(** Number of marked entries of a tracking array. *)
Fixpoint countSet (tracking : list bool) : Z :=
  match tracking with
  | [] => 0
  | b :: rest => (if b then 1 else 0) + countSet rest
  end.

(** A datagram conforms to the frame in flight when, as fragment 0, its
    payload fits the assembly buffer and, as a continuation, it declares the
    fragment count the frame was started with. *)
Definition conformingb (s : System) (o : Op) : bool :=
  match o with
  | OpPacket _ _ packetData =>
      if le16 packetData 6 =? 0
      then le32 packetData 8 <=? Config.MAX_FRAME_SIZE
      else le16 packetData 4 =? totalPackets (currentFrame (fp s))
  | _ => true
  end.

(** Every call of the sequence conforms to the state it is applied to. *)
Fixpoint conformingRun (ops : list Op) (s : System) : bool :=
  match ops with
  | [] => true
  | o :: rest => conformingb s o && conformingRun rest (step s o)
  end.

(** The descriptor agrees with the tracking array. *)
Definition trackedFrame (s : System) : Prop :=
  let cur := currentFrame (fp s) in
  let tracking := packetReceived (fp s) in
  length tracking = Z.to_nat Config.MAX_PACKETS /\
  0 <= totalPackets cur <= Config.MAX_PACKETS /\
  0 <= totalSize cur <= Config.MAX_FRAME_SIZE /\
  (receivedPackets cur = 0 \/
   (0 < totalPackets cur /\
    receivedPackets cur
      = countSet (take (Z.to_nat (totalPackets cur)) tracking) /\
    forall i, totalPackets cur <= i -> received_at tracking i = false)) /\
  (isComplete cur = true <->
   receivedPackets cur = totalPackets cur /\ 0 < totalPackets cur).

(** ** task_manager.h: adaptive render pacing *)

Module Pacing.

(** IEEE 754 binary32 ([float]) through the Standard Library's
    specification of floating-point numbers. *)
Definition prec : Z := 24.
Definition emax : Z := 128.

(** Conversion of an unsigned integer to [float], rounding to nearest. *)
Definition f32_of_Z (z : Z) : spec_float := binary_normalize prec emax z 0 false.
Definition f32_mul : spec_float -> spec_float -> spec_float := SFmul prec emax.
Definition f32_div : spec_float -> spec_float -> spec_float := SFdiv prec emax.

(** The literals [30000.0f], [1.1f] (0x3F8CCCCD) and [0.9f] (0x3F666666). *)
Definition lit_30000 : spec_float := f32_of_Z 30000.
Definition lit_1_1 : spec_float := S754_finite false 9227469 (-23).
Definition lit_0_9 : spec_float := S754_finite false 15099494 (-24).

(** [30000.0f / (currentTime - lastRenderTime + 1)], the divisor computed in
    [uint32_t]. *)
Definition avgFPS (currentTime lastRenderTime : Z) : spec_float :=
  f32_div lit_30000 (f32_of_Z (u32 (u32 (currentTime - lastRenderTime) + 1))).

(** [avgFPS > Config::TARGET_FPS * 1.1f] and
    [avgFPS < Config::TARGET_FPS * 0.9f]. *)
Definition aboveTarget (avg : spec_float) : bool :=
  SFltb (f32_mul (f32_of_Z Config.TARGET_FPS) lit_1_1) avg.

Definition belowTarget (avg : spec_float) : bool :=
  SFltb avg (f32_mul (f32_of_Z Config.TARGET_FPS) lit_0_9).

(** The "adaptive frame rate control" block of one iteration of
    [highSpeedDisplayTask]: the value of [adaptiveInterval] after it. *)
Definition adaptInterval (frameCount currentTime lastRenderTime
    adaptiveInterval : Z) : Z :=
  if (frameCount mod 30 =? 0) && (frameCount >? 0) then
    let avg := avgFPS currentTime lastRenderTime in
    if aboveTarget avg then
      Z.min (u32 (adaptiveInterval + 1)) Config.MIN_RENDER_INTERVAL
    else if belowTarget avg then
      Z.max (u32 (adaptiveInterval - 1)) Config.FAST_RENDER_INTERVAL
    else adaptiveInterval
  else adaptiveInterval.

End Pacing.

(** ** display_manager.h: the decoder's tile callback *)

Module Display.

(** Calls made on the display device. *)
Inductive TftCall :=
| PushImage (x y w h : Z) (bitmap : list Z).

(** What the callback reads and writes: the optional pixel buffer
    ([nullptr] when it could not be allocated), the calls made on the
    device (oldest first), the callback's [static uint16_t callCount] and
    the number of [taskYIELD()] performed. *)
Record DisplayManager := mkDM {
  displayBuffer : option (list Z);
  tft : list TftCall;
  callCount : Z;
  yields : nat
}.

(** Position in the pixel buffer of column [col] of row [row] of a tile
    whose top-left corner is at [(x, y)]. *)
Definition pixelIndex (x y row col : Z) : nat :=
  Z.to_nat ((y + row) * Config.DISPLAY_WIDTH + x + col).

(** The row loop of the buffered path: [n] iterations from [row].  Each
    one copies [w] pixels ([w << 1] bytes) of the bitmap into the pixel
    buffer.  A destination outside the buffer, which the guard lets through
    only after the [uint32_t] offset wrapped (negative [x] or [y]) and which
    is undefined in C++, writes nothing here. *)
Fixpoint copyRows (x y w : Z) (bitmap : list Z) (row : Z) (n : nat)
    (buffer : list Z) : list Z :=
  match n with
  | O => buffer
  | S n' =>
      let dstOffset := u32 ((y + row) * Config.DISPLAY_WIDTH + x) in
      let srcOffset := u32 (row * w) in
      let buffer' :=
        if u32 (dstOffset + w)
           <=? Config.DISPLAY_WIDTH * Config.DISPLAY_HEIGHT
        then list_inserts (Z.to_nat dstOffset)
               (take (Z.to_nat w) (drop (Z.to_nat srcOffset) bitmap)) buffer
        else buffer in
      copyRows x y w bitmap (row + 1) n' buffer'
  end.

(** [highSpeedTftOutput(x, y, w, h, bitmap)]; [x], [y] are [int16_t], [w],
    [h] are [uint16_t] and [bitmap] is [None] for a null pointer. *)
Definition highSpeedTftOutput (x y w h : Z) (bitmap : option (list Z))
    (dm : DisplayManager) : DisplayManager * bool :=
  match bitmap with
  | None => (dm, false)
  | Some pixels =>
      if (y >=? Config.DISPLAY_HEIGHT) || (x >=? Config.DISPLAY_WIDTH)
      then (dm, false)
      else
        let w := if x + w >? Config.DISPLAY_WIDTH
                 then u16 (Config.DISPLAY_WIDTH - x) else w in
        let h := if y + h >? Config.DISPLAY_HEIGHT
                 then u16 (Config.DISPLAY_HEIGHT - y) else h in
        let '(buffer, calls) :=
          if (w >? 0) && (h >? 0) then
            match displayBuffer dm with
            | Some buffer =>
                (Some (copyRows x y w pixels 0 (Z.to_nat h) buffer), tft dm)
            | None => (None, tft dm ++ [PushImage x y w h pixels])
            end
          else (displayBuffer dm, tft dm) in
        let count := u16 (callCount dm + 1) in
        if count mod 32 =? 0
        then (mkDM buffer calls 0 (S (yields dm)), true)
        else (mkDM buffer calls count (yields dm), true)
  end.

End Display.

(** ** Sending a frame fragment by fragment *)

(** The datagrams of a frame whose payload is cut into [chunks], numbered
    from [idx] on, each processed with the frame lock acquired. *)
Fixpoint sendFrom (frame_id total idx : Z) (chunks : list (list byte))
  : list Op :=
  match chunks with
  | [] => []
  | chunk :: rest =>
      OpPacket true 0 (datagram frame_id total idx chunk)
      :: sendFrom frame_id total (idx + 1) rest
  end.

(** The datagram of a call fits the [int size] parameter of
    [processPacket]. *)
Definition intSized (o : Op) : Prop :=
  match o with
  | OpPacket _ _ packetData => Z.of_nat (length packetData) < 2147483648
  | _ => True
  end.

(** ** performance_monitor.h: memory check *)

Definition incrementMemoryErrors (pm : PerformanceMonitor) :=
  mkMonitor (totalFramesStarted pm) (completeFramesReceived pm)
            (completeFramesRendered pm) (incompleteFramesDiscarded pm)
            (corruptFramesDiscarded pm) (u32 (memoryErrors pm + 1)).

(** [PerformanceMonitor::checkMemory()]; [freeHeap] is the value of
    [ESP.getFreeHeap()]. *)
Definition checkMemory (freeHeap : Z) (pm : PerformanceMonitor) :=
  if freeHeap <? Config.MIN_HEAP_SIZE then incrementMemoryErrors pm else pm.

(** ** task_manager.h: the ingest and render loops *)

Module Tasks.

(** What one call of [nm.readPacket(packetBuffer, 1500)] leaves in the
    buffer (empty when it returned 0), with the environment results the
    following [processPacket] consults. *)
Record Read := mkRead {
  readLock : bool;
  readNow : Z;
  readData : list byte
}.

(** The burst loop of [highSpeedUdpTask] with [n] iterations left: each one
    reads once, hands a non-empty read to [processPacket] and leaves the loop
    at the first empty one.  A read beyond the end of [reads] is an empty
    one. *)
Fixpoint burst (n : nat) (reads : list Read) (s : System) : System :=
  match n with
  | O => s
  | S n' =>
      match reads with
      | [] => s
      | r :: rest =>
          if Z.of_nat (length (readData r)) >? 0
          then burst n' rest
                 (fst (processPacket (readLock r) (readNow r) (readData r) s))
          else s
      end
  end.

(** One cycle of [highSpeedUdpTask]: up to three datagrams, then the timeout
    handling ([lockOk], [now] are what [handleFrameTimeout] consults). *)
Definition udpCycle (reads : list Read) (lockOk : bool) (now : Z)
    (s : System) : System :=
  handleFrameTimeout lockOk now (burst 3 reads s).

(** The calls a cycle amounts to: the non-empty reads before the first
    empty one, at most three, then the timeout handling. *)
Fixpoint burstOps (n : nat) (reads : list Read) : list Op :=
  match n with
  | O => []
  | S n' =>
      match reads with
      | [] => []
      | r :: rest =>
          if Z.of_nat (length (readData r)) >? 0
          then OpPacket (readLock r) (readNow r) (readData r)
               :: burstOps n' rest
          else []
      end
  end.

(** The local variables of [highSpeedDisplayTask]. *)
Record DisplayTask := mkTask {
  lastRenderTime : Z;
  frameCount : Z;
  adaptiveInterval : Z
}.

Definition initialTask : DisplayTask :=
  mkTask 0 0 Config.MIN_RENDER_INTERVAL.

(** One iteration of [highSpeedDisplayTask], taken as one step.
    [currentTime] is [millis()], [lockOk] the outcome of [lockDisplay(15)],
    [renderOk] the result of [dm.renderFrameHighSpeed] (the external decoder)
    and [freeHeap] the value of [ESP.getFreeHeap()]; each is consulted only
    where the code does. *)
Definition displayIteration (currentTime : Z) (lockOk renderOk : bool)
    (freeHeap : Z) (t : DisplayTask) (s : System) : DisplayTask * System :=
  let interval :=
    Pacing.adaptInterval (frameCount t) currentTime (lastRenderTime t)
                         (adaptiveInterval t) in
  let cur := currentFrame (fp s) in
  let waiting := mkTask (lastRenderTime t) (frameCount t) interval in
  let '(t', s') :=
    if isComplete cur && negb (isRendering cur)
       && (u32 (currentTime - lastRenderTime t) >=? interval)
    then
      if lockOk then
        let '(assembled, ok) := assembleCompleteFrame s in
        if ok then
          if renderOk then
            (mkTask currentTime (u32 (frameCount t + 1)) interval,
             resetCurrentFrame
               (mkSys (fp assembled) (incrementRenderedFrames (pm assembled))))
          else (waiting, resetCurrentFrame assembled)
        else (waiting, resetCurrentFrame assembled)
      else (waiting, s)
    else (waiting, s) in
  (t', mkSys (fp s') (checkMemory freeHeap (pm s'))).

(** The environment results one iteration consults. *)
Record Tick := mkTick {
  tickTime : Z;
  tickLock : bool;
  tickRender : bool;
  tickHeap : Z
}.

(** The assembled size is within the assembly buffer. *)
Definition boundedSize (s : System) : Prop :=
  0 <= totalSize (currentFrame (fp s)) <= Config.MAX_FRAME_SIZE.

(** The two loops taken together, one whole cycle of either at a time. *)
Inductive Event :=
| Ingest (reads : list Read) (lockOk : bool) (now : Z)
| Render (k : Tick).

Definition systemStep (st : DisplayTask * System) (e : Event)
  : DisplayTask * System :=
  match e with
  | Ingest reads lockOk now => (fst st, udpCycle reads lockOk now (snd st))
  | Render k =>
      displayIteration (tickTime k) (tickLock k) (tickRender k) (tickHeap k)
                       (fst st) (snd st)
  end.

Definition systemRun (events : list Event) : DisplayTask * System :=
  foldl systemStep (initialTask, initialSystem) events.

End Tasks.

(** ** A stream that pauses after thirty frames *)

(** A single-fragment frame of 22 bytes with both markers. *)
Definition tinyFrame : list byte :=
  [xff; xd8] ++ replicate 18 x00 ++ [xff; xd9].

(** Frame number [k] arrives and is rendered at [millis() = 16 * k]: one
    ingest cycle that reads its datagram, then one render iteration in which
    the display lock is taken and the decoder succeeds. *)
Definition frameCycle (k : nat) : list Tasks.Event :=
  let now := 16 * Z.of_nat k in
  [Tasks.Ingest [Tasks.mkRead true now (datagram (Z.of_nat k) 1 0 tinyFrame)]
                true now;
   Tasks.Render (Tasks.mkTick now true true 100000)].

(** Thirty frames, one every 16 ms (62.5 frames per second). *)
Definition thirtyFrames : list Tasks.Event := flat_map frameCycle (seq 1 30).

(** The sender then pauses: the render loop goes on every 8 ms, at
    [millis() = 488, 496, ..., 1096], with no frame waiting. *)
Definition idleIterations : list Tasks.Event :=
  (fun j => Tasks.Render (Tasks.mkTick (488 + 8 * Z.of_nat j) true true 100000))
    <$> seq 0 77.

(** [frameCount], [lastRenderTime] and [adaptiveInterval] of the render task
    after the thirty frames and [n] idle iterations. *)
Definition pacingAfter (n : nat) : Z * Z * Z :=
  let t := fst (Tasks.systemRun (thirtyFrames ++ take n idleIterations)) in
  (Tasks.frameCount t, Tasks.lastRenderTime t, Tasks.adaptiveInterval t).

(** ** display_manager.h: flushing the pixel buffer in strips *)

Module Flush.

(** Calls made on the display device during a flush. *)
Inductive TftWrite :=
| StartWrite
| SetAddrWindow (x y w h : Z)
| PushPixels (pixels : list Z)
| EndWrite.

(** The strip loop of [fastStripTransfer] from row [y] ([uint16_t]), with
    [fuel] iterations at most: the device calls made and the number of
    [taskYIELD()] performed. *)
Fixpoint stripLoop (stripHeight : Z) (buffer : list Z) (y : Z) (fuel : nat)
  : list TftWrite * nat :=
  match fuel with
  | O => ([], O)
  | S fuel' =>
      if y <? Config.DISPLAY_HEIGHT then
        let currentStripHeight :=
          Z.min (u16 stripHeight) (u16 (Config.DISPLAY_HEIGHT - y)) in
        let pixelOffset := u32 (y * Config.DISPLAY_WIDTH) in
        let pixelsToSend := u32 (currentStripHeight * Config.DISPLAY_WIDTH) in
        let '(calls, yields) :=
          stripLoop stripHeight buffer (u16 (y + stripHeight)) fuel' in
        ([SetAddrWindow 0 y Config.DISPLAY_WIDTH currentStripHeight;
          PushPixels (take (Z.to_nat pixelsToSend)
                           (drop (Z.to_nat pixelOffset) buffer))] ++ calls,
         if y mod (stripHeight * 4) =? 0 then S yields else yields)
      else ([], O)
  end.

(** [(Config::TARGET_FPS > 45) ? Config::FAST_STRIP_HEIGHT
    : Config::STRIP_HEIGHT]. *)
Definition stripHeight : Z :=
  if Config.TARGET_FPS >? 45 then Config.FAST_STRIP_HEIGHT
  else Config.STRIP_HEIGHT.

(** [DisplayManager::fastStripTransfer()].  The loop advances by
    [stripHeight] rows per iteration, so [DISPLAY_HEIGHT] iterations are
    more than it performs. *)
Definition fastStripTransfer (displayBuffer : option (list Z))
  : list TftWrite * nat :=
  match displayBuffer with
  | None => ([], O)
  | Some buffer =>
      let '(calls, yields) :=
        stripLoop stripHeight buffer 0 (Z.to_nat Config.DISPLAY_HEIGHT) in
      ([StartWrite] ++ calls ++ [EndWrite], yields)
  end.

(** The two device calls of strip number [k], which starts at row
    [stripHeight * k] and holds [stripHeight] full rows. *)
Definition strip (buffer : list Z) (k : nat) : list TftWrite :=
  [SetAddrWindow 0 (stripHeight * Z.of_nat k) Config.DISPLAY_WIDTH stripHeight;
   PushPixels
     (take (Z.to_nat (stripHeight * Config.DISPLAY_WIDTH))
           (drop (Z.to_nat (stripHeight * Z.of_nat k * Config.DISPLAY_WIDTH))
                 buffer))].

(** The pixels sent to the device, in order. *)
Fixpoint pushed (calls : list TftWrite) : list Z :=
  match calls with
  | [] => []
  | PushPixels pixels :: rest => pixels ++ pushed rest
  | _ :: rest => pushed rest
  end.

(** The address windows set, in order. *)
Fixpoint windows (calls : list TftWrite) : list (Z * Z * Z * Z) :=
  match calls with
  | [] => []
  | SetAddrWindow x y w h :: rest => (x, y, w, h) :: windows rest
  | _ :: rest => windows rest
  end.

End Flush.

(** ** Start-up: allocation of the buffers *)

Module Startup.

(** The pointers and handles of [FrameProcessor]: [None] and [false] stand
    for [nullptr]. *)
Record Handles := mkHandles {
  frameBuffer : option (list byte);
  assemblyBuffer : option (list byte);
  packetReceived : option (list bool);
  frameMutex : bool;
  displayMutex : bool
}.

(** The constructor's initial values. *)
Definition noHandles : Handles := mkHandles None None None false false.

(** [FrameProcessor::cleanup()]: every buffer and mutex held is released. *)
Definition cleanup (h : Handles) : Handles := noHandles.

(** [FrameProcessor::initialize()].  [availableHeap] is
    [ESP.getFreeHeap()]; [okFrame], [okAssembly], [okTracking] tell whether
    each [heap_caps_malloc] returned a block, [okFrameMutex] and
    [okDisplayMutex] whether each [xSemaphoreCreateMutex] did. *)
Definition initialize (availableHeap : Z)
    (okFrame okAssembly okTracking okFrameMutex okDisplayMutex : bool)
    (h : Handles) : Handles * bool :=
  let frameBufferSize := Config.MAX_FRAME_SIZE in
  let assemblyBufferSize := Config.MAX_FRAME_SIZE in
  let packetTrackingSize := Config.MAX_PACKETS in
  let totalNeeded :=
    u32 (frameBufferSize + assemblyBufferSize + packetTrackingSize) in
  if availableHeap <? u32 (totalNeeded + 20000) then (h, false)
  else if negb okFrame || negb okAssembly || negb okTracking
  then (cleanup h, false)
  else
    let zeroed :=
      mkHandles (Some (replicate (Z.to_nat frameBufferSize) x00))
                (Some (replicate (Z.to_nat assemblyBufferSize) x00))
                (Some (replicate (Z.to_nat packetTrackingSize) false))
                okFrameMutex okDisplayMutex in
    if negb okFrameMutex || negb okDisplayMutex
    then (cleanup zeroed, false)
    else (zeroed, true).

(** The members [displayBuffer] (an array of 16-bit pixels) and
    [displayBufferEnabled] of [DisplayManager]. *)
Record PixelBuffer := mkPixelBuffer {
  displayBuffer : option (list Z);
  displayBufferEnabled : bool
}.

(** [DISPLAY_WIDTH * DISPLAY_HEIGHT * 2], the size in bytes. *)
Definition DISPLAY_BUFFER_SIZE : Z :=
  u32 (Config.DISPLAY_WIDTH * Config.DISPLAY_HEIGHT * 2).

(** [DisplayManager::initializeDisplayBuffer()] on a fresh manager;
    [okBuffer] tells whether [heap_caps_malloc] returned a block.  The
    block of [DISPLAY_BUFFER_SIZE] zeroed bytes is an array of half as many
    zero pixels. *)
Definition initializeDisplayBuffer (availableHeap : Z) (okBuffer : bool)
  : PixelBuffer * bool :=
  if availableHeap >? u32 (DISPLAY_BUFFER_SIZE + 60000) then
    if okBuffer
    then (mkPixelBuffer
            (Some (replicate (Z.to_nat (DISPLAY_BUFFER_SIZE / 2)) 0)) true,
          true)
    else (mkPixelBuffer None false, true)
  else (mkPixelBuffer None false, true).

End Startup.

(** ** display_manager.h: rendering one frame *)

Module Render.

(** One call of the tile callback by the decoder. *)
Record Tile := mkTile {
  tileX : Z;
  tileY : Z;
  tileW : Z;
  tileH : Z;
  tileBitmap : option (list Z)
}.

Definition callback (dm : Display.DisplayManager) (t : Tile)
  : Display.DisplayManager * bool :=
  Display.highSpeedTftOutput (tileX t) (tileY t) (tileW t) (tileH t)
                             (tileBitmap t) dm.

(** The calls of the callback one decoding makes, in order. *)
Definition callbacks (tiles : list Tile) (dm : Display.DisplayManager)
  : Display.DisplayManager :=
  foldl (fun d t => fst (callback d t)) dm tiles.

(** The tiles the callback does not turn away: a bitmap is given and the
    corner is left of the right edge and above the bottom edge. *)
Definition taken (t : Tile) : bool :=
  match tileBitmap t with
  | None => false
  | Some _ =>
      negb ((tileY t >=? Config.DISPLAY_HEIGHT)
            || (tileX t >=? Config.DISPLAY_WIDTH))
  end.

Definition takenCount (tiles : list Tile) : Z :=
  Z.of_nat (length (List.filter taken tiles)).

(** [memset(displayBuffer, 0, Config::DISPLAY_BUFFER_SIZE)] where a pixel
    buffer exists. *)
Definition clearDisplayBuffer (dm : Display.DisplayManager)
  : Display.DisplayManager :=
  match Display.displayBuffer dm with
  | Some buffer =>
      Display.mkDM
        (Some (list_inserts 0
                 (replicate (Z.to_nat (Startup.DISPLAY_BUFFER_SIZE / 2)) 0)
                 buffer))
        (Display.tft dm) (Display.callCount dm) (Display.yields dm)
  | None => dm
  end.

(** [DisplayManager::renderFrameHighSpeed(frameData, size)].  The decoder
    is external: [tiles] are the calls of the callback that
    [TJpgDec.drawJpg(0, 0, frameData, size)] makes and [success] is its
    result.  The result holds the manager, the device calls of the flush
    and the value returned. *)
Definition renderFrameHighSpeed (frameData : option (list byte)) (size : Z)
    (tiles : list Tile) (success : bool) (dm : Display.DisplayManager)
  : Display.DisplayManager * list Flush.TftWrite * bool :=
  match frameData with
  | None => (dm, [], false)
  | Some _ =>
      if size =? 0 then (dm, [], false)
      else
        let cleared := clearDisplayBuffer dm in
        let decoded := callbacks tiles cleared in
        if success
           && match Display.displayBuffer decoded with
              | Some _ => true
              | None => false
              end
        then
          let '(calls, n) :=
            Flush.fastStripTransfer (Display.displayBuffer decoded) in
          (Display.mkDM (Display.displayBuffer decoded) (Display.tft decoded)
                        (Display.callCount decoded)
                        (Display.yields decoded + n),
           calls, success)
        else (decoded, [], success)
  end.

End Render.

(** ** network_manager.h: connected clients *)

Module Network.

(** The events [wifiEventHandler] tells apart. *)
Inductive WiFiEvent :=
| StaConnected
| StaDisconnected
| OtherEvent.

(** A 32-bit [int] in two's complement.  Overflow of [int] is undefined in
    C++; it wraps here, as the target's arithmetic does. *)
Definition s32 (z : Z) : Z := (z + 2147483648) mod 4294967296 - 2147483648.

Definition incrementClients (connectedClients : Z) : Z :=
  s32 (connectedClients + 1).

Definition decrementClients (connectedClients : Z) : Z :=
  let c := s32 (connectedClients - 1) in
  if c <? 0 then 0 else c.

(** [NetworkManager::wifiEventHandler(event)] on the client counter. *)
Definition wifiEventHandler (connectedClients : Z) (event : WiFiEvent) : Z :=
  match event with
  | StaConnected => incrementClients connectedClients
  | StaDisconnected => decrementClients connectedClients
  | OtherEvent => connectedClients
  end.

(** The counter after a sequence of events, from the constructor's 0. *)
Definition clientsAfter (events : list WiFiEvent) : Z :=
  foldl wifiEventHandler 0 events.

Definition isConnect (event : WiFiEvent) : bool :=
  match event with StaConnected => true | _ => false end.

Definition isDisconnect (event : WiFiEvent) : bool :=
  match event with StaDisconnected => true | _ => false end.

Definition connects (events : list WiFiEvent) : Z :=
  Z.of_nat (length (List.filter isConnect events)).

Definition disconnects (events : list WiFiEvent) : Z :=
  Z.of_nat (length (List.filter isDisconnect events)).

End Network.

(** ** Shape of the reassembler state *)

(** The three arrays have their allocated capacities, the declared fragment
    count is within the tracking array and [isRendering] is clear. *)
Definition wellShaped (s : System) : Prop :=
  length (frameBuffer (fp s)) = Z.to_nat Config.MAX_FRAME_SIZE /\
  length (assemblyBuffer (fp s)) = Z.to_nat Config.MAX_FRAME_SIZE /\
  length (packetReceived (fp s)) = Z.to_nat Config.MAX_PACKETS /\
  0 <= totalPackets (currentFrame (fp s)) <= Config.MAX_PACKETS /\
  isRendering (currentFrame (fp s)) = false.

(** The assembled size is an [int], and a complete frame fits the assembly
    buffer. *)
Definition sizedFrame (s : System) : Prop :=
  0 <= totalSize (currentFrame (fp s)) < 2147483648 /\
  (isComplete (currentFrame (fp s)) = true ->
   totalSize (currentFrame (fp s)) <= Config.MAX_FRAME_SIZE).

(** * Properties *)

(** ** Bytes, header fields and the tracking array *)

Lemma u8_range (b : byte) : 0 <= u8 b < 256.
Proof. unfold u8. pose proof (Byte.to_N_bounded b). lia. Qed.

Lemma byte_at_range (buffer : list byte) (i : Z) : 0 <= byte_at buffer i < 256.
Proof.
  unfold byte_at. destruct (buffer !! Z.to_nat i); [apply u8_range|lia].
Qed.

Lemma le16_range (p : list byte) (off : Z) : 0 <= le16 p off < 65536.
Proof.
  unfold le16.
  pose proof (byte_at_range p off). pose proof (byte_at_range p (off + 1)).
  lia.
Qed.

Lemma le32_range (p : list byte) (off : Z) : 0 <= le32 p off < 4294967296.
Proof.
  unfold le32.
  pose proof (byte_at_range p off). pose proof (byte_at_range p (off + 1)).
  pose proof (byte_at_range p (off + 2)). pose proof (byte_at_range p (off + 3)).
  lia.
Qed.

Lemma u8_of_N (x : Z) :
  0 <= x < 256 ->
  u8 (match Byte.of_N (Z.to_N x) with Some b => b | None => x00 end) = x.
Proof.
  intros Hx. unfold u8.
  destruct (Byte.of_N (Z.to_N x)) as [b|] eqn:E.
  - apply Byte.to_of_N in E. rewrite E. lia.
  - apply Byte.of_N_None_iff in E. lia.
Qed.

(** Parsing a built datagram gives back its header fields and payload. *)
Lemma datagram_header (frame_id total_packets packet_idx : Z)
    (payload : list byte) :
  0 <= frame_id < 4294967296 ->
  0 <= total_packets < 65536 ->
  0 <= packet_idx < 65536 ->
  Z.of_nat (length payload) < 4294967296 ->
  let d := datagram frame_id total_packets packet_idx payload in
  le32 d 0 = frame_id /\ le16 d 4 = total_packets /\ le16 d 6 = packet_idx /\
  le32 d 8 = Z.of_nat (length payload) /\ drop 12 d = payload /\
  Z.of_nat (length d) = 12 + Z.of_nat (length payload).
Proof.
  intros Hid Htotal Hidx Hlen d. subst d.
  unfold datagram, le_bytes, le32, le16, byte_at.
  change (seq 0 4) with [0; 1; 2; 3]%nat. change (seq 0 2) with [0; 1]%nat.
  cbn [fmap list_fmap app].
  change (Z.to_nat 0) with 0%nat. change (Z.to_nat (0 + 1)) with 1%nat.
  change (Z.to_nat (0 + 2)) with 2%nat. change (Z.to_nat (0 + 3)) with 3%nat.
  change (Z.to_nat 4) with 4%nat. change (Z.to_nat (4 + 1)) with 5%nat.
  change (Z.to_nat 6) with 6%nat. change (Z.to_nat (6 + 1)) with 7%nat.
  change (Z.to_nat 8) with 8%nat. change (Z.to_nat (8 + 1)) with 9%nat.
  change (Z.to_nat (8 + 2)) with 10%nat. change (Z.to_nat (8 + 3)) with 11%nat.
  cbn [lookup list_lookup drop length].
  change (Z.of_nat 0) with 0. change (Z.of_nat 1) with 1.
  change (Z.of_nat 2) with 2. change (Z.of_nat 3) with 3.
  change (256 ^ 0) with 1. change (256 ^ 1) with 256.
  change (256 ^ 2) with 65536. change (256 ^ 3) with 16777216.
  rewrite !u8_of_N by (apply Z.mod_pos_bound; lia).
  repeat split; try lia.
  all: Z.div_mod_to_equations; lia.
Qed.

Lemma countSet_bounds (l : list bool) : 0 <= countSet l <= Z.of_nat (length l).
Proof.
  induction l as [|b l IH]; cbn [countSet length]; [lia|].
  destruct b; lia.
Qed.

Lemma countSet_unset (l : list bool) : forall i : nat,
  l !! i = Some false -> countSet l < Z.of_nat (length l).
Proof.
  induction l as [|b l IH]; intros [|i] H; try discriminate.
  - cbn in H. injection H as ->. cbn [countSet length].
    pose proof (countSet_bounds l). lia.
  - cbn in H. apply IH in H. cbn [countSet length]. destruct b; lia.
Qed.

Lemma countSet_mark (l : list bool) : forall i : nat,
  l !! i = Some false -> countSet (<[i := true]> l) = countSet l + 1.
Proof.
  induction l as [|b l IH]; intros [|i] H; try discriminate.
  - cbn in H. injection H as ->. cbn. lia.
  - cbn in H. apply IH in H.
    change (<[S i := true]> (b :: l)) with (b :: <[i := true]> l).
    cbn [countSet]. rewrite H. lia.
Qed.

Lemma countSet_cleared (n m : nat) : countSet (take n (replicate m false)) = 0.
Proof.
  revert n. induction m as [|m IH]; intros [|n]; cbn; try reflexivity.
  rewrite IH. reflexivity.
Qed.

Lemma received_at_lookup (tracking : list bool) (i : Z) :
  0 <= i < Z.of_nat (length tracking) ->
  tracking !! Z.to_nat i = Some (received_at tracking i).
Proof.
  intros Hi. unfold received_at.
  destruct (tracking !! Z.to_nat i) eqn:E; [reflexivity|].
  apply lookup_ge_None in E. lia.
Qed.

Lemma received_at_mark_other (tracking : list bool) (i j : Z) :
  0 <= i -> 0 <= j -> i <> j ->
  received_at (<[Z.to_nat i := true]> tracking) j = received_at tracking j.
Proof.
  intros Hi Hj Hne. unfold received_at.
  rewrite list_lookup_insert_ne by lia. reflexivity.
Qed.

Lemma received_at_fresh (i : Z) :
  0 < i ->
  received_at (<[0%nat := true]> (replicate (Z.to_nat Config.MAX_PACKETS) false)) i
    = false.
Proof.
  intros Hi. unfold received_at.
  rewrite list_lookup_insert_ne by lia.
  destruct (replicate _ false !! Z.to_nat i) as [b|] eqn:E; [|reflexivity].
  apply lookup_replicate in E as [-> _]. reflexivity.
Qed.

Lemma countSet_fresh (n : Z) :
  0 < n ->
  countSet (take (Z.to_nat n)
              (<[0%nat := true]> (replicate (Z.to_nat Config.MAX_PACKETS) false)))
    = 1.
Proof.
  intros Hn. change (Z.to_nat Config.MAX_PACKETS) with (S 499).
  destruct (Z.to_nat n) as [|k] eqn:E; [lia|].
  change (<[0%nat := true]> (replicate (S 499) false))
    with (true :: replicate 499 false).
  change (take (S k) (true :: replicate 499 false))
    with (true :: take k (replicate 499 false)).
  cbn [countSet]. rewrite countSet_cleared. reflexivity.
Qed.

(** ** The structural JPEG check *)

Lemma scanEndMarker_true buffer n : forall i,
  scanEndMarker buffer i n = true <->
  exists j, i <= j < i + Z.of_nat n /\
            byte_at buffer j = 255 /\ byte_at buffer (j + 1) = 217.
Proof.
  induction n as [|n IH]; intros i.
  - simpl. split; [discriminate|]. intros (j & Hj & _). lia.
  - cbn [scanEndMarker].
    destruct ((byte_at buffer i =? 255) && (byte_at buffer (i + 1) =? 217)) eqn:E.
    + split; [intros _|reflexivity].
      apply andb_true_iff in E as [E1 E2].
      apply Z.eqb_eq in E1, E2. exists i. split; [lia|auto].
    + rewrite IH. split.
      * intros (j & Hj & H1 & H2). exists j. split; [lia|auto].
      * intros (j & Hj & H1 & H2).
        destruct (Z.eq_dec j i) as [->|Hne].
        -- rewrite H1, H2 in E. discriminate.
        -- exists j. split; [lia|auto].
Qed.

(** The check succeeds exactly on buffers of at least 20 bytes that start
    with [FF D8] and hold a pair [FF D9] inside their last 20 bytes. *)
Lemma validateCompleteJPEG_true (buffer : list byte) (size : Z) :
  0 <= size < 4294967296 ->
  validateCompleteJPEG buffer size = true <->
  20 <= size /\ byte_at buffer 0 = 255 /\ byte_at buffer 1 = 216 /\
  exists i, size - 20 <= i /\ i + 1 <= size - 1 /\
            byte_at buffer i = 255 /\ byte_at buffer (i + 1) = 217.
Proof.
  intros Hsize. unfold validateCompleteJPEG.
  destruct (size <? 20) eqn:Hsmall.
  { apply Z.ltb_lt in Hsmall. split; [discriminate|]. intros (H & _). lia. }
  apply Z.ltb_ge in Hsmall.
  destruct (byte_at buffer 0 =? 255) eqn:E0; cbn [negb orb].
  2: { apply Z.eqb_neq in E0. split; [discriminate|]. intros (_ & H & _).
       contradiction. }
  destruct (byte_at buffer 1 =? 216) eqn:E1; cbn [negb].
  2: { apply Z.eqb_neq in E1. split; [discriminate|]. intros (_ & _ & H & _).
       contradiction. }
  apply Z.eqb_eq in E0, E1.
  assert (Hstart : (if size >? 20 then u32 (size - 20) else 0) = size - 20).
  { unfold u32. destruct (size >? 20) eqn:Hgt.
    - apply Z.gtb_lt in Hgt. apply Z.mod_small. lia.
    - rewrite Z.gtb_ltb in Hgt. apply Z.ltb_ge in Hgt. lia. }
  assert (Hend : u32 (size - 1) = size - 1)
    by (unfold u32; apply Z.mod_small; lia).
  rewrite Hstart, Hend, scanEndMarker_true.
  split.
  - intros (j & Hj & Hff & Hd9).
    repeat split; try assumption. exists j. repeat split; try assumption; lia.
  - intros (_ & _ & _ & j & Hlo & Hhi & Hff & Hd9).
    exists j. repeat split; try assumption; lia.
Qed.

(** C6. [validateCompleteJPEG] returns false when [size < 20] or the buffer
    does not begin with [FF D8]; otherwise it returns true exactly when some
    pair [FF D9] lies wholly inside the last 20 bytes
    [buffer[size-20 .. size-1]].  Only bytes 0, 1 and those last 20 are
    looked at: two buffers that agree there get the same answer. *)
Theorem validateCompleteJPEG_spec (buffer : list byte) (size : Z)
    (Hsize : 0 <= size < 4294967296) :
  (size < 20 -> validateCompleteJPEG buffer size = false) /\
  (~ (byte_at buffer 0 = 255 /\ byte_at buffer 1 = 216) ->
     validateCompleteJPEG buffer size = false) /\
  (20 <= size -> byte_at buffer 0 = 255 -> byte_at buffer 1 = 216 ->
     (validateCompleteJPEG buffer size = true <->
      exists i, size - 20 <= i /\ i + 1 <= size - 1 /\
                byte_at buffer i = 255 /\ byte_at buffer (i + 1) = 217)) /\
  (forall other : list byte,
     byte_at other 0 = byte_at buffer 0 ->
     byte_at other 1 = byte_at buffer 1 ->
     (forall i, size - 20 <= i < size -> byte_at other i = byte_at buffer i) ->
     validateCompleteJPEG other size = validateCompleteJPEG buffer size).
Proof.
  pose proof (validateCompleteJPEG_true buffer size Hsize) as Hiff.
  split; [|split; [|split]].
  - intros Hsmall. destruct (validateCompleteJPEG buffer size); [|reflexivity].
    destruct Hiff as [Hiff _]. specialize (Hiff eq_refl). lia.
  - intros Hsoi. destruct (validateCompleteJPEG buffer size); [|reflexivity].
    destruct Hiff as [Hiff _]. specialize (Hiff eq_refl). tauto.
  - intros Hlarge Hff Hd8. rewrite Hiff. tauto.
  - intros other H0 H1 Htail.
    pose proof (validateCompleteJPEG_true other size Hsize) as Hother.
    apply eq_true_iff_eq. rewrite Hiff, Hother, H0, H1.
    split; intros (Hlarge & Hff & Hd8 & j & Hlo & Hhi & Hj & Hj1);
      (repeat split; try assumption); exists j.
    + rewrite <- !Htail by lia. repeat split; assumption.
    + rewrite !Htail by lia. repeat split; assumption.
Qed.

(** A 22-byte buffer [FF D8 00 .. 00 FF D9] passes the structural check. *)
Lemma validateCompleteJPEG_spec_witness :
  validateCompleteJPEG ([xff; xd8] ++ replicate 18 x00 ++ [xff; xd9]) 22 = true.
Proof.
  destruct (validateCompleteJPEG_spec
              ([xff; xd8] ++ replicate 18 x00 ++ [xff; xd9]) 22)
    as (_ & _ & H & _); [lia|].
  apply H; [lia|reflexivity|reflexivity|].
  exists 20. repeat split; try lia; reflexivity.
Defined.

(** ** Outcomes of [processPacket] *)

(** [processPacket] has four outcomes: the datagram is dropped and nothing
    changes, a frame is started, a frame is started although its first
    fragment is refused for its size, or a continuation is appended. *)
Lemma processPacket_cases (lockOk : bool) (now : Z) (packetData : list byte)
    (s : System) :
  let cur := currentFrame (fp s) in
  let idx := le16 packetData 6 in
  let total := le16 packetData 4 in
  let psize := le32 packetData 8 in
  processPacket lockOk now packetData s = (s, false) \/
  (idx = 0 /\ 0 < total <= Config.MAX_PACKETS /\
   psize <= Config.MAX_FRAME_SIZE /\
   processPacket lockOk now packetData s = (startedBy now packetData s, true)) \/
  (idx = 0 /\ 0 < total <= Config.MAX_PACKETS /\
   Config.MAX_FRAME_SIZE < psize /\
   processPacket lockOk now packetData s
     = (startedOversized now packetData s, false)) \/
  (0 < idx < total /\ total <= Config.MAX_PACKETS /\
   le32 packetData 0 = frameId cur /\ 0 < receivedPackets cur /\
   received_at (packetReceived (fp s)) idx = false /\
   u32 (totalSize cur + psize) <= Config.MAX_FRAME_SIZE /\
   processPacket lockOk now packetData s = (continuedBy packetData s, true)).
Proof.
  cbv zeta. unfold processPacket, startedBy, startedOversized, continuedBy.
  pose proof (le16_range packetData 6) as Hidx.
  destruct (_ <? 12); [left; reflexivity|].
  destruct (negb _) eqn:Esize; [left; reflexivity|].
  destruct (le16 packetData 6 >=? le16 packetData 4) eqn:Elt;
    [left; reflexivity|].
  destruct (le16 packetData 4 =? 0) eqn:Ezero; [left; reflexivity|].
  destruct (le16 packetData 4 >? Config.MAX_PACKETS) eqn:Emax;
    [left; reflexivity|].
  cbn [orb]. destruct lockOk; [|left; reflexivity]. cbn [negb].
  rewrite Z.geb_leb in Elt. apply Z.leb_gt in Elt.
  rewrite Z.gtb_ltb in Emax. apply Z.ltb_ge in Emax.
  destruct (le16 packetData 6 =? 0) eqn:Eidx.
  - apply Z.eqb_eq in Eidx.
    destruct (_ || _ || _); [left; reflexivity|].
    destruct (le32 packetData 8 <=? Config.MAX_FRAME_SIZE) eqn:Efit.
    + right. left. apply Z.leb_le in Efit.
      repeat split; try lia.
      destruct (le16 packetData 4 =? 1); reflexivity.
    + right. right. left. apply Z.leb_gt in Efit.
      repeat split; try lia.
  - apply Z.eqb_neq in Eidx.
    destruct (le32 packetData 0 =? _) eqn:Eid; [|left; reflexivity].
    destruct (_ >? 0) eqn:Erecv; [|left; reflexivity].
    cbn [andb].
    destruct (received_at _ _) eqn:Ebit; [left; reflexivity|]. cbn [negb].
    destruct (_ <=? Config.MAX_FRAME_SIZE) eqn:Efit; [|left; reflexivity].
    right. right. right.
    apply Z.eqb_eq in Eid. apply Z.gtb_lt in Erecv. apply Z.leb_le in Efit.
    repeat split; try lia; assumption.
Qed.

(** ** Redelivery *)

(** C3 (as amended). Redelivering a continuation fragment (index other than
    0) whose tracking bit is already set reports failure and changes
    nothing: descriptor, tracking set, both buffers and all counters are the
    ones before the call. *)
Theorem redelivery_continuation_noop (lockOk : bool) (now : Z)
    (packetData : list byte) (s : System) :
  le16 packetData 6 <> 0 ->
  received_at (packetReceived (fp s)) (le16 packetData 6) = true ->
  processPacket lockOk now packetData s = (s, false).
Proof.
  intros Hidx Hbit. unfold processPacket.
  destruct (_ <? 12); [reflexivity|].
  destruct (_ || _ || _ || _); [reflexivity|].
  destruct lockOk; [|reflexivity]. cbn [negb].
  apply Z.eqb_neq in Hidx. rewrite Hidx, Hbit. cbn [negb].
  now destruct (_ && _).
Qed.

(** Scenario C: fragment 1 of a two-fragment frame delivered twice. *)
Lemma redelivery_continuation_noop_witness :
  let p0 := datagram 1 2 0 [xff; xd8] in
  let p1 := datagram 1 2 1 [xff; xd9] in
  let s := run [OpPacket true 0 p0; OpPacket true 1 p1] initialSystem in
  processPacket true 2 p1 s = (s, false).
Proof.
  intros p0 p1 s.
  apply (redelivery_continuation_noop true 2 p1 s).
  - vm_compute. discriminate.
  - vm_compute. reflexivity.
Defined.

(** C3 as stated fails at index 0: fragment 0 of the frame in flight, delivered
    again after fragment 1, is accepted, restarts the frame (one fragment
    received instead of two) and counts one more started frame. *)
Lemma redelivery_fragment0_restarts :
  let p0 := datagram 1 3 0 [xff; xd8] in
  let p1 := datagram 1 3 1 [x00; x00] in
  let s := run [OpPacket true 0 p0; OpPacket true 1 p1] initialSystem in
  let r := processPacket true 2 p0 s in
  received_at (packetReceived (fp s)) (le16 p0 6) = true /\
  snd r = true /\
  receivedPackets (currentFrame (fp s)) = 2 /\
  receivedPackets (currentFrame (fp (fst r))) = 1 /\
  totalFramesStarted (pm s) = 1 /\
  totalFramesStarted (pm (fst r)) = 2.
Proof. vm_compute. repeat split; reflexivity. Qed.

(** ** Oversized first fragment *)

(** C10. A fragment 0 that passes the header checks, starts with [FF D8] and
    declares more than [MAX_FRAME_SIZE] payload bytes is refused, yet the
    descriptor already describes the new frame, the tracking set is cleared
    with only bit 0 set and the started-frame counter is incremented; both
    byte buffers are as before and [isComplete] stays false. *)
Theorem processPacket_oversized_first_fragment (now : Z)
    (packetData : list byte) (s : System) :
  let size := Z.of_nat (length packetData) in
  let total_packets := le16 packetData 4 in
  let packet_size := le32 packetData 8 in
  12 <= size ->
  packet_size = u32 (size - 12) ->
  le16 packetData 6 = 0 ->
  0 < total_packets <= Config.MAX_PACKETS ->
  byte_at (drop 12 packetData) 0 = 255 ->
  byte_at (drop 12 packetData) 1 = 216 ->
  Config.MAX_FRAME_SIZE < packet_size ->
  processPacket true now packetData s =
    (mkSys (mkFP (frameBuffer (fp s)) (assemblyBuffer (fp s))
                 (<[0%nat := true]>
                    (replicate (Z.to_nat Config.MAX_PACKETS) false))
                 (mkFrame (u16 (le32 packetData 0)) total_packets 1 packet_size
                          now false false false))
           (mkMonitor (u32 (totalFramesStarted (pm s) + 1))
                      (completeFramesReceived (pm s))
                      (completeFramesRendered (pm s))
                      (incompleteFramesDiscarded (pm s))
                      (corruptFramesDiscarded (pm s)) (memoryErrors (pm s))),
     false).
Proof.
  cbv zeta. intros Hlen Hsize Hidx Htotal Hff Hd8 Hbig.
  unfold processPacket, incrementFramesStarted.
  assert (E1 : (Z.of_nat (length packetData) <? 12) = false) by (apply Z.ltb_ge; lia).
  rewrite E1, Hidx, <- Hsize, Z.eqb_refl.
  assert (E2 : (0 >=? le16 packetData 4) = false).
  { rewrite Z.geb_leb. apply Z.leb_gt. lia. }
  assert (E3 : (le16 packetData 4 =? 0) = false) by (apply Z.eqb_neq; lia).
  assert (E4 : (le16 packetData 4 >? Config.MAX_PACKETS) = false).
  { rewrite Z.gtb_ltb. apply Z.ltb_ge. lia. }
  rewrite E2, E3, E4. cbn [negb orb].
  change (0 =? 0) with true. cbv iota.
  assert (E5 : (le32 packetData 8 <? 2) = false).
  { apply Z.ltb_ge. unfold Config.MAX_FRAME_SIZE in Hbig. lia. }
  rewrite E5, Hff, Hd8. change (255 =? 255) with true.
  change (216 =? 216) with true. cbn [negb orb].
  assert (E6 : (le32 packetData 8 <=? Config.MAX_FRAME_SIZE) = false)
    by (apply Z.leb_gt; lia).
  rewrite E6. reflexivity.
Qed.

(** A first fragment of 35002 payload bytes on the initial state. *)
Lemma processPacket_oversized_first_fragment_witness :
  let big := datagram 5 2 0 ([xff; xd8] ++ replicate (Z.to_nat 35000) x00) in
  let r := processPacket true 42 big initialSystem in
  snd r = false /\
  currentFrame (fp (fst r)) = mkFrame 5 2 1 35002 42 false false false /\
  totalFramesStarted (pm (fst r)) = 1 /\
  assemblyBuffer (fp (fst r)) = assemblyBuffer (fp initialSystem).
Proof.
  intros big r. subst r.
  rewrite (processPacket_oversized_first_fragment 42 big initialSystem).
  - cbn [fst snd fp pm currentFrame assemblyBuffer totalFramesStarted].
    repeat split; vm_compute; reflexivity.
  - vm_compute. discriminate.
  - vm_compute. reflexivity.
  - vm_compute. reflexivity.
  - vm_compute. split; [reflexivity|discriminate].
  - vm_compute. reflexivity.
  - vm_compute. reflexivity.
  - vm_compute. reflexivity.
Defined.

(** ** Continuation fragments and the frame id *)

(** A continuation whose 32-bit id differs from the stored id is dropped. *)
Lemma continuation_other_id_dropped (lockOk : bool) (now : Z)
    (packetData : list byte) (s : System) :
  le16 packetData 6 <> 0 ->
  le32 packetData 0 <> frameId (currentFrame (fp s)) ->
  processPacket lockOk now packetData s = (s, false).
Proof.
  intros Hidx Hid. unfold processPacket.
  destruct (_ <? 12); [reflexivity|].
  destruct (_ || _ || _ || _); [reflexivity|].
  destruct lockOk; [|reflexivity]. cbn [negb].
  apply Z.eqb_neq in Hidx, Hid. rewrite Hidx, Hid. reflexivity.
Qed.

(** Whatever the state, once a frame was started under a wire id of 65536 or
    more, no continuation carrying that id is accepted. *)
Lemma continuation_wide_id_never_accepted (lockOk : bool) (now : Z)
    (packetData : list byte) (s : System) :
  65536 <= le32 packetData 0 ->
  frameId (currentFrame (fp s)) = u16 (le32 packetData 0) ->
  le16 packetData 6 <> 0 ->
  processPacket lockOk now packetData s = (s, false).
Proof.
  intros Hwide Hstored Hidx. apply continuation_other_id_dropped; [assumption|].
  rewrite Hstored. unfold u16.
  pose proof (Z.mod_pos_bound (le32 packetData 0) 65536). lia.
Qed.

(** With a wire id below 65536 the continuation is accepted as specified. *)
Lemma continuation_narrow_id_accepted (now : Z) (packetData : list byte)
    (s : System) :
  let cur := currentFrame (fp s) in
  le32 packetData 0 < 65536 ->
  frameId cur = u16 (le32 packetData 0) ->
  0 < receivedPackets cur ->
  12 <= Z.of_nat (length packetData) ->
  le32 packetData 8 = u32 (Z.of_nat (length packetData) - 12) ->
  0 < le16 packetData 6 < le16 packetData 4 ->
  le16 packetData 4 <= Config.MAX_PACKETS ->
  received_at (packetReceived (fp s)) (le16 packetData 6) = false ->
  0 <= totalSize cur ->
  totalSize cur + le32 packetData 8 <= Config.MAX_FRAME_SIZE ->
  processPacket true now packetData s = (continuedBy packetData s, true).
Proof.
  cbv zeta. intros Hnarrow Hstored Hrecv Hlen Hsize Hidx Hmax Hbit Hnonneg Hfit.
  pose proof (le32_range packetData 0) as Hid.
  pose proof (le32_range packetData 8) as Hps.
  unfold processPacket, continuedBy.
  assert (E1 : (Z.of_nat (length packetData) <? 12) = false)
    by (apply Z.ltb_ge; lia).
  rewrite E1, <- Hsize, Z.eqb_refl.
  assert (E2 : (le16 packetData 6 >=? le16 packetData 4) = false)
    by (rewrite Z.geb_leb; apply Z.leb_gt; lia).
  assert (E3 : (le16 packetData 4 =? 0) = false) by (apply Z.eqb_neq; lia).
  assert (E4 : (le16 packetData 4 >? Config.MAX_PACKETS) = false)
    by (rewrite Z.gtb_ltb; apply Z.ltb_ge; lia).
  assert (E5 : (le16 packetData 6 =? 0) = false) by (apply Z.eqb_neq; lia).
  rewrite E2, E3, E4, E5. cbn [negb orb].
  assert (E6 : (le32 packetData 0 =? frameId (currentFrame (fp s))) = true).
  { apply Z.eqb_eq. rewrite Hstored. unfold u16. rewrite Z.mod_small; lia. }
  assert (E7 : (receivedPackets (currentFrame (fp s)) >? 0) = true)
    by (apply Z.gtb_lt; lia).
  rewrite E6, E7, Hbit. cbn [negb andb].
  assert (E8 : u32 (totalSize (currentFrame (fp s)) + le32 packetData 8)
               = totalSize (currentFrame (fp s)) + le32 packetData 8).
  { unfold u32. apply Z.mod_small. unfold Config.MAX_FRAME_SIZE in Hfit. lia. }
  rewrite E8.
  assert (E9 : (totalSize (currentFrame (fp s)) + le32 packetData 8
                <=? Config.MAX_FRAME_SIZE) = true) by (apply Z.leb_le; lia).
  rewrite E9. reflexivity.
Qed.

(** C4 (defect). The wire [frameId] is 32 bits wide but the descriptor keeps
    it in a [uint16_t].  For frame id 65536 the stored id is 0, the
    continuation's id 65536 does not compare equal, and the fragment is
    dropped: failure, nothing appended, [receivedPackets] still 1. *)
Theorem continuation_wide_frameId_rejected :
  let p0 := datagram 65536 2 0 [xff; xd8] in
  let p1 := datagram 65536 2 1 [xff; xd9] in
  let s := fst (processPacket true 0 p0 initialSystem) in
  (le32 p0 0 = 65536 /\ le32 p1 0 = 65536 /\
   frameId (currentFrame (fp s)) = 0 /\
   receivedPackets (currentFrame (fp s)) = 1 /\
   received_at (packetReceived (fp s)) (le16 p1 6) = false /\
   totalSize (currentFrame (fp s)) + le32 p1 8 = 4) /\
  processPacket true 1 p1 s = (s, false).
Proof.
  intros p0 p1 s. split.
  - vm_compute. repeat split; reflexivity.
  - apply continuation_other_id_dropped; vm_compute; discriminate.
Qed.

(** ** Bounds of the descriptor *)

(** C1 (defect). The bounds on the descriptor are not invariant.  The header
    check of [processPacket] compares a continuation's index with the
    [totalPackets] field of that same datagram, not with the frame's, so a
    two-fragment frame accepts fragments 1 and 2 of a datagram sequence that
    declares three: [receivedPackets] is 3 with [totalPackets] 2.  Likewise a
    fragment 0 larger than [MAX_FRAME_SIZE] has its size stored before the
    size test. *)
Theorem descriptor_bounds_violated :
  let p0 := datagram 1 2 0 [xff; xd8] in
  let p1 := datagram 1 3 1 [x00; x00] in
  let p2 := datagram 1 3 2 [xff; xd9] in
  let s := run [OpPacket true 0 p0; OpPacket true 1 p1; OpPacket true 2 p2]
               initialSystem in
  let big := datagram 1 2 0 ([xff; xd8] ++ replicate (Z.to_nat 35000) x00) in
  let t := run [OpPacket true 0 big] initialSystem in
  (receivedPackets (currentFrame (fp s)) = 3 /\
   totalPackets (currentFrame (fp s)) = 2) /\
  (totalSize (currentFrame (fp t)) = 35002 /\ Config.MAX_FRAME_SIZE = 35000).
Proof. vm_compute. repeat split; reflexivity. Qed.

(** ** The tracked-frame invariant *)

Lemma trackedFrame_initial : trackedFrame initialSystem.
Proof.
  unfold trackedFrame, initialSystem.
  cbn [fp currentFrame packetReceived reset totalPackets totalSize
       receivedPackets isComplete].
  unfold Config.MAX_PACKETS, Config.MAX_FRAME_SIZE.
  rewrite length_replicate.
  repeat split; try lia; try (left; reflexivity).
Qed.

Lemma trackedFrame_received_le (s : System) :
  trackedFrame s ->
  0 <= receivedPackets (currentFrame (fp s)) <= totalPackets (currentFrame (fp s)).
Proof.
  intros (Hlen & Htotal & _ & [Hzero|(Hpos & Hcount & _)] & _); [lia|].
  pose proof (countSet_bounds
                (take (Z.to_nat (totalPackets (currentFrame (fp s))))
                      (packetReceived (fp s)))) as Hb.
  rewrite length_take in Hb. lia.
Qed.

Lemma trackedFrame_started (now : Z) (packetData : list byte) (s : System) :
  0 < le16 packetData 4 <= Config.MAX_PACKETS ->
  le32 packetData 8 <= Config.MAX_FRAME_SIZE ->
  trackedFrame (startedBy now packetData s).
Proof.
  intros Htotal Hfit. unfold trackedFrame, startedBy.
  cbn [fp currentFrame packetReceived totalPackets totalSize receivedPackets
       isComplete].
  pose proof (le32_range packetData 8).
  rewrite length_insert, length_replicate.
  split; [reflexivity|]. split; [lia|]. split; [lia|]. split; [|split].
  - right. split; [lia|]. split.
    + symmetry. apply countSet_fresh. lia.
    + intros i Hi. apply received_at_fresh. lia.
  - intros H1. apply Z.eqb_eq in H1. lia.
  - intros [H1 _]. apply Z.eqb_eq. lia.
Qed.

Lemma trackedFrame_continued (packetData : list byte) (s : System) :
  trackedFrame s ->
  0 < le16 packetData 6 < totalPackets (currentFrame (fp s)) ->
  0 < receivedPackets (currentFrame (fp s)) ->
  received_at (packetReceived (fp s)) (le16 packetData 6) = false ->
  u32 (totalSize (currentFrame (fp s)) + le32 packetData 8)
    <= Config.MAX_FRAME_SIZE ->
  trackedFrame (continuedBy packetData s).
Proof.
  intros Hinv Hidx Hrecv Hbit Hfit.
  pose proof (trackedFrame_received_le s Hinv) as Hle.
  destruct Hinv as (Hlen & Htotal & Hsize & Hcount & Hcomplete).
  destruct Hcount as [Hzero|(Hpos & Hcount & Hrest)]; [lia|].
  set (cur := currentFrame (fp s)) in *.
  set (tracking := packetReceived (fp s)) in *.
  set (idx := le16 packetData 6) in *.
  assert (Hlookup : take (Z.to_nat (totalPackets cur)) tracking !! Z.to_nat idx
                    = Some false).
  { rewrite lookup_take_lt by lia. rewrite <- Hbit.
    apply received_at_lookup. unfold Config.MAX_PACKETS in *. lia. }
  assert (Hroom : receivedPackets cur < totalPackets cur).
  { apply countSet_unset in Hlookup. rewrite length_take in Hlookup. lia. }
  assert (Hnext : u16 (receivedPackets cur + 1) = receivedPackets cur + 1).
  { unfold u16. apply Z.mod_small. unfold Config.MAX_PACKETS in *. lia. }
  unfold trackedFrame, continuedBy. fold cur tracking idx.
  cbn [fp currentFrame packetReceived totalPackets totalSize receivedPackets
       isComplete].
  rewrite Hnext, length_insert.
  split; [assumption|]. split; [lia|]. split; [|split; [|split]].
  - split; [|assumption]. unfold u32. apply Z.mod_pos_bound. lia.
  - right. split; [lia|]. split.
    + rewrite take_insert_lt by lia.
      rewrite (countSet_mark _ _ Hlookup). lia.
    + intros i Hi. rewrite received_at_mark_other by lia. now apply Hrest.
  - destruct (receivedPackets cur + 1 =? totalPackets cur) eqn:E.
    + intros _. apply Z.eqb_eq in E. split; assumption.
    + intros Hc. apply Hcomplete in Hc. lia.
  - intros [Heq _]. apply Z.eqb_eq in Heq. now rewrite Heq.
Qed.

(** One conforming call keeps the invariant. *)
Lemma trackedFrame_step (s : System) (o : Op) :
  trackedFrame s -> conformingb s o = true -> trackedFrame (step s o).
Proof.
  intros Hinv Hconf. destruct o as [lockOk now packetData| |lockOk now|].
  - cbn [step conformingb] in *.
    destruct (processPacket_cases lockOk now packetData s)
      as [E|[(Hidx & Htotal & Hfit & E)|[(Hidx & Htotal & Hbig & E)|
          (Hidx & Htotal & Hid & Hrecv & Hbit & Hfit & E)]]];
      rewrite E; cbn [fst].
    + assumption.
    + now apply trackedFrame_started.
    + rewrite Hidx in Hconf. change (0 =? 0) with true in Hconf. cbv iota in Hconf.
      apply Z.leb_le in Hconf. lia.
    + assert (Hne : (le16 packetData 6 =? 0) = false) by (apply Z.eqb_neq; lia).
      rewrite Hne in Hconf. apply Z.eqb_eq in Hconf.
      apply trackedFrame_continued; try assumption. lia.
  - cbn [step]. unfold assembleCompleteFrame.
    destruct (negb _); [assumption|].
    destruct (negb _); [assumption|]. exact Hinv.
  - cbn [step]. unfold handleFrameTimeout.
    destruct (_ && _); [|assumption]. destruct lockOk; [|assumption].
    destruct Hinv as (Hlen & Htotal & Hsize & _ & _).
    unfold trackedFrame.
    cbn [fp currentFrame packetReceived totalPackets totalSize receivedPackets
         isComplete].
    repeat split; try assumption; try lia; try (left; reflexivity).
  - cbn [step]. unfold resetCurrentFrame.
    destruct Hinv as (Hlen & Htotal & Hsize & _ & _).
    unfold trackedFrame.
    cbn [fp currentFrame packetReceived totalPackets totalSize receivedPackets
         isComplete].
    repeat split; try assumption; try lia; try (left; reflexivity).
Qed.

Lemma trackedFrame_run (ops : list Op) : forall s,
  trackedFrame s -> conformingRun ops s = true -> trackedFrame (run ops s).
Proof.
  induction ops as [|o ops IH]; intros s Hinv Hconf; [assumption|].
  cbn [conformingRun] in Hconf. apply andb_true_iff in Hconf as [Ho Hrest].
  unfold run. cbn [foldl]. apply IH; [now apply trackedFrame_step|assumption].
Qed.

(** With conforming senders the bounds of the descriptor hold in every
    state reached from the initial one. *)
Lemma conforming_run_bounds (ops : list Op) :
  conformingRun ops initialSystem = true ->
  let cur := currentFrame (fp (run ops initialSystem)) in
  receivedPackets cur <= totalPackets cur /\
  totalPackets cur <= Config.MAX_PACKETS /\
  totalSize cur <= Config.MAX_FRAME_SIZE.
Proof.
  intros Hconf. pose proof (trackedFrame_run ops _ trackedFrame_initial Hconf) as Hinv.
  pose proof (trackedFrame_received_le _ Hinv).
  destruct Hinv as (_ & Htotal & Hsize & _). cbv zeta. lia.
Qed.

(** ** Completion and validity *)



(** [isValid] rises only in [assembleCompleteFrame], after the structural
    check accepted the assembly buffer. *)
Lemma isValid_rises (s : System) (o : Op) :
  isValid (currentFrame (fp s)) = false ->
  isValid (currentFrame (fp (step s o))) = true ->
  o = OpAssemble /\
  validateCompleteJPEG (assemblyBuffer (fp s))
                       (totalSize (currentFrame (fp s))) = true.
Proof.
  intros Hbefore Hafter. destruct o as [lockOk now packetData| |lockOk now|].
  - cbn [step] in *.
    destruct (processPacket_cases lockOk now packetData s)
      as [E|[(_ & _ & _ & E)|[(_ & _ & _ & E)|(_ & _ & _ & _ & _ & _ & E)]]];
      rewrite E in *; cbn [fst snd] in *.
    + congruence.
    + unfold startedBy in Hafter. cbn [fp currentFrame isValid] in Hafter.
      discriminate.
    + unfold startedOversized in Hafter.
      cbn [fp currentFrame isValid] in Hafter. discriminate.
    + unfold continuedBy in Hafter. cbn [fp currentFrame isValid] in Hafter.
      congruence.
  - split; [reflexivity|].
    cbn [step] in Hafter. unfold assembleCompleteFrame in Hafter.
    destruct (negb (allReceived _ _ _)) in Hafter;
      [cbn [fst] in Hafter; congruence|].
    destruct (validateCompleteJPEG _ _); [reflexivity|].
    cbn [negb fst fp currentFrame isValid] in Hafter. congruence.
  - cbn [step] in Hafter. unfold handleFrameTimeout in Hafter.
    destruct (_ && _) in Hafter; [|congruence].
    destruct lockOk; [|congruence].
    cbn [fp currentFrame isValid] in Hafter. congruence.
  - cbn [step] in Hafter. unfold resetCurrentFrame in Hafter.
    cbn [fp currentFrame isValid] in Hafter. discriminate.
Qed.




(** ** Assembly *)

Lemma allReceived_false tracking n : forall i,
  allReceived tracking i n = false <->
  exists j, i <= j < i + Z.of_nat n /\ received_at tracking j = false.
Proof.
  induction n as [|n IH]; intros i; cbn [allReceived].
  - split; [discriminate|]. intros (j & Hj & _). lia.
  - destruct (received_at tracking i) eqn:E; cbn [negb].
    + rewrite IH. split; intros (j & Hj & Hb).
      * exists j. split; [lia|assumption].
      * destruct (Z.eq_dec j i) as [->|Hne]; [congruence|].
        exists j. split; [lia|assumption].
    + split; [intros _|reflexivity]. exists i. split; [lia|assumption].
Qed.

(** C5 (as amended). Every failure of [assembleCompleteFrame] is one of the
    two named ones and leaves the render buffer [frameBuffer] as it was.  A
    rejection by [validateCompleteJPEG] adds exactly one (modulo 2^32) to the
    corrupt-frame counter and changes no other counter; a missing fragment
    changes no counter at all. *)
Theorem assembleCompleteFrame_failure (s : System) :
  snd (assembleCompleteFrame s) = false ->
  let s' := fst (assembleCompleteFrame s) in
  frameBuffer (fp s') = frameBuffer (fp s) /\
  fp s' = fp s /\
  ((missingFragment s /\ pm s' = pm s) \/
   (~ missingFragment s /\
    validateCompleteJPEG (assemblyBuffer (fp s))
                         (totalSize (currentFrame (fp s))) = false /\
    pm s' = incrementCorruptFrames (pm s) /\
    corruptFramesDiscarded (pm s') = u32 (corruptFramesDiscarded (pm s) + 1))).
Proof.
  unfold assembleCompleteFrame, missingFragment.
  destruct (allReceived _ 0 _) eqn:Hall; cbn [negb].
  - assert (Hnone : ~ exists j, 0 <= j < totalPackets (currentFrame (fp s)) /\
                        received_at (packetReceived (fp s)) j = false).
    { intros (j & Hj & Hb).
      assert (allReceived (packetReceived (fp s)) 0
                (Z.to_nat (totalPackets (currentFrame (fp s)))) = false)
        as Hf by (apply allReceived_false; exists j; split; [lia|assumption]).
      congruence. }
    destruct (validateCompleteJPEG _ _) eqn:Hv; cbn [negb snd fst].
    + discriminate.
    + intros _. cbn. repeat split; try reflexivity. right. repeat split; auto.
  - cbn [snd fst]. intros _. repeat split; try reflexivity. left. split; [|reflexivity].
    apply allReceived_false in Hall as (j & Hj & Hb). exists j. split; [lia|assumption].
Qed.

(** Scenario E: a complete single-fragment frame without [FF D9] in its last
    20 bytes. *)
Lemma assembleCompleteFrame_failure_witness :
  let p := datagram 9 1 0 ([xff; xd8] ++ replicate 30 x00) in
  let s := run [OpPacket true 0 p] initialSystem in
  snd (assembleCompleteFrame s) = false /\
  frameBuffer (fp (fst (assembleCompleteFrame s))) = frameBuffer (fp s) /\
  corruptFramesDiscarded (pm (fst (assembleCompleteFrame s))) = 1.
Proof.
  intros p s.
  assert (Hf : snd (assembleCompleteFrame s) = false) by (vm_compute; reflexivity).
  destruct (assembleCompleteFrame_failure s Hf) as (Hbuf & _ & Hcase).
  split; [exact Hf|]. split; [exact Hbuf|].
  vm_compute. reflexivity.
Defined.

(** Scenario A: a single-fragment frame [FF D8 .. FF D9] is complete at once
    and assembles. *)
Example scenario_A :
  let p := datagram 7 1 0 ([xff; xd8] ++ replicate 20 x00 ++ [xff; xd9]) in
  let r1 := processPacket true 0 p initialSystem in
  let r2 := assembleCompleteFrame (fst r1) in
  snd r1 = true /\ isComplete (currentFrame (fp (fst r1))) = true /\
  snd r2 = true /\ isValid (currentFrame (fp (fst r2))) = true /\
  take 24 (frameBuffer (fp (fst r2)))
    = [xff; xd8] ++ replicate 20 x00 ++ [xff; xd9].
Proof. vm_compute. repeat split; reflexivity. Qed.

(** Scenario B: a three-fragment frame delivered in order is complete after
    fragment 2, assembles, and is counted once as completed. *)
Example scenario_B :
  let p0 := datagram 8 3 0 [xff; xd8; x01] in
  let p1 := datagram 8 3 1 (replicate 30 x02) in
  let p2 := datagram 8 3 2 [x03; xff; xd9] in
  let s2 := run [OpPacket true 0 p0; OpPacket true 1 p1] initialSystem in
  let s3 := run [OpPacket true 2 p2] s2 in
  let r := assembleCompleteFrame s3 in
  isComplete (currentFrame (fp s2)) = false /\
  isComplete (currentFrame (fp s3)) = true /\
  snd r = true /\
  completeFramesReceived (pm s3) = 0 /\
  completeFramesReceived (pm (fst r)) = 1.
Proof. vm_compute. repeat split; reflexivity. Qed.

(** C5 as stated fails on the missing-fragment path.  A frame declared with
    two fragments that received fragment 0 and a fragment of index 2 is
    marked complete with the bit of index 1 unset; [assembleCompleteFrame]
    fails and the corrupt-frame counter is not incremented. *)
Lemma assemble_missing_fragment_not_counted :
  let p0 := datagram 1 2 0 [xff; xd8] in
  let p2 := datagram 1 3 2 [xff; xd9] in
  let s := run [OpPacket true 0 p0; OpPacket true 1 p2] initialSystem in
  isComplete (currentFrame (fp s)) = true /\
  received_at (packetReceived (fp s)) 1 = false /\
  snd (assembleCompleteFrame s) = false /\
  corruptFramesDiscarded (pm s) = 0 /\
  corruptFramesDiscarded (pm (fst (assembleCompleteFrame s))) = 0.
Proof. vm_compute. repeat split; reflexivity. Qed.

(** ** Timeout *)

(** C7 (as amended). [handleFrameTimeout] clears [receivedPackets] and
    [isComplete] and adds one to the incomplete-frame counter when, and only
    when, a frame is in flight ([receivedPackets > 0]), the 32-bit elapsed
    time [millis() - startTime] exceeds [FRAME_TIMEOUT] and the frame lock is
    acquired, whether or not the frame is complete; in every other case
    the descriptor and the counters are unchanged. *)
Theorem handleFrameTimeout_spec (lockOk : bool) (now : Z) (s : System) :
  let cur := currentFrame (fp s) in
  let due := receivedPackets cur > 0 /\
             u32 (now - startTime cur) > Config.FRAME_TIMEOUT /\
             lockOk = true in
  (due -> handleFrameTimeout lockOk now s = abortedBy s) /\
  (~ due -> handleFrameTimeout lockOk now s = s).
Proof.
  cbv zeta. unfold handleFrameTimeout, abortedBy, incrementIncompleteFrames.
  split.
  - intros (Hrecv & Hlate & ->).
    apply Z.gt_lt, Z.gtb_lt in Hrecv. apply Z.gt_lt, Z.gtb_lt in Hlate.
    rewrite Hrecv, Hlate. reflexivity.
  - intros Hnot.
    destruct (receivedPackets _ >? 0) eqn:Hrecv; [|reflexivity].
    destruct (u32 _ >? Config.FRAME_TIMEOUT) eqn:Hlate; [|reflexivity].
    destruct lockOk; [|reflexivity].
    exfalso. apply Hnot. apply Z.gtb_lt in Hrecv, Hlate. repeat split; lia.
Qed.

(** C7 as stated fails for a complete frame: a single-fragment frame, complete
    since time 0, is aborted at time 151 and counted as incomplete. *)
Lemma timeout_aborts_complete_frame :
  let p := datagram 3 1 0 [xff; xd8] in
  let s := run [OpPacket true 0 p] initialSystem in
  let s' := handleFrameTimeout true 151 s in
  isComplete (currentFrame (fp s)) = true /\
  receivedPackets (currentFrame (fp s)) = 1 /\
  isComplete (currentFrame (fp s')) = false /\
  receivedPackets (currentFrame (fp s')) = 0 /\
  incompleteFramesDiscarded (pm s) = 0 /\
  incompleteFramesDiscarded (pm s') = 1.
Proof. vm_compute. repeat split; reflexivity. Qed.

(** Scenario D: five fragments declared, three received, the timeout elapses. *)
Lemma handleFrameTimeout_spec_witness :
  let p0 := datagram 2 5 0 [xff; xd8] in
  let p1 := datagram 2 5 1 [x00] in
  let p2 := datagram 2 5 2 [x00] in
  let s := run [OpPacket true 0 p0; OpPacket true 1 p1; OpPacket true 2 p2]
               initialSystem in
  let s' := handleFrameTimeout true 151 s in
  receivedPackets (currentFrame (fp s)) = 3 /\
  receivedPackets (currentFrame (fp s')) = 0 /\
  isComplete (currentFrame (fp s')) = false /\
  incompleteFramesDiscarded (pm s') = 1.
Proof.
  intros p0 p1 p2 s s'. subst s'.
  destruct (handleFrameTimeout_spec true 151 s) as [Hdue _].
  rewrite Hdue.
  - vm_compute. repeat split; reflexivity.
  - vm_compute. repeat split; reflexivity.
Defined.

(** ** Adaptive pacing *)

(** The two thresholds are the floats 66 and 54, that is [TARGET_FPS] plus
    and minus exactly ten percent. *)
Lemma pacing_thresholds :
  Pacing.f32_mul (Pacing.f32_of_Z Config.TARGET_FPS) Pacing.lit_1_1
    = Pacing.f32_of_Z 66 /\
  Pacing.f32_mul (Pacing.f32_of_Z Config.TARGET_FPS) Pacing.lit_0_9
    = Pacing.f32_of_Z 54.
Proof. vm_compute. split; reflexivity. Qed.

(** For every elapsed time up to 4095 ms the float comparisons decide the
    exact margins: [30000 / (elapsed + 1)] is above 66 or below 54 as a
    rational number. *)
Lemma pacing_comparisons_exact :
  forallb (fun n =>
             let elapsed := Z.of_nat n in
             let avg := Pacing.avgFPS elapsed 0 in
             Bool.eqb (Pacing.aboveTarget avg) (66 * (elapsed + 1) <? 30000)
             && Bool.eqb (Pacing.belowTarget avg) (30000 <? 54 * (elapsed + 1)))
          (seq 0 4096) = true.
Proof. vm_compute. reflexivity. Qed.

(** No measurement is above the upper and below the lower threshold. *)
Lemma pacing_margins_exclusive (avg : spec_float) :
  Pacing.aboveTarget avg = true -> Pacing.belowTarget avg = false.
Proof.
  unfold Pacing.aboveTarget, Pacing.belowTarget.
  destruct pacing_thresholds as [-> ->].
  change (Pacing.f32_of_Z 66) with (S754_finite false 8650752 (-17)).
  change (Pacing.f32_of_Z 54) with (S754_finite false 14155776 (-18)).
  destruct avg as [s|s| |s m e]; try (destruct s); try reflexivity;
    try discriminate.
  unfold SFltb, SFcompare.
  destruct (Z.compare_spec (-17) e); destruct (Z.compare_spec e (-18));
    try lia; try discriminate; reflexivity.
Qed.

(** One evaluation of the block while [frameCount] is a positive multiple
    of 30, in terms of its two comparisons: the first gives
    [min (interval + 1) MIN_RENDER_INTERVAL], the second
    [max (interval - 1) FAST_RENDER_INTERVAL], neither leaves the interval
    as it is. *)
Lemma adaptInterval_step (frameCount currentTime lastRenderTime interval : Z) :
  frameCount > 0 -> frameCount mod 30 = 0 ->
  0 < interval < 4294967295 ->
  let avg := Pacing.avgFPS currentTime lastRenderTime in
  let next := Pacing.adaptInterval frameCount currentTime lastRenderTime
                                   interval in
  (Pacing.aboveTarget avg = true ->
     next = Z.min (interval + 1) Config.MIN_RENDER_INTERVAL) /\
  (Pacing.belowTarget avg = true ->
     next = Z.max (interval - 1) Config.FAST_RENDER_INTERVAL) /\
  (Pacing.aboveTarget avg = false -> Pacing.belowTarget avg = false ->
     next = interval).
Proof.
  intros Hpos Hmod Hrange avg next. subst next. unfold Pacing.adaptInterval.
  fold avg.
  assert (Hgate : (frameCount mod 30 =? 0) && (frameCount >? 0) = true).
  { apply andb_true_iff. split; [apply Z.eqb_eq; assumption|].
    apply Z.gtb_lt. lia. }
  rewrite Hgate. unfold u32. rewrite !Z.mod_small by lia.
  repeat split.
  - intros ->. reflexivity.
  - intros Hlow. destruct (Pacing.aboveTarget avg) eqn:Hhigh.
    + apply pacing_margins_exclusive in Hhigh. congruence.
    + rewrite Hlow. reflexivity.
  - intros -> ->. reflexivity.
Qed.

(** Scenario F: an evaluation 415 ms after the last render computes about
    72 frames per second, 20% above target; an interval of 12 ms becomes 13. *)
Lemma adaptInterval_step_witness :
  Pacing.aboveTarget (Pacing.avgFPS 415 0) = true /\
  Pacing.adaptInterval 30 415 0 12 = 13.
Proof.
  split; [vm_compute; reflexivity|].
  destruct (adaptInterval_step 30 415 0 12) as (Hup & _); try lia.
  - reflexivity.
  - apply Hup. vm_compute. reflexivity.
Defined.

(** The same measurement at the slowest interval stays clamped at it. *)
Example scenario_F_clamped :
  Pacing.adaptInterval 30 415 0 Config.MIN_RENDER_INTERVAL
    = Config.MIN_RENDER_INTERVAL.
Proof. vm_compute. reflexivity. Qed.

(** C8. The pacing step is not taken once per sampling point.  The block
    sits outside the render branch and tests only [frameCount], so it is
    evaluated in every loop iteration until the next frame is rendered, each
    time on [30000 / (time since the last render + 1)].  After thirty frames
    rendered 16 ms apart (62.5 frames per second, within 10% of the target)
    [frameCount] is 30, [lastRenderTime] 480 and the interval 16; the sender
    pauses, and with no frame rendered since, the idle iterations at 1040,
    1048, 1056 and 1064 ms lower the interval by one each, to 12, and the
    following four to 8: the whole range within one sampling point. *)
Theorem adaptive_step_repeats_within_sampling_point :
  pacingAfter 0 = (30, 480, 16) /\
  pacingAfter 69 = (30, 480, 16) /\
  pacingAfter 70 = (30, 480, 15) /\
  pacingAfter 71 = (30, 480, 14) /\
  pacingAfter 72 = (30, 480, 13) /\
  pacingAfter 73 = (30, 480, 12) /\
  pacingAfter 77 = (30, 480, 8) /\
  completeFramesRendered
    (pm (snd (Tasks.systemRun (thirtyFrames ++ idleIterations)))) = 30.
Proof. vm_compute. repeat split; reflexivity. Qed.

(** Away from a sampling point the interval is not touched, and from the
    initial value [MIN_RENDER_INTERVAL] it never leaves the configured
    range. *)
Lemma adaptInterval_off_sample frameCount currentTime lastRenderTime interval :
  frameCount <= 0 \/ frameCount mod 30 <> 0 ->
  Pacing.adaptInterval frameCount currentTime lastRenderTime interval = interval.
Proof.
  intros H. unfold Pacing.adaptInterval.
  destruct (frameCount mod 30 =? 0) eqn:E1; [|reflexivity].
  destruct (frameCount >? 0) eqn:E2; [|reflexivity].
  apply Z.eqb_eq in E1. apply Z.gtb_lt in E2. lia.
Qed.

Lemma adaptInterval_in_range frameCount currentTime lastRenderTime interval :
  Config.FAST_RENDER_INTERVAL <= interval <= Config.MIN_RENDER_INTERVAL ->
  Config.FAST_RENDER_INTERVAL
    <= Pacing.adaptInterval frameCount currentTime lastRenderTime interval
    <= Config.MIN_RENDER_INTERVAL.
Proof.
  unfold Config.FAST_RENDER_INTERVAL, Config.MIN_RENDER_INTERVAL.
  intros H. unfold Pacing.adaptInterval.
  destruct (_ && _); [|lia].
  unfold u32, Config.FAST_RENDER_INTERVAL, Config.MIN_RENDER_INTERVAL.
  rewrite !Z.mod_small by lia.
  destruct (Pacing.aboveTarget _); [lia|].
  destruct (Pacing.belowTarget _); lia.
Qed.

(** ** Tile callback *)

Section TileRows.
Import Display.

Variables (x y w : Z) (bitmap : list Z).
Hypothesis Hx : 0 <= x.
Hypothesis Hy : 0 <= y.
Hypothesis Hw : 0 <= w.
Hypothesis Hfit : x + w <= Config.DISPLAY_WIDTH.

Local Abbreviation pixelIndex := (Display.pixelIndex x y).


Lemma copyRows_length n : forall row buffer,
  length (copyRows x y w bitmap row n buffer) = length buffer.
Proof.
  induction n as [|n IH]; intros row buffer; cbn [copyRows]; [reflexivity|].
  rewrite IH. destruct (_ <=? _); [apply length_inserts|reflexivity].
Qed.



End TileRows.




(** A tile clipped in width is read with the clipped width as row stride: of
    a 4x2 tile [0 .. 7] at column 478, the second buffer row receives pixels
    2 and 3 (the end of the tile's first row) and not 4 and 5. *)
Example clipped_width_row_stride :
  let dm := Display.mkDM (Some (replicate (Z.to_nat 153600) 0)) [] 0 0 in
  let r := Display.highSpeedTftOutput 478 0 4 2 (Some [0; 1; 2; 3; 4; 5; 6; 7]) dm in
  match Display.displayBuffer (fst r) with
  | Some buffer' =>
      (buffer' !! Display.pixelIndex 478 0 1 0,
       buffer' !! Display.pixelIndex 478 0 1 1) = (Some 2, Some 3)
  | None => False
  end.
Proof. vm_compute. reflexivity. Qed.

(** * Further properties of the sources *)

(** ** Copies into a fixed buffer *)

Lemma list_inserts_splice {A} (l k : list A) (i : nat) :
  (i + length k <= length l)%nat ->
  list_inserts i k l = take i l ++ k ++ drop (i + length k) l.
Proof.
  intros Hfit. apply list_eq. intros j.
  destruct (decide (j < i)%nat) as [Hlt|Hge].
  - rewrite list_lookup_inserts_lt by lia.
    rewrite lookup_app_l by (rewrite length_take; lia).
    now rewrite lookup_take_lt by lia.
  - rewrite lookup_app_r by (rewrite length_take; lia).
    rewrite length_take, Nat.min_l by lia.
    destruct (decide (j < i + length k)%nat) as [Hin|Hpast].
    + rewrite list_lookup_inserts by lia.
      now rewrite lookup_app_l by lia.
    + rewrite list_lookup_inserts_ge by lia.
      rewrite lookup_app_r by lia. rewrite lookup_drop. f_equal. lia.
Qed.

Lemma memcpy_splice (dst src : list byte) (off n : Z) :
  0 <= off -> 0 <= n -> n <= Z.of_nat (length src) ->
  off + n <= Z.of_nat (length dst) ->
  memcpy dst off src n
    = take (Z.to_nat off) dst ++ take (Z.to_nat n) src
      ++ drop (Z.to_nat (off + n)) dst.
Proof.
  intros Hoff Hn Hsrc Hdst. unfold memcpy.
  assert (Hlen : length (take (Z.to_nat n) src) = Z.to_nat n)
    by (rewrite length_take; lia).
  rewrite list_inserts_splice by lia. rewrite Hlen.
  do 3 f_equal. lia.
Qed.

Lemma memcpy_length (dst src : list byte) (off n : Z) :
  length (memcpy dst off src n) = length dst.
Proof. apply length_inserts. Qed.

(** ** What [processPacket] accepts *)

(** An accepted datagram had the lock, a full header and the payload length
    it declares. *)
Lemma processPacket_accepted (lockOk : bool) (now : Z) (packetData : list byte)
    (s : System) :
  snd (processPacket lockOk now packetData s) = true ->
  lockOk = true /\ 12 <= Z.of_nat (length packetData) /\
  le32 packetData 8 = u32 (Z.of_nat (length packetData) - 12).
Proof.
  unfold processPacket.
  destruct (_ <? 12) eqn:E1; [discriminate|].
  destruct (le32 packetData 8 =? _) eqn:E2; cbn [negb orb]; [|discriminate].
  destruct (_ || _ || _); [discriminate|].
  destruct lockOk; [|discriminate]. intros _.
  apply Z.ltb_ge in E1. apply Z.eqb_eq in E2. auto.
Qed.

(** A well-formed first fragment that fits the assembly buffer starts a
    frame. *)
Lemma first_fragment_accepted (now : Z) (packetData : list byte) (s : System) :
  12 <= Z.of_nat (length packetData) ->
  le32 packetData 8 = u32 (Z.of_nat (length packetData) - 12) ->
  le16 packetData 6 = 0 ->
  0 < le16 packetData 4 <= Config.MAX_PACKETS ->
  byte_at (drop 12 packetData) 0 = 255 ->
  byte_at (drop 12 packetData) 1 = 216 ->
  2 <= le32 packetData 8 <= Config.MAX_FRAME_SIZE ->
  processPacket true now packetData s = (startedBy now packetData s, true).
Proof.
  intros Hlen Hsize Hidx Htotal Hff Hd8 Hfit.
  unfold processPacket, startedBy.
  assert (E1 : (Z.of_nat (length packetData) <? 12) = false)
    by (apply Z.ltb_ge; lia).
  rewrite E1, Hidx, <- Hsize, Z.eqb_refl.
  assert (E2 : (0 >=? le16 packetData 4) = false)
    by (rewrite Z.geb_leb; apply Z.leb_gt; lia).
  assert (E3 : (le16 packetData 4 =? 0) = false) by (apply Z.eqb_neq; lia).
  assert (E4 : (le16 packetData 4 >? Config.MAX_PACKETS) = false)
    by (rewrite Z.gtb_ltb; apply Z.ltb_ge; lia).
  rewrite E2, E3, E4. cbn [negb orb].
  change (0 =? 0) with true. cbv iota.
  assert (E5 : (le32 packetData 8 <? 2) = false) by (apply Z.ltb_ge; lia).
  rewrite E5, Hff, Hd8. change (255 =? 255) with true.
  change (216 =? 216) with true. cbn [negb orb].
  assert (E6 : (le32 packetData 8 <=? Config.MAX_FRAME_SIZE) = true)
    by (apply Z.leb_le; lia).
  rewrite E6. destruct (le16 packetData 4 =? 1); reflexivity.
Qed.

(** Unless the datagram is dropped, the lock was taken and the header holds
    the length of the payload. *)
Lemma processPacket_header_checked (lockOk : bool) (now : Z)
    (packetData : list byte) (s : System) :
  processPacket lockOk now packetData s = (s, false) \/
  (lockOk = true /\ 12 <= Z.of_nat (length packetData) /\
   le32 packetData 8 = u32 (Z.of_nat (length packetData) - 12)).
Proof.
  unfold processPacket.
  destruct (_ <? 12) eqn:E1; [left; reflexivity|].
  destruct (le32 packetData 8 =? _) eqn:E2; cbn [negb orb];
    [|left; reflexivity].
  destruct (_ || _ || _); [left; reflexivity|].
  destruct lockOk; [|left; reflexivity].
  right. apply Z.ltb_ge in E1. apply Z.eqb_eq in E2. auto.
Qed.

(** X1. A datagram with a short or inconsistent header, or processed while
    the frame lock is busy, or a fragment 0 that does not start with
    [FF D8], is dropped: failure and no change of any state. *)
Theorem processPacket_drops_malformed (lockOk : bool) (now : Z)
    (packetData : list byte) (s : System) :
  let size := Z.of_nat (length packetData) in
  size < 12 \/
  le32 packetData 8 <> u32 (size - 12) \/
  le16 packetData 4 <= le16 packetData 6 \/
  Config.MAX_PACKETS < le16 packetData 4 \/
  lockOk = false \/
  (le16 packetData 6 = 0 /\
   (u32 (size - 12) < 2 \/ byte_at (drop 12 packetData) 0 <> 255 \/
    byte_at (drop 12 packetData) 1 <> 216)) ->
  processPacket lockOk now packetData s = (s, false).
Proof.
  cbv zeta. intros Hbad. unfold processPacket.
  destruct (_ <? 12) eqn:E1; [reflexivity|]. apply Z.ltb_ge in E1.
  destruct (le32 packetData 8 =? _) eqn:E2; cbn [negb orb]; [|reflexivity].
  apply Z.eqb_eq in E2.
  destruct (le16 packetData 6 >=? le16 packetData 4) eqn:E3; [reflexivity|].
  rewrite Z.geb_leb in E3. apply Z.leb_gt in E3.
  destruct (le16 packetData 4 =? 0) eqn:E4; [reflexivity|].
  destruct (le16 packetData 4 >? Config.MAX_PACKETS) eqn:E5; [reflexivity|].
  rewrite Z.gtb_ltb in E5. apply Z.ltb_ge in E5. cbn [orb].
  destruct lockOk; [|reflexivity]. cbn [negb].
  destruct Hbad as [H|[H|[H|[H|[H|(Hidx & H)]]]]]; try lia; try discriminate.
  rewrite Hidx. change (0 =? 0) with true. cbv iota.
  destruct (u32 _ <? 2) eqn:E6; [reflexivity|]. apply Z.ltb_ge in E6.
  destruct (byte_at _ 0 =? 255) eqn:E7; [|reflexivity].
  destruct (byte_at _ 1 =? 216) eqn:E8; [|reflexivity].
  apply Z.eqb_eq in E7, E8. destruct H as [H|[H|H]]; [lia|congruence|congruence].
Qed.

(** A 12-byte datagram that declares two payload bytes. *)
Lemma processPacket_drops_malformed_witness :
  processPacket true 0 (le_bytes 4 1 ++ le_bytes 2 1 ++ le_bytes 2 0
                        ++ le_bytes 4 2) initialSystem
    = (initialSystem, false).
Proof.
  apply processPacket_drops_malformed.
  right. left. vm_compute. discriminate.
Defined.

(** X2. [processPacket] never writes the render buffer and touches no
    counter but the started-frame counter, which it increments by one when,
    and only when, a fragment 0 got past the start-marker check. *)
Theorem processPacket_counters (lockOk : bool) (now : Z)
    (packetData : list byte) (s : System) :
  let s' := fst (processPacket lockOk now packetData s) in
  frameBuffer (fp s') = frameBuffer (fp s) /\
  completeFramesReceived (pm s') = completeFramesReceived (pm s) /\
  completeFramesRendered (pm s') = completeFramesRendered (pm s) /\
  incompleteFramesDiscarded (pm s') = incompleteFramesDiscarded (pm s) /\
  corruptFramesDiscarded (pm s') = corruptFramesDiscarded (pm s) /\
  memoryErrors (pm s') = memoryErrors (pm s) /\
  (totalFramesStarted (pm s') = totalFramesStarted (pm s) \/
   (le16 packetData 6 = 0 /\
    byte_at (drop 12 packetData) 0 = 255 /\
    byte_at (drop 12 packetData) 1 = 216 /\
    receivedPackets (currentFrame (fp s')) = 1 /\
    totalFramesStarted (pm s') = u32 (totalFramesStarted (pm s) + 1))).
Proof.
  cbv zeta. unfold processPacket.
  destruct (_ <? 12); [cbn; tauto|].
  destruct (_ || _ || _ || _); [cbn; tauto|].
  destruct lockOk; cbn [negb]; [|cbn; tauto].
  destruct (le16 packetData 6 =? 0) eqn:Eidx.
  - apply Z.eqb_eq in Eidx.
    destruct (_ <? 2); cbn [orb]; [cbn; tauto|].
    destruct (byte_at _ 0 =? 255) eqn:E0; cbn [negb orb]; [|cbn; tauto].
    destruct (byte_at _ 1 =? 216) eqn:E1; cbn [negb]; [|cbn; tauto].
    apply Z.eqb_eq in E0, E1.
    destruct (_ <=? Config.MAX_FRAME_SIZE).
    + destruct (le16 packetData 4 =? 1);
        cbn [fst fp pm frameBuffer currentFrame receivedPackets
             incrementFramesStarted totalFramesStarted completeFramesReceived
             completeFramesRendered incompleteFramesDiscarded
             corruptFramesDiscarded memoryErrors];
        repeat (split; [reflexivity|]); right; auto.
    + cbn [fst fp pm frameBuffer currentFrame receivedPackets
           incrementFramesStarted totalFramesStarted completeFramesReceived
           completeFramesRendered incompleteFramesDiscarded
           corruptFramesDiscarded memoryErrors].
      repeat (split; [reflexivity|]). right. auto.
  - destruct (_ && _); [|cbn; tauto].
    destruct (negb _); [|cbn; tauto].
    destruct (_ <=? Config.MAX_FRAME_SIZE); cbn; tauto.
Qed.

(** ** Where the payloads go *)

(** X3. An accepted first fragment lays its payload at the start of the
    assembly buffer, sets the descriptor to a one-fragment state of the new
    frame (complete at once when it declares a single fragment), leaves only
    bit 0 marked and counts a started frame. *)
Theorem first_fragment_stored (lockOk : bool) (now : Z) (packetData : list byte)
    (s s' : System) :
  processPacket lockOk now packetData s = (s', true) ->
  le16 packetData 6 = 0 ->
  Z.of_nat (length packetData) < 2147483648 ->
  length (assemblyBuffer (fp s)) = Z.to_nat Config.MAX_FRAME_SIZE ->
  let payload := drop 12 packetData in
  assemblyBuffer (fp s')
    = payload ++ drop (length payload) (assemblyBuffer (fp s)) /\
  currentFrame (fp s')
    = mkFrame (u16 (le32 packetData 0)) (le16 packetData 4) 1
              (Z.of_nat (length payload)) now (le16 packetData 4 =? 1)
              false false /\
  (forall i, received_at (packetReceived (fp s')) i = (Z.to_nat i =? 0)%nat) /\
  frameBuffer (fp s') = frameBuffer (fp s) /\
  pm s' = incrementFramesStarted (pm s).
Proof.
  intros Hrun Hidx Hint Hcap payload. subst payload.
  assert (Hok : snd (processPacket lockOk now packetData s) = true)
    by (rewrite Hrun; reflexivity).
  apply processPacket_accepted in Hok as (-> & Hlen & Hsize).
  assert (Hpsize : le32 packetData 8 = Z.of_nat (length (drop 12 packetData))).
  { rewrite Hsize. unfold u32. rewrite Z.mod_small by lia.
    rewrite length_drop. lia. }
  destruct (processPacket_cases true now packetData s)
    as [E|[(_ & _ & Hfit & E)|[(_ & _ & _ & E)|(Hcont & _)]]].
  - rewrite E in Hrun. discriminate.
  - rewrite E in Hrun. injection Hrun as <-. unfold startedBy.
    cbn [fp pm assemblyBuffer currentFrame packetReceived frameBuffer].
    rewrite Hpsize in *. split; [|split; [|split; [|split]]];
      try reflexivity.
    + unfold Config.MAX_FRAME_SIZE in *.
      rewrite memcpy_splice by lia.
      change (take (Z.to_nat 0) (assemblyBuffer (fp s))) with (@nil byte).
      cbn [app]. rewrite Nat2Z.id, take_ge by lia.
      do 2 f_equal. lia.
    + intros i. unfold received_at.
      destruct (Z.to_nat i) as [|k] eqn:Ei.
      * reflexivity.
      * rewrite list_lookup_insert_ne by lia.
        destruct (replicate _ false !! S k) as [b|] eqn:Eb; [|reflexivity].
        apply lookup_replicate in Eb as [-> _]. reflexivity.
  - rewrite E in Hrun. discriminate.
  - lia.
Qed.

(** A 14-byte first fragment of a two-fragment frame on the initial state. *)
Lemma first_fragment_stored_witness :
  let p := datagram 6 2 0 [xff; xd8] in
  let s' := fst (processPacket true 9 p initialSystem) in
  take 2 (assemblyBuffer (fp s')) = [xff; xd8] /\
  currentFrame (fp s') = mkFrame 6 2 1 2 9 false false false.
Proof.
  intros p s'.
  assert (Hrun : processPacket true 9 p initialSystem = (s', true)).
  { subst s'.
    rewrite (surjective_pairing (processPacket true 9 p initialSystem)) at 1.
    f_equal. }
  destruct (first_fragment_stored true 9 p initialSystem s' Hrun)
    as (Hasm & Hcur & _).
  - vm_compute. reflexivity.
  - vm_compute. reflexivity.
  - apply length_replicate.
  - split.
    + rewrite Hasm. reflexivity.
    + rewrite Hcur. vm_compute. reflexivity.
Defined.

Lemma received_at_mark (tracking : list bool) (i : Z) :
  0 <= i < Z.of_nat (length tracking) ->
  received_at (<[Z.to_nat i := true]> tracking) i = true.
Proof.
  intros Hi. unfold received_at.
  rewrite list_lookup_insert_eq by lia. reflexivity.
Qed.

(** X4. An accepted continuation fragment is appended: its payload lands at
    offset [totalSize], the bytes before and after it stay, [totalSize]
    grows by the payload length, [receivedPackets] by one, and exactly the
    fragment's own tracking bit is set; whatever its index, the place of the
    payload is the order of arrival. *)
Theorem continuation_appended (lockOk : bool) (now : Z) (packetData : list byte)
    (s s' : System) :
  processPacket lockOk now packetData s = (s', true) ->
  le16 packetData 6 <> 0 ->
  Z.of_nat (length packetData) < 2147483648 ->
  length (assemblyBuffer (fp s)) = Z.to_nat Config.MAX_FRAME_SIZE ->
  length (packetReceived (fp s)) = Z.to_nat Config.MAX_PACKETS ->
  0 <= totalSize (currentFrame (fp s)) < 2147483648 ->
  let cur := currentFrame (fp s) in
  let payload := drop 12 packetData in
  assemblyBuffer (fp s')
    = take (Z.to_nat (totalSize cur)) (assemblyBuffer (fp s)) ++ payload
      ++ drop (Z.to_nat (totalSize cur) + length payload)
              (assemblyBuffer (fp s)) /\
  totalSize (currentFrame (fp s'))
    = totalSize cur + Z.of_nat (length payload) /\
  totalSize (currentFrame (fp s')) <= Config.MAX_FRAME_SIZE /\
  receivedPackets (currentFrame (fp s')) = u16 (receivedPackets cur + 1) /\
  received_at (packetReceived (fp s')) (le16 packetData 6) = true /\
  (forall j, 0 <= j -> j <> le16 packetData 6 ->
     received_at (packetReceived (fp s')) j
       = received_at (packetReceived (fp s)) j) /\
  frameBuffer (fp s') = frameBuffer (fp s) /\
  pm s' = pm s.
Proof.
  intros Hrun Hidx Hint Hcap Htrack Hsize cur payload. subst cur payload.
  assert (Hok : snd (processPacket lockOk now packetData s) = true)
    by (rewrite Hrun; reflexivity).
  apply processPacket_accepted in Hok as (-> & Hlen & Hps).
  assert (Hpsize : le32 packetData 8 = Z.of_nat (length (drop 12 packetData))).
  { rewrite Hps. unfold u32. rewrite Z.mod_small by lia.
    rewrite length_drop. lia. }
  destruct (processPacket_cases true now packetData s)
    as [E|[(H0 & _)|[(H0 & _)|(Hrange & Hmax & _ & _ & _ & Hfit & E)]]];
    try (rewrite E in Hrun; discriminate); try contradiction.
  rewrite E in Hrun. injection Hrun as <-. unfold continuedBy.
  cbn [fp pm assemblyBuffer currentFrame packetReceived frameBuffer totalSize
       receivedPackets].
  rewrite Hpsize in *.
  assert (Hsum : u32 (totalSize (currentFrame (fp s))
                      + Z.of_nat (length (drop 12 packetData)))
                 = totalSize (currentFrame (fp s))
                   + Z.of_nat (length (drop 12 packetData))).
  { unfold u32. apply Z.mod_small. rewrite length_drop in *. lia. }
  rewrite Hsum in *. unfold Config.MAX_FRAME_SIZE, Config.MAX_PACKETS in *.
  split; [|split; [|split; [|split; [|split; [|split; [|split]]]]]];
    try reflexivity; try assumption.
  - rewrite memcpy_splice; [|lia|lia|lia|idtac].
    2: { rewrite Hcap. lia. }
    rewrite Nat2Z.id, (take_ge (drop 12 packetData)) by lia.
    do 3 f_equal. lia.
  - apply received_at_mark. lia.
  - intros j Hj Hne. apply received_at_mark_other; lia.
Qed.

(** Fragment 2 of a three-fragment frame arriving before fragment 1 is
    stored right behind fragment 0. *)
Lemma continuation_appended_witness :
  let p0 := datagram 3 3 0 [xff; xd8] in
  let p2 := datagram 3 3 2 [xff; xd9] in
  let s := fst (processPacket true 0 p0 initialSystem) in
  let s' := fst (processPacket true 1 p2 s) in
  take 4 (assemblyBuffer (fp s')) = [xff; xd8; xff; xd9] /\
  totalSize (currentFrame (fp s')) = 4.
Proof.
  intros p0 p2 s s'.
  assert (Hrun : processPacket true 1 p2 s = (s', true)).
  { subst s'. rewrite (surjective_pairing (processPacket true 1 p2 s)) at 1.
    f_equal. }
  destruct (continuation_appended true 1 p2 s s' Hrun) as (Hasm & Htotal & _).
  - vm_compute. discriminate.
  - vm_compute. reflexivity.
  - unfold s. unfold processPacket.
    cbn -[Z.to_nat replicate list_inserts memcpy]. apply length_inserts.
  - vm_compute. reflexivity.
  - vm_compute. split; [discriminate|reflexivity].
  - split.
    + rewrite Hasm. vm_compute. reflexivity.
    + rewrite Htotal. vm_compute. reflexivity.
Defined.

(** ** A frame delivered in order *)

Section InOrder.

Variables (frame_id total : Z).
Hypothesis Hid : 0 <= frame_id < 65536.
Hypothesis Htotal : 0 < total <= Config.MAX_PACKETS.

(** After fragments [0 .. idx-1] the remaining ones, delivered in order,
    complete the frame and extend the assembled bytes [assembled] by their
    payloads. *)
Lemma sendFrom_continues (rest : list (list byte)) :
  forall (idx : Z) (assembled : list byte) (s : System),
  0 < idx -> idx + Z.of_nat (length rest) = total ->
  frameId (currentFrame (fp s)) = frame_id ->
  totalPackets (currentFrame (fp s)) = total ->
  receivedPackets (currentFrame (fp s)) = idx ->
  totalSize (currentFrame (fp s)) = Z.of_nat (length assembled) ->
  isComplete (currentFrame (fp s)) = (idx =? total) ->
  Z.of_nat (length (assembled ++ concat rest)) <= Config.MAX_FRAME_SIZE ->
  length (assemblyBuffer (fp s)) = Z.to_nat Config.MAX_FRAME_SIZE ->
  length (packetReceived (fp s)) = Z.to_nat Config.MAX_PACKETS ->
  take (length assembled) (assemblyBuffer (fp s)) = assembled ->
  (forall j, idx <= j -> received_at (packetReceived (fp s)) j = false) ->
  (forall j, 0 <= j < idx -> received_at (packetReceived (fp s)) j = true) ->
  let s' := run (sendFrom frame_id total idx rest) s in
  take (length (assembled ++ concat rest)) (assemblyBuffer (fp s'))
    = assembled ++ concat rest /\
  currentFrame (fp s')
    = mkFrame frame_id total total
              (Z.of_nat (length (assembled ++ concat rest)))
              (startTime (currentFrame (fp s))) true
              (isValid (currentFrame (fp s)))
              (isRendering (currentFrame (fp s))) /\
  (forall j, 0 <= j < total ->
     received_at (packetReceived (fp s')) j = true) /\
  length (assemblyBuffer (fp s')) = Z.to_nat Config.MAX_FRAME_SIZE /\
  frameBuffer (fp s') = frameBuffer (fp s) /\
  pm s' = pm s.
Proof.
  unfold Config.MAX_PACKETS, Config.MAX_FRAME_SIZE in *.
  induction rest as [|chunk rest IH];
    intros idx assembled s Hidx Hcount Hfid Htot Hrecv Hsize Hcomplete Hfit Hcap
           Htrack Hprefix Hunset Hset.
  - cbn [sendFrom run foldl concat length] in *. rewrite app_nil_r.
    assert (idx = total) as -> by lia.
    split; [assumption|]. split; [|split; [|split; [|split]]]; auto.
    destruct (currentFrame (fp s)) eqn:Ecur. cbn in *.
    rewrite Z.eqb_refl in Hcomplete. congruence.
  - cbn [sendFrom concat length] in *. rewrite length_app in Hfit.
    rewrite length_app in Hfit.
    set (d := datagram frame_id total idx chunk).
    destruct (datagram_header frame_id total idx chunk)
      as (Hd0 & Hd4 & Hd6 & Hd8 & Hdrop & Hdlen); try lia.
    fold d in Hd0, Hd4, Hd6, Hd8, Hdrop, Hdlen.
    assert (Hstep : processPacket true 0 d s = (continuedBy d s, true)).
    { apply continuation_narrow_id_accepted.
      - rewrite Hd0. lia.
      - rewrite Hd0, Hfid. unfold u16. rewrite Z.mod_small; lia.
      - lia.
      - lia.
      - rewrite Hd8, Hdlen. unfold u32. rewrite Z.mod_small; lia.
      - rewrite Hd6, Hd4. lia.
      - rewrite Hd4. unfold Config.MAX_PACKETS. lia.
      - rewrite Hd6. apply Hunset. lia.
      - lia.
      - rewrite Hd8, Hsize. unfold Config.MAX_FRAME_SIZE. lia. }
    unfold run. cbn [foldl step]. rewrite Hstep. cbn [fst].
    fold (run (sendFrom frame_id total (idx + 1) rest) (continuedBy d s)).
    assert (Hnext : u16 (idx + 1) = idx + 1)
      by (unfold u16; apply Z.mod_small; lia).
    assert (Hgrow : u32 (Z.of_nat (length assembled) + Z.of_nat (length chunk))
                    = Z.of_nat (length (assembled ++ chunk))).
    { unfold u32. rewrite Z.mod_small by lia. rewrite length_app. lia. }
    assert (Hasm : assemblyBuffer (fp (continuedBy d s))
                   = (assembled ++ chunk)
                     ++ drop (length (assembled ++ chunk))
                             (assemblyBuffer (fp s))).
    { unfold continuedBy. cbn [fp assemblyBuffer].
      rewrite Hdrop, Hd8, Hsize.
      rewrite memcpy_splice; [|lia|lia|lia|rewrite Hcap; lia].
      rewrite !Nat2Z.id, (take_ge chunk), Hprefix by lia.
      rewrite <- app_assoc. do 3 f_equal. rewrite length_app. lia. }
    specialize (IH (idx + 1) (assembled ++ chunk) (continuedBy d s)).
    rewrite <- app_assoc in IH.
    destruct IH as (Hres & Hcur & Hbits & Hcap' & Hfb & Hpm).
    + lia.
    + lia.
    + unfold continuedBy. cbn. assumption.
    + unfold continuedBy. cbn. assumption.
    + unfold continuedBy. cbn [fp currentFrame receivedPackets].
      rewrite Hrecv. exact Hnext.
    + unfold continuedBy. cbn [fp currentFrame totalSize].
      rewrite Hd8, Hsize. exact Hgrow.
    + unfold continuedBy. cbn [fp currentFrame isComplete].
      rewrite Hrecv, Hnext, Htot, Hcomplete.
      destruct (idx + 1 =? total) eqn:E1; [reflexivity|].
      apply Z.eqb_neq. lia.
    + rewrite !length_app. lia.
    + unfold continuedBy. cbn [fp assemblyBuffer]. rewrite memcpy_length.
      assumption.
    + unfold continuedBy. cbn [fp packetReceived]. rewrite length_insert.
      assumption.
    + rewrite Hasm. apply take_app_length.
    + intros j Hj. unfold continuedBy. cbn [fp packetReceived].
      rewrite Hd6, received_at_mark_other by lia. apply Hunset. lia.
    + intros j Hj. unfold continuedBy. cbn [fp packetReceived]. rewrite Hd6.
      destruct (Z.eq_dec j idx) as [->|Hne].
      * apply received_at_mark. rewrite Htrack. lia.
      * rewrite received_at_mark_other by lia. apply Hset. lia.
    + split; [exact Hres|]. split; [|split; [|split; [|split]]]; auto.
Qed.

End InOrder.

(** In-order delivery of a whole frame, from any state. *)
Lemma sendFrom_reassembles (frame_id : Z) (rest0 : list byte)
    (others : list (list byte)) (s : System) :
  let chunks := (xff :: xd8 :: rest0) :: others in
  let total := Z.of_nat (length chunks) in
  let payload := concat chunks in
  0 <= frame_id < 65536 ->
  total <= Config.MAX_PACKETS ->
  Z.of_nat (length payload) <= Config.MAX_FRAME_SIZE ->
  length (assemblyBuffer (fp s)) = Z.to_nat Config.MAX_FRAME_SIZE ->
  let s' := run (sendFrom frame_id total 0 chunks) s in
  take (length payload) (assemblyBuffer (fp s')) = payload /\
  currentFrame (fp s')
    = mkFrame frame_id total total (Z.of_nat (length payload)) 0
              true false false /\
  (forall j, 0 <= j < total ->
     received_at (packetReceived (fp s')) j = true) /\
  frameBuffer (fp s') = frameBuffer (fp s) /\
  pm s' = incrementFramesStarted (pm s).
Proof.
  intros chunks total payload Hid Hmax Hfit Hcap.
  set (first := xff :: xd8 :: rest0) in *.
  assert (Htotal : total = 1 + Z.of_nat (length others))
    by (unfold total, chunks; cbn [length]; lia).
  assert (Hpayload : payload = first ++ concat others) by reflexivity.
  assert (Hfirst : 2 <= Z.of_nat (length first))
    by (unfold first; cbn [length]; lia).
  unfold Config.MAX_PACKETS, Config.MAX_FRAME_SIZE in *.
  rewrite Hpayload, length_app in Hfit.
  set (d := datagram frame_id total 0 first).
  destruct (datagram_header frame_id total 0 first)
    as (Hd0 & Hd4 & Hd6 & Hd8 & Hdrop & Hdlen); try lia.
  fold d in Hd0, Hd4, Hd6, Hd8, Hdrop, Hdlen.
  assert (Hstep : processPacket true 0 d s = (startedBy 0 d s, true)).
  { apply first_fragment_accepted.
    - lia.
    - rewrite Hd8, Hdlen. unfold u32. rewrite Z.mod_small; lia.
    - exact Hd6.
    - rewrite Hd4. unfold Config.MAX_PACKETS. lia.
    - rewrite Hdrop. reflexivity.
    - rewrite Hdrop. reflexivity.
    - rewrite Hd8. unfold Config.MAX_FRAME_SIZE. lia. }
  unfold chunks. cbn [sendFrom]. fold first d.
  unfold run. cbn [foldl step]. rewrite Hstep. cbn [fst].
  change (0 + 1) with 1.
  fold (run (sendFrom frame_id total 1 others) (startedBy 0 d s)).
  rewrite Hpayload.
  assert (Hasm : assemblyBuffer (fp (startedBy 0 d s))
                 = first ++ drop (length first) (assemblyBuffer (fp s))).
  { unfold startedBy. cbn [fp assemblyBuffer]. rewrite Hdrop, Hd8.
    rewrite memcpy_splice; [|lia|lia|lia|rewrite Hcap; lia].
    change (take (Z.to_nat 0) (assemblyBuffer (fp s))) with (@nil byte).
    cbn [app]. rewrite Nat2Z.id, (take_ge first) by lia.
    do 2 f_equal. lia. }
  destruct (sendFrom_continues frame_id total
              ltac:(lia) ltac:(unfold Config.MAX_PACKETS; lia)
              others 1 first (startedBy 0 d s))
    as (Hres & Hcur & Hbits & _ & Hfb & Hpm).
  - lia.
  - lia.
  - unfold startedBy. cbn [fp currentFrame frameId]. rewrite Hd0.
    unfold u16. apply Z.mod_small. lia.
  - unfold startedBy. cbn [fp currentFrame totalPackets]. exact Hd4.
  - reflexivity.
  - unfold startedBy. cbn [fp currentFrame totalSize]. exact Hd8.
  - unfold startedBy. cbn [fp currentFrame isComplete]. rewrite Hd4.
    apply Z.eqb_sym.
  - rewrite length_app. unfold Config.MAX_FRAME_SIZE. lia.
  - unfold startedBy. cbn [fp assemblyBuffer]. rewrite memcpy_length.
    exact Hcap.
  - unfold startedBy. cbn [fp packetReceived].
    rewrite length_insert. apply length_replicate.
  - rewrite Hasm. apply take_app_length.
  - intros j Hj. unfold startedBy. cbn [fp packetReceived].
    apply received_at_fresh. lia.
  - intros j Hj. assert (j = 0) as -> by lia. reflexivity.
  - split; [exact Hres|]. split; [|split; [|split]].
    + rewrite Hcur. reflexivity.
    + exact Hbits.
    + rewrite Hfb. reflexivity.
    + rewrite Hpm. reflexivity.
Qed.

(** X5. Round trip of the fragmentation: a payload that starts with [FF D8],
    cut into at most [MAX_PACKETS] chunks of at most [MAX_FRAME_SIZE] bytes in
    all and delivered in order under a 16-bit frame id, is found whole at
    the start of the assembly buffer; the frame is complete, every fragment
    is marked and one started frame is counted. *)
Theorem in_order_reassembly (frame_id : Z) (rest0 : list byte)
    (others : list (list byte)) (s : System) :
  let chunks := (xff :: xd8 :: rest0) :: others in
  let total := Z.of_nat (length chunks) in
  let payload := concat chunks in
  0 <= frame_id < 65536 ->
  total <= Config.MAX_PACKETS ->
  Z.of_nat (length payload) <= Config.MAX_FRAME_SIZE ->
  length (assemblyBuffer (fp s)) = Z.to_nat Config.MAX_FRAME_SIZE ->
  let s' := run (sendFrom frame_id total 0 chunks) s in
  take (length payload) (assemblyBuffer (fp s')) = payload /\
  currentFrame (fp s')
    = mkFrame frame_id total total (Z.of_nat (length payload)) 0
              true false false /\
  (forall j, 0 <= j < total ->
     received_at (packetReceived (fp s')) j = true) /\
  frameBuffer (fp s') = frameBuffer (fp s) /\
  pm s' = incrementFramesStarted (pm s).
Proof.
  intros chunks total payload Hid Hmax Hfit Hcap.
  now apply sendFrom_reassembles.
Qed.

(** Three chunks of a 7-byte payload. *)
Lemma in_order_reassembly_witness :
  let ops := sendFrom 5 3 0 [[xff; xd8; x01]; [x02; x03]; [xff; xd9]] in
  take 7 (assemblyBuffer (fp (run ops initialSystem)))
    = [xff; xd8; x01; x02; x03; xff; xd9] /\
  isComplete (currentFrame (fp (run ops initialSystem))) = true.
Proof.
  intros ops.
  destruct (in_order_reassembly 5 [x01] [[x02; x03]; [xff; xd9]] initialSystem)
    as (Hasm & Hcur & _).
  - lia.
  - unfold Config.MAX_PACKETS. cbn. lia.
  - unfold Config.MAX_FRAME_SIZE. cbn. lia.
  - apply length_replicate.
  - split; [exact Hasm|]. unfold ops.
    change 3 with (Z.of_nat (length [[xff; xd8; x01]; [x02; x03]; [xff; xd9]])).
    rewrite Hcur. reflexivity.
Defined.

(** ** Successful assembly *)

Lemma allReceived_true (tracking : list bool) (n : nat) : forall i,
  (forall j, i <= j < i + Z.of_nat n -> received_at tracking j = true) ->
  allReceived tracking i n = true.
Proof.
  induction n as [|n IH]; intros i Hall; cbn [allReceived]; [reflexivity|].
  rewrite Hall by lia. cbn [negb]. apply IH. intros j Hj. apply Hall. lia.
Qed.

(** The structural check reads the first [size] bytes only. *)
Lemma validateCompleteJPEG_agree (other buffer : list byte) (size : Z) :
  0 <= size < 4294967296 ->
  (forall i, 0 <= i < size -> byte_at other i = byte_at buffer i) ->
  validateCompleteJPEG other size = validateCompleteJPEG buffer size.
Proof.
  intros Hsize Hsame. apply eq_true_iff_eq.
  rewrite !validateCompleteJPEG_true by assumption.
  split; intros (Hlarge & Hff & Hd8 & j & Hlo & Hhi & Hj & Hj1);
    (split; [assumption|]).
  - rewrite <- !Hsame by lia. repeat split; try assumption.
    exists j. rewrite <- !Hsame by lia. auto.
  - rewrite !Hsame by lia. repeat split; try assumption.
    exists j. rewrite !Hsame by lia. auto.
Qed.

Lemma byte_at_take (buffer : list byte) (n : nat) (i : Z) :
  0 <= i < Z.of_nat n -> byte_at (take n buffer) i = byte_at buffer i.
Proof.
  intros Hi. unfold byte_at. rewrite lookup_take_lt by lia. reflexivity.
Qed.

(** X6. When [assembleCompleteFrame] succeeds, every fragment below
    [totalPackets] was marked and the structural check passed; the first
    [totalSize] bytes of the assembly buffer are copied over the start of
    the render buffer, whose remaining bytes stay; [isValid] is set, one
    completed frame is counted, and nothing else changes. *)
Theorem assembleCompleteFrame_success (s : System) :
  snd (assembleCompleteFrame s) = true ->
  let cur := currentFrame (fp s) in
  let size := Z.to_nat (totalSize cur) in
  0 <= totalSize cur ->
  (size <= length (assemblyBuffer (fp s)))%nat ->
  (size <= length (frameBuffer (fp s)))%nat ->
  let s' := fst (assembleCompleteFrame s) in
  frameBuffer (fp s')
    = take size (assemblyBuffer (fp s)) ++ drop size (frameBuffer (fp s)) /\
  (forall j, 0 <= j < totalPackets cur ->
     received_at (packetReceived (fp s)) j = true) /\
  validateCompleteJPEG (assemblyBuffer (fp s)) (totalSize cur) = true /\
  currentFrame (fp s')
    = mkFrame (frameId cur) (totalPackets cur) (receivedPackets cur)
              (totalSize cur) (startTime cur) (isComplete cur) true
              (isRendering cur) /\
  assemblyBuffer (fp s') = assemblyBuffer (fp s) /\
  packetReceived (fp s') = packetReceived (fp s) /\
  pm s' = incrementCompleteFrames (pm s).
Proof.
  intros Hok cur size Hpos Hasm Hfb s'. subst cur size s'.
  unfold assembleCompleteFrame in *.
  destruct (allReceived _ 0 _) eqn:Hall; cbn [negb] in *; [|discriminate].
  destruct (validateCompleteJPEG _ _) eqn:Hv; cbn [negb] in *; [|discriminate].
  cbn [fst fp pm frameBuffer currentFrame assemblyBuffer packetReceived].
  split; [|split; [|split; [|split; [|split; [|split]]]]]; try reflexivity.
  - rewrite memcpy_splice by lia.
    change (take (Z.to_nat 0) (frameBuffer (fp s))) with (@nil byte).
    cbn [app]. do 2 f_equal.
  - intros j Hj.
    destruct (received_at (packetReceived (fp s)) j) eqn:Hbit; [reflexivity|].
    assert (allReceived (packetReceived (fp s)) 0
              (Z.to_nat (totalPackets (currentFrame (fp s)))) = false) as Hf
      by (apply allReceived_false; exists j; split; [lia|assumption]).
    congruence.
Qed.

(** ** Invariants of the reassembler *)

Lemma wellShaped_initial : wellShaped initialSystem.
Proof.
  unfold wellShaped, initialSystem.
  cbn [fp frameBuffer assemblyBuffer packetReceived currentFrame reset
       totalPackets isRendering].
  rewrite !length_replicate. unfold Config.MAX_PACKETS. repeat split; lia.
Qed.

Lemma wellShaped_step (s : System) (o : Op) :
  wellShaped s -> wellShaped (step s o).
Proof.
  intros (Hfb & Hasm & Htrack & Htotal & Hrend).
  destruct o as [lockOk now packetData| |lockOk now|]; cbn [step].
  - destruct (processPacket_cases lockOk now packetData s)
      as [E|[(_ & Ht & _ & E)|[(_ & Ht & _ & E)|(_ & _ & _ & _ & _ & _ & E)]]];
      rewrite E; cbn [fst]; unfold wellShaped.
    + auto.
    + unfold startedBy.
      cbn [fp frameBuffer assemblyBuffer packetReceived currentFrame
           totalPackets isRendering].
      rewrite memcpy_length, length_insert, length_replicate.
      repeat split; auto; lia.
    + unfold startedOversized.
      cbn [fp frameBuffer assemblyBuffer packetReceived currentFrame
           totalPackets isRendering].
      rewrite length_insert, length_replicate. repeat split; auto; lia.
    + unfold continuedBy.
      cbn [fp frameBuffer assemblyBuffer packetReceived currentFrame
           totalPackets isRendering].
      rewrite memcpy_length, length_insert. repeat split; auto; lia.
  - unfold assembleCompleteFrame.
    destruct (negb _); [cbn [fst]; unfold wellShaped; auto|].
    destruct (negb _); cbn [fst]; unfold wellShaped;
      cbn [fp frameBuffer assemblyBuffer packetReceived currentFrame
           totalPackets isRendering];
      rewrite ?memcpy_length; auto.
  - unfold handleFrameTimeout.
    destruct (_ && _); [|unfold wellShaped; auto].
    destruct lockOk; unfold wellShaped; cbn; auto.
  - unfold resetCurrentFrame, wellShaped. cbn. auto.
Qed.

Lemma wellShaped_run (ops : list Op) : forall s,
  wellShaped s -> wellShaped (run ops s).
Proof.
  induction ops as [|o ops IH]; intros s Hs; [exact Hs|].
  unfold run. cbn [foldl]. apply IH, wellShaped_step, Hs.
Qed.

(** X7. In every state reached from the initial one, whatever the calls and
    their inputs, the three arrays keep their allocated capacities, the
    declared fragment count is at most [MAX_PACKETS] and [isRendering] is
    false: no operation of the reassembler ever sets it. *)
Theorem reachable_wellShaped (ops : list Op) :
  wellShaped (run ops initialSystem).
Proof.
  apply wellShaped_run. exact wellShaped_initial.
Qed.

Lemma sizedFrame_initial : sizedFrame initialSystem.
Proof.
  unfold sizedFrame, initialSystem. cbn. split; [lia|discriminate].
Qed.

Lemma sizedFrame_step (s : System) (o : Op) :
  sizedFrame s -> intSized o -> sizedFrame (step s o).
Proof.
  intros (Hsize & Hfit) Hint.
  destruct o as [lockOk now packetData| |lockOk now|]; cbn [step intSized] in *.
  - destruct (processPacket_header_checked lockOk now packetData s)
      as [E|(_ & Hlen & Hps)]; [rewrite E; split; assumption|].
    assert (Hpsize : 0 <= le32 packetData 8 < 2147483648).
    { rewrite Hps. unfold u32. rewrite Z.mod_small; lia. }
    destruct (processPacket_cases lockOk now packetData s)
      as [E|[(_ & _ & Hle & E)|[(_ & _ & _ & E)|(_ & _ & _ & _ & _ & Hle & E)]]];
      rewrite E; cbn [fst]; unfold sizedFrame.
    + auto.
    + unfold startedBy. cbn [fp currentFrame totalSize isComplete].
      split; [lia|auto].
    + unfold startedOversized. cbn [fp currentFrame totalSize isComplete].
      split; [lia|discriminate].
    + unfold continuedBy. cbn [fp currentFrame totalSize isComplete].
      pose proof (Z.mod_pos_bound
                    (totalSize (currentFrame (fp s)) + le32 packetData 8)
                    4294967296 ltac:(lia)) as Hmod.
      fold (u32 (totalSize (currentFrame (fp s)) + le32 packetData 8)) in Hmod.
      unfold Config.MAX_FRAME_SIZE in *. split; [lia|intros _; lia].
  - unfold assembleCompleteFrame.
    destruct (negb _); [cbn [fst]; split; assumption|].
    destruct (negb _); cbn [fst]; split; assumption.
  - unfold handleFrameTimeout.
    destruct (_ && _); [|split; assumption].
    destruct lockOk; [|split; assumption].
    unfold sizedFrame. cbn [fp currentFrame totalSize isComplete].
    split; [assumption|discriminate].
  - unfold resetCurrentFrame, sizedFrame.
    cbn [fp currentFrame totalSize isComplete].
    split; [assumption|discriminate].
Qed.

Lemma sizedFrame_run (ops : list Op) : forall s,
  sizedFrame s -> Forall intSized ops -> sizedFrame (run ops s).
Proof.
  induction ops as [|o ops IH]; intros s Hs Hall; [exact Hs|].
  apply Forall_cons in Hall as [Ho Hall].
  unfold run. cbn [foldl]. apply IH; [|exact Hall].
  now apply sizedFrame_step.
Qed.

(** X8. As long as every datagram fits the [int size] parameter, a frame
    marked complete never has more than [MAX_FRAME_SIZE] assembled bytes
    (and [totalSize] stays an [int]): the structural check and the copy of
    [assembleCompleteFrame] on a complete frame stay inside the buffers,
    even after an oversized first fragment. *)
Theorem complete_frame_fits (ops : list Op) :
  Forall intSized ops ->
  sizedFrame (run ops initialSystem).
Proof.
  intros Hall. apply sizedFrame_run; [apply sizedFrame_initial|exact Hall].
Qed.

(** An oversized first fragment followed by a continuation and a timeout. *)
Lemma complete_frame_fits_witness :
  let big := datagram 1 2 0 ([xff; xd8] ++ replicate (Z.to_nat 35000) x00) in
  let ops := [OpPacket true 0 big;
              OpPacket true 1 (datagram 1 2 1 [xff; xd9]);
              OpTimeout true 200] in
  sizedFrame (run ops initialSystem).
Proof.
  intros big ops. apply complete_frame_fits.
  repeat apply Forall_cons_2; try apply Forall_nil_2; cbn [intSized].
  - vm_compute. reflexivity.
  - vm_compute. reflexivity.
  - exact I.
Defined.

(** Scenario A, read from the render buffer. *)
Lemma assembleCompleteFrame_success_witness :
  let frame := [xff; xd8] ++ replicate 20 x00 ++ [xff; xd9] in
  let s := run [OpPacket true 0 (datagram 7 1 0 frame)] initialSystem in
  take 24 (frameBuffer (fp (fst (assembleCompleteFrame s)))) = frame.
Proof.
  intros frame s.
  destruct (wellShaped_run [OpPacket true 0 (datagram 7 1 0 frame)]
              initialSystem wellShaped_initial) as (Hfb & Hasm & _).
  fold s in Hfb, Hasm.
  assert (Hsize : totalSize (currentFrame (fp s)) = 24)
    by (vm_compute; reflexivity).
  destruct (assembleCompleteFrame_success s) as (Hcopy & _).
  - vm_compute. reflexivity.
  - rewrite Hsize. lia.
  - rewrite Hsize, Hasm. unfold Config.MAX_FRAME_SIZE. lia.
  - rewrite Hsize, Hfb. unfold Config.MAX_FRAME_SIZE. lia.
  - rewrite Hcopy, Hsize.
    rewrite take_app_le by (rewrite length_take, Hasm;
                            unfold Config.MAX_FRAME_SIZE; lia).
    rewrite take_take. vm_compute. reflexivity.
Defined.

(** X9. End to end: a payload delivered in order as in X5 that passes the
    structural check is accepted by [assembleCompleteFrame] and is then
    found whole at the start of the render buffer, with [isValid] set and
    one completed frame counted. *)
Theorem in_order_frame_assembled (frame_id : Z) (rest0 : list byte)
    (others : list (list byte)) (s : System) :
  let chunks := (xff :: xd8 :: rest0) :: others in
  let total := Z.of_nat (length chunks) in
  let payload := concat chunks in
  0 <= frame_id < 65536 ->
  total <= Config.MAX_PACKETS ->
  Z.of_nat (length payload) <= Config.MAX_FRAME_SIZE ->
  length (assemblyBuffer (fp s)) = Z.to_nat Config.MAX_FRAME_SIZE ->
  length (frameBuffer (fp s)) = Z.to_nat Config.MAX_FRAME_SIZE ->
  validateCompleteJPEG payload (Z.of_nat (length payload)) = true ->
  let r := assembleCompleteFrame (run (sendFrom frame_id total 0 chunks) s) in
  snd r = true /\
  take (length payload) (frameBuffer (fp (fst r))) = payload /\
  isValid (currentFrame (fp (fst r))) = true /\
  completeFramesReceived (pm (fst r))
    = u32 (completeFramesReceived (pm s) + 1).
Proof.
  intros chunks total payload Hid Hmax Hfit Hcap Hfbcap Hvalid.
  destruct (sendFrom_reassembles frame_id rest0 others s Hid Hmax Hfit Hcap)
    as (Hasm & Hcur & Hbits & Hfb & Hpm).
  fold chunks total payload in Hasm, Hcur, Hbits, Hfb, Hpm.
  set (s1 := run (sendFrom frame_id total 0 chunks) s) in *.
  cbv zeta. unfold assembleCompleteFrame. rewrite Hcur.
  cbn [totalPackets totalSize frameId receivedPackets startTime isComplete
       isRendering].
  rewrite allReceived_true
    by (intros j Hj; apply Hbits; lia).
  cbn [negb].
  assert (Hcheck : validateCompleteJPEG (assemblyBuffer (fp s1))
                     (Z.of_nat (length payload)) = true).
  { rewrite <- Hvalid. unfold Config.MAX_FRAME_SIZE in Hfit.
    apply validateCompleteJPEG_agree; [lia|].
    intros i Hi. rewrite <- Hasm. symmetry. apply byte_at_take. lia. }
  rewrite Hcheck. cbn [negb fst snd fp pm frameBuffer currentFrame isValid].
  split; [reflexivity|]. split; [|split].
  - unfold Config.MAX_FRAME_SIZE in *.
    assert (Hlong : (length payload <= length (assemblyBuffer (fp s1)))%nat).
    { pose proof (f_equal length Hasm) as Hl. rewrite length_take in Hl. lia. }
    rewrite Hfb.
    rewrite memcpy_splice; [|lia|lia|lia|rewrite Hfbcap; lia].
    change (take (Z.to_nat 0) (frameBuffer (fp s))) with (@nil byte).
    cbn [app]. rewrite Nat2Z.id, Hasm. apply take_app_length.
  - reflexivity.
  - rewrite Hpm. reflexivity.
Qed.

(** The three chunks of X5's example end with [FF D9] inside the last 20
    bytes of a 22-byte payload. *)
Lemma in_order_frame_assembled_witness :
  let chunks := [[xff; xd8; x01]; replicate 17 x02; [xff; xd9]] in
  let r := assembleCompleteFrame (run (sendFrom 5 3 0 chunks) initialSystem) in
  snd r = true /\
  take 22 (frameBuffer (fp (fst r))) = concat chunks.
Proof.
  intros chunks r.
  destruct (in_order_frame_assembled 5 [x01] [replicate 17 x02; [xff; xd9]]
              initialSystem) as (Hok & Hfb & _).
  - lia.
  - unfold Config.MAX_PACKETS. cbn. lia.
  - unfold Config.MAX_FRAME_SIZE. cbn. lia.
  - apply length_replicate.
  - apply length_replicate.
  - vm_compute. reflexivity.
  - split; [exact Hok|exact Hfb].
Defined.

(** ** Acceptance, abort and restart *)

Lemma handleFrameTimeout_spec_cases (lockOk : bool) (now : Z) (s : System) :
  handleFrameTimeout lockOk now s = s \/
  handleFrameTimeout lockOk now s = abortedBy s.
Proof.
  unfold handleFrameTimeout, abortedBy, incrementIncompleteFrames.
  destruct (_ && _); [|left; reflexivity].
  destruct lockOk; [right; reflexivity|left; reflexivity].
Qed.

(** X10. With a wire id below 65536, a continuation of the frame in flight
    (same id, at least one fragment received) with a consistent header, an
    unmarked index and room left in the assembly buffer is accepted when
    the frame lock is acquired. *)
Theorem continuation_accepted (now : Z) (packetData : list byte) (s : System) :
  let cur := currentFrame (fp s) in
  le32 packetData 0 < 65536 ->
  frameId cur = u16 (le32 packetData 0) ->
  0 < receivedPackets cur ->
  12 <= Z.of_nat (length packetData) ->
  le32 packetData 8 = u32 (Z.of_nat (length packetData) - 12) ->
  0 < le16 packetData 6 < le16 packetData 4 ->
  le16 packetData 4 <= Config.MAX_PACKETS ->
  received_at (packetReceived (fp s)) (le16 packetData 6) = false ->
  0 <= totalSize cur ->
  totalSize cur + le32 packetData 8 <= Config.MAX_FRAME_SIZE ->
  snd (processPacket true now packetData s) = true /\
  receivedPackets (currentFrame (fp (fst (processPacket true now packetData s))))
    = u16 (receivedPackets cur + 1).
Proof.
  intros cur Hnarrow Hstored Hrecv Hlen Hsize Hidx Hmax Hbit Hnonneg Hfit.
  rewrite (continuation_narrow_id_accepted now packetData s) by assumption.
  split; reflexivity.
Qed.

(** Fragment 1 after fragment 0 of frame 9. *)
Lemma continuation_accepted_witness :
  let s := fst (processPacket true 0 (datagram 9 2 0 [xff; xd8]) initialSystem) in
  snd (processPacket true 1 (datagram 9 2 1 [xff; xd9]) s) = true.
Proof.
  intros s.
  destruct (continuation_accepted 1 (datagram 9 2 1 [xff; xd9]) s)
    as (Hok & _).
  - vm_compute. reflexivity.
  - vm_compute. reflexivity.
  - vm_compute. reflexivity.
  - vm_compute. discriminate.
  - vm_compute. reflexivity.
  - vm_compute. split; reflexivity.
  - vm_compute. discriminate.
  - vm_compute. reflexivity.
  - vm_compute. discriminate.
  - vm_compute. discriminate.
  - exact Hok.
Defined.

(** A continuation is dropped while no fragment is counted as received. *)
Lemma continuation_needs_frame (lockOk : bool) (now : Z)
    (packetData : list byte) (s : System) :
  le16 packetData 6 <> 0 ->
  receivedPackets (currentFrame (fp s)) <= 0 ->
  processPacket lockOk now packetData s = (s, false).
Proof.
  intros Hidx Hnone. unfold processPacket.
  destruct (_ <? 12); [reflexivity|].
  destruct (_ || _ || _ || _); [reflexivity|].
  destruct lockOk; [|reflexivity]. cbn [negb].
  apply Z.eqb_neq in Hidx. rewrite Hidx.
  assert (E : (receivedPackets (currentFrame (fp s)) >? 0) = false)
    by (rewrite Z.gtb_ltb; apply Z.ltb_ge; lia).
  rewrite E, andb_false_r. reflexivity.
Qed.

(** X11. Once a frame was aborted by the timeout or cleared by
    [resetCurrentFrame], and in the initial state, every continuation
    fragment is dropped without any change, whatever its id and index: only
    a fragment 0 gets reassembly going again. *)
Theorem continuation_dropped_after_abort (lockOk : bool) (now : Z)
    (packetData : list byte) (s : System) :
  le16 packetData 6 <> 0 ->
  (forall t, 0 < receivedPackets (currentFrame (fp s)) ->
     u32 (t - startTime (currentFrame (fp s))) > Config.FRAME_TIMEOUT ->
     processPacket lockOk now packetData (handleFrameTimeout true t s)
       = (handleFrameTimeout true t s, false)) /\
  processPacket lockOk now packetData (resetCurrentFrame s)
    = (resetCurrentFrame s, false) /\
  processPacket lockOk now packetData initialSystem = (initialSystem, false).
Proof.
  intros Hidx. split; [|split].
  - intros t Hrecv Hlate. apply continuation_needs_frame; [assumption|].
    unfold handleFrameTimeout.
    apply Z.gt_lt, Z.gtb_lt in Hlate. apply Z.gtb_lt in Hrecv.
    rewrite Hrecv, Hlate. cbn. lia.
  - apply continuation_needs_frame; [assumption|].
    unfold resetCurrentFrame. cbn. lia.
  - apply continuation_needs_frame; [assumption|]. cbn. lia.
Qed.

(** Fragment 1 arriving after the frame of fragment 0 timed out. *)
Lemma continuation_dropped_after_abort_witness :
  let s := fst (processPacket true 0 (datagram 9 2 0 [xff; xd8]) initialSystem) in
  let aborted := handleFrameTimeout true 151 s in
  processPacket true 152 (datagram 9 2 1 [xff; xd9]) aborted = (aborted, false).
Proof.
  intros s aborted.
  destruct (continuation_dropped_after_abort true 152
              (datagram 9 2 1 [xff; xd9]) s) as (Habort & _).
  - vm_compute. discriminate.
  - apply Habort; vm_compute; reflexivity.
Defined.

Lemma handleFrameTimeout_idle (calls : list (bool * Z)) (s : System) :
  receivedPackets (currentFrame (fp s)) = 0 ->
  foldl (fun st c => handleFrameTimeout (fst c) (snd c) st) s calls = s.
Proof.
  intros Hzero. induction calls as [|[lockOk t] calls IH]; [reflexivity|].
  cbn [foldl fst snd].
  assert (Hidle : handleFrameTimeout lockOk t s = s)
    by (unfold handleFrameTimeout; rewrite Hzero; reflexivity).
  rewrite Hidle. exact IH.
Qed.

(** X12. A frame is aborted at most once: whatever the times and lock
    outcomes of a sequence of [handleFrameTimeout] calls with no datagram in
    between, the state after it is either the one before or the one after a
    single abort, so the incomplete-frame counter grows by at most one. *)
Theorem handleFrameTimeout_once (calls : list (bool * Z)) (s : System) :
  let s' := foldl (fun st c => handleFrameTimeout (fst c) (snd c) st) s calls in
  s' = s \/ s' = abortedBy s.
Proof.
  cbv zeta. induction calls as [|[lockOk t] calls IH]; [left; reflexivity|].
  cbn [foldl fst snd].
  destruct (handleFrameTimeout_spec_cases lockOk t s) as [Hsame|Habort].
  - rewrite Hsame. exact IH.
  - rewrite Habort. right. apply handleFrameTimeout_idle. reflexivity.
Qed.



(** ** The ingest loop *)

Lemma run_app (ops1 ops2 : list Op) (s : System) :
  run (ops1 ++ ops2) s = run ops2 (run ops1 s).
Proof. unfold run. apply foldl_app. Qed.

Lemma burst_run (n : nat) : forall reads s,
  Tasks.burst n reads s = run (Tasks.burstOps n reads) s.
Proof.
  induction n as [|n IH]; intros reads s; [reflexivity|].
  destruct reads as [|r rest]; [reflexivity|].
  cbn [Tasks.burst Tasks.burstOps].
  destruct (_ >? 0); [|reflexivity].
  rewrite IH. reflexivity.
Qed.

Lemma burstOps_prefix (n : nat) : forall reads,
  exists k, (k <= n)%nat /\
    Tasks.burstOps n reads
      = (fun r => OpPacket (Tasks.readLock r) (Tasks.readNow r)
                           (Tasks.readData r)) <$> take k reads /\
    Forall (fun r => Tasks.readData r <> []) (take k reads) /\
    ((k < n)%nat ->
     forall r, reads !! k = Some r -> Tasks.readData r = []).
Proof.
  induction n as [|n IH]; intros reads.
  - exists 0%nat. split; [lia|]. split; [reflexivity|].
    split; [constructor|lia].
  - destruct reads as [|r rest].
    + exists 0%nat. split; [lia|]. split; [reflexivity|].
      split; [constructor|]. intros _ r Hr. discriminate.
    + cbn [Tasks.burstOps].
      destruct (Z.of_nat (length (Tasks.readData r)) >? 0) eqn:E.
      * destruct (IH rest) as (k & Hk & Hops & Hall & Hstop).
        exists (S k). split; [lia|]. split; [|split].
        -- cbn [take fmap list_fmap]. rewrite Hops. reflexivity.
        -- cbn [take]. constructor; [|exact Hall].
           intros Hnil. rewrite Hnil in E. discriminate.
        -- intros Hlt r' Hr'. cbn in Hr'. apply (Hstop ltac:(lia) r' Hr').
      * exists 0%nat. split; [lia|]. split; [reflexivity|].
        split; [constructor|].
        intros _ r' Hr'. cbn in Hr'. injection Hr' as <-.
        rewrite Z.gtb_ltb in E. apply Z.ltb_ge in E.
        destruct (Tasks.readData r); [reflexivity|cbn [length] in E; lia].
Qed.

(** X14. One cycle of the ingest task is a sequence of calls of the
    reassembler: [processPacket] on the first [k <= 3] reads, in order, each
    of them non-empty, then one [handleFrameTimeout]; when [k < 3] the
    cycle stopped at an empty read.  A fourth pending datagram waits for the
    next cycle. *)
Theorem udpCycle_calls (reads : list Tasks.Read) (lockOk : bool) (now : Z)
    (s : System) :
  exists k, (k <= 3)%nat /\
    Tasks.udpCycle reads lockOk now s
      = run (((fun r => OpPacket (Tasks.readLock r) (Tasks.readNow r)
                                 (Tasks.readData r)) <$> take k reads)
             ++ [OpTimeout lockOk now]) s /\
    Forall (fun r => Tasks.readData r <> []) (take k reads) /\
    ((k < 3)%nat ->
     forall r, reads !! k = Some r -> Tasks.readData r = []).
Proof.
  destruct (burstOps_prefix 3 reads) as (k & Hk & Hops & Hall & Hstop).
  exists k. split; [exact Hk|]. split; [|split; assumption].
  unfold Tasks.udpCycle. rewrite burst_run, Hops, run_app. reflexivity.
Qed.

(** Four pending datagrams: the fourth is not touched in this cycle. *)
Example udpCycle_fourth_datagram_waits :
  let frame i := Tasks.mkRead true 0 (datagram i 1 0 [xff; xd8]) in
  frameId (currentFrame (fp (Tasks.udpCycle [frame 1; frame 2; frame 3; frame 4]
                                            true 0 initialSystem))) = 3.
Proof. vm_compute. reflexivity. Qed.

Lemma boundedSize_packet (lockOk : bool) (now : Z) (packetData : list byte)
    (s : System) :
  Z.of_nat (length packetData) <= Config.MAX_FRAME_SIZE + 12 ->
  Tasks.boundedSize s ->
  Tasks.boundedSize (fst (processPacket lockOk now packetData s)).
Proof.
  unfold Tasks.boundedSize, Config.MAX_FRAME_SIZE. intros Hshort Hs.
  destruct (processPacket_header_checked lockOk now packetData s)
    as [E|(_ & Hlen & Hps)]; [rewrite E; exact Hs|].
  assert (Hpsize : 0 <= le32 packetData 8 <= 35000).
  { rewrite Hps. unfold u32. rewrite Z.mod_small; lia. }
  destruct (processPacket_cases lockOk now packetData s)
    as [E|[(_ & _ & _ & E)|[(_ & _ & Hbig & E)|(_ & _ & _ & _ & _ & Hle & E)]]];
    rewrite E; cbn [fst].
  - exact Hs.
  - unfold startedBy. cbn [fp currentFrame totalSize]. exact Hpsize.
  - unfold Config.MAX_FRAME_SIZE in Hbig. lia.
  - unfold continuedBy. cbn [fp currentFrame totalSize].
    pose proof (Z.mod_pos_bound
                  (totalSize (currentFrame (fp s)) + le32 packetData 8)
                  4294967296 ltac:(lia)) as Hmod.
    fold (u32 (totalSize (currentFrame (fp s)) + le32 packetData 8)) in Hmod.
    unfold Config.MAX_FRAME_SIZE in Hle. lia.
Qed.

Lemma boundedSize_timeout (lockOk : bool) (now : Z) (s : System) :
  Tasks.boundedSize s -> Tasks.boundedSize (handleFrameTimeout lockOk now s).
Proof.
  intros Hs. destruct (handleFrameTimeout_spec_cases lockOk now s) as [->| ->];
    [exact Hs|exact Hs].
Qed.

Lemma boundedSize_burst (n : nat) : forall reads s,
  Forall (fun r => Z.of_nat (length (Tasks.readData r)) <= 1500) reads ->
  Tasks.boundedSize s -> Tasks.boundedSize (Tasks.burst n reads s).
Proof.
  induction n as [|n IH]; intros reads s Hall Hs; [exact Hs|].
  destruct reads as [|r rest]; [exact Hs|].
  apply Forall_cons in Hall as [Hr Hrest].
  cbn [Tasks.burst]. destruct (_ >? 0); [|exact Hs].
  apply IH; [exact Hrest|].
  apply boundedSize_packet; [unfold Config.MAX_FRAME_SIZE; lia|exact Hs].
Qed.

(** X15. The ingest task reads into a 1500-byte buffer: with reads of at
    most 1500 bytes a cycle keeps [0 <= totalSize <= MAX_FRAME_SIZE], so the
    oversized first fragment of C10 cannot come in through the task and
    every copy into the assembly buffer stays within its capacity. *)
Theorem udpCycle_bounded_size (reads : list Tasks.Read) (lockOk : bool)
    (now : Z) (s : System) :
  Forall (fun r => Z.of_nat (length (Tasks.readData r)) <= 1500) reads ->
  Tasks.boundedSize s ->
  Tasks.boundedSize (Tasks.udpCycle reads lockOk now s).
Proof.
  intros Hall Hs. unfold Tasks.udpCycle.
  apply boundedSize_timeout, boundedSize_burst; assumption.
Qed.

(** Two fragments of one frame read in one cycle. *)
Lemma udpCycle_bounded_size_witness :
  let reads := [Tasks.mkRead true 0 (datagram 1 2 0 [xff; xd8]);
                Tasks.mkRead true 1 (datagram 1 2 1 [xff; xd9])] in
  Tasks.boundedSize (Tasks.udpCycle reads true 2 initialSystem).
Proof.
  intros reads. apply udpCycle_bounded_size.
  - repeat apply Forall_cons_2; try apply Forall_nil_2; vm_compute;
      discriminate.
  - unfold Tasks.boundedSize. vm_compute. split; discriminate.
Defined.

(** ** The render loop *)

(** [assembleCompleteFrame] keeps the counters of rendered frames and of
    memory errors, and on success counts one completed frame. *)
Lemma assembleCompleteFrame_counters (s : System) :
  let r := assembleCompleteFrame s in
  completeFramesRendered (pm (fst r)) = completeFramesRendered (pm s) /\
  memoryErrors (pm (fst r)) = memoryErrors (pm s) /\
  completeFramesReceived (pm (fst r))
    = (if snd r then u32 (completeFramesReceived (pm s) + 1)
       else completeFramesReceived (pm s)).
Proof.
  cbv zeta. unfold assembleCompleteFrame.
  destruct (negb _); [cbn; auto|].
  destruct (negb _); cbn; auto.
Qed.

Lemma checkMemory_counters (freeHeap : Z) (pm : PerformanceMonitor) :
  completeFramesRendered (checkMemory freeHeap pm) = completeFramesRendered pm /\
  completeFramesReceived (checkMemory freeHeap pm) = completeFramesReceived pm.
Proof. unfold checkMemory. destruct (_ <? _); split; reflexivity. Qed.

(** The three ways through one iteration. *)
Lemma displayIteration_cases (currentTime : Z) (lockOk renderOk : bool)
    (freeHeap : Z) (t : Tasks.DisplayTask) (s : System) :
  let interval :=
    Pacing.adaptInterval (Tasks.frameCount t) currentTime
                         (Tasks.lastRenderTime t) (Tasks.adaptiveInterval t) in
  let cur := currentFrame (fp s) in
  let gate :=
    isComplete cur && negb (isRendering cur)
    && (u32 (currentTime - Tasks.lastRenderTime t) >=? interval) && lockOk in
  let a := assembleCompleteFrame s in
  let waiting :=
    Tasks.mkTask (Tasks.lastRenderTime t) (Tasks.frameCount t) interval in
  Tasks.displayIteration currentTime lockOk renderOk freeHeap t s =
    if gate then
      if snd a && renderOk then
        (Tasks.mkTask currentTime (u32 (Tasks.frameCount t + 1)) interval,
         mkSys (fp (resetCurrentFrame (fst a)))
               (checkMemory freeHeap (incrementRenderedFrames (pm (fst a)))))
      else
        (waiting,
         mkSys (fp (resetCurrentFrame (fst a)))
               (checkMemory freeHeap (pm (fst a))))
    else (waiting, mkSys (fp s) (checkMemory freeHeap (pm s))).
Proof.
  cbv zeta. unfold Tasks.displayIteration.
  destruct (isComplete _ && negb _ && (_ >=? _)); cbn [andb]; [|reflexivity].
  destruct lockOk; [|reflexivity].
  destruct (assembleCompleteFrame s) as [assembled ok].
  destruct ok; [|reflexivity]. destruct renderOk; reflexivity.
Qed.

(** X16. One iteration of the render task.  The pacing interval is
    recomputed first.  When a complete frame is waiting, the interval has
    elapsed and the display lock is taken, the frame is cleared
    ([isComplete], [isValid] false, [receivedPackets] 0) whether or not it
    assembled or rendered; the frame counts as rendered, [frameCount] grows
    and [lastRenderTime] becomes the current time only if it assembled and
    the decoder succeeded, and then a completed frame was counted too.
    Otherwise reassembler state, [frameCount] and [lastRenderTime] stay. *)
Theorem displayIteration_spec (currentTime : Z) (lockOk renderOk : bool)
    (freeHeap : Z) (t : Tasks.DisplayTask) (s : System) :
  let interval :=
    Pacing.adaptInterval (Tasks.frameCount t) currentTime
                         (Tasks.lastRenderTime t) (Tasks.adaptiveInterval t) in
  let cur := currentFrame (fp s) in
  let ready :=
    isComplete cur = true /\ isRendering cur = false /\
    u32 (currentTime - Tasks.lastRenderTime t) >= interval /\
    lockOk = true in
  let shown := snd (assembleCompleteFrame s) = true /\ renderOk = true in
  let r := Tasks.displayIteration currentTime lockOk renderOk freeHeap t s in
  let cur' := currentFrame (fp (snd r)) in
  Tasks.adaptiveInterval (fst r) = interval /\
  (ready ->
     isComplete cur' = false /\ isValid cur' = false /\
     receivedPackets cur' = 0) /\
  (ready -> shown ->
     Tasks.lastRenderTime (fst r) = currentTime /\
     Tasks.frameCount (fst r) = u32 (Tasks.frameCount t + 1) /\
     completeFramesRendered (pm (snd r))
       = u32 (completeFramesRendered (pm s) + 1) /\
     completeFramesReceived (pm (snd r))
       = u32 (completeFramesReceived (pm s) + 1)) /\
  (~ (ready /\ shown) ->
     Tasks.lastRenderTime (fst r) = Tasks.lastRenderTime t /\
     Tasks.frameCount (fst r) = Tasks.frameCount t /\
     completeFramesRendered (pm (snd r)) = completeFramesRendered (pm s)) /\
  (~ ready -> fp (snd r) = fp s /\
              completeFramesReceived (pm (snd r))
                = completeFramesReceived (pm s)).
Proof.
  intros interval cur ready shown r cur'.
  pose proof (displayIteration_cases currentTime lockOk renderOk freeHeap t s)
    as Hcases. cbv zeta in Hcases. fold interval cur in Hcases.
  pose proof (assembleCompleteFrame_counters s) as (Hrend & _ & Hrecv).
  cbv zeta in Hrend, Hrecv.
  set (gate := isComplete cur && negb (isRendering cur)
               && (u32 (currentTime - Tasks.lastRenderTime t) >=? interval)
               && lockOk) in Hcases.
  assert (Hready : ready <-> gate = true).
  { unfold ready, gate. rewrite !andb_true_iff, negb_true_iff, Z.geb_leb,
      Z.leb_le. split; [intros (H1 & H2 & H3 & H4)|intros (((H1 & H2) & H3) & H4)];
      repeat split; auto; lia. }
  assert (Hshown : shown <-> snd (assembleCompleteFrame s) && renderOk = true).
  { unfold shown. rewrite andb_true_iff. tauto. }
  subst r cur'. rewrite Hcases. clear Hcases.
  destruct gate.
  - destruct (snd (assembleCompleteFrame s) && renderOk) eqn:Eshown.
    + apply andb_true_iff in Eshown as [Eok _]. rewrite Eok in Hrecv.
      cbn [fst snd fp pm Tasks.adaptiveInterval Tasks.lastRenderTime
           Tasks.frameCount].
      destruct (checkMemory_counters freeHeap
                  (incrementRenderedFrames
                     (pm (fst (assembleCompleteFrame s))))) as [-> ->].
      cbn [incrementRenderedFrames completeFramesRendered
           completeFramesReceived]. rewrite Hrend, Hrecv.
      split; [reflexivity|]. split; [intros _; cbn; auto|].
      split; [intros _ _; auto|].
      split; [intros Hnot; exfalso; apply Hnot; split;
              [apply Hready|apply Hshown]; reflexivity|].
      intros Hnot. exfalso. apply Hnot, Hready. reflexivity.
    + cbn [fst snd fp pm Tasks.adaptiveInterval Tasks.lastRenderTime
           Tasks.frameCount].
      destruct (checkMemory_counters freeHeap
                  (pm (fst (assembleCompleteFrame s)))) as [-> _].
      rewrite Hrend.
      split; [reflexivity|]. split; [intros _; cbn; auto|].
      split; [intros _ H; apply Hshown in H; discriminate|].
      split; [intros _; auto|].
      intros Hnot. exfalso. apply Hnot, Hready. reflexivity.
  - cbn [fst snd fp pm Tasks.adaptiveInterval Tasks.lastRenderTime
         Tasks.frameCount].
    destruct (checkMemory_counters freeHeap (pm s)) as [-> ->].
    split; [reflexivity|].
    split; [intros H; apply Hready in H; discriminate|].
    split; [intros H; apply Hready in H; discriminate|].
    split; [intros _; auto|]. intros _. auto.
Qed.

(** What both loops keep: the pacing interval within its configured range,
    the arrays at their capacities, and [isValid] clear between cycles. *)
Lemma systemStep_keeps (st : Tasks.DisplayTask * System) (e : Tasks.Event) :
  Config.FAST_RENDER_INTERVAL <= Tasks.adaptiveInterval (fst st)
    <= Config.MIN_RENDER_INTERVAL ->
  wellShaped (snd st) ->
  isValid (currentFrame (fp (snd st))) = false ->
  Config.FAST_RENDER_INTERVAL
    <= Tasks.adaptiveInterval (fst (Tasks.systemStep st e))
    <= Config.MIN_RENDER_INTERVAL /\
  wellShaped (snd (Tasks.systemStep st e)) /\
  isValid (currentFrame (fp (snd (Tasks.systemStep st e)))) = false.
Proof.
  destruct st as [t s]. cbn [fst snd]. intros Hrange Hshape Hvalid.
  destruct e as [reads lockOk now|k]; cbn [Tasks.systemStep fst snd].
  - split; [exact Hrange|].
    unfold Tasks.udpCycle. rewrite burst_run.
    set (ops := Tasks.burstOps 3 reads).
    assert (Hkeep : forall ops s0, isValid (currentFrame (fp s0)) = false ->
              Forall (fun o => o <> OpAssemble) ops ->
              isValid (currentFrame (fp (run ops s0))) = false).
    { clear. induction ops as [|o ops IH]; intros s0 H0 Hall; [exact H0|].
      apply Forall_cons in Hall as [Ho Hall].
      unfold run. cbn [foldl]. apply IH; [|exact Hall].
      destruct (isValid (currentFrame (fp (step s0 o)))) eqn:E; [|reflexivity].
      destruct (isValid_rises s0 o H0 E) as [Hassemble _]. contradiction. }
    assert (Hops : Forall (fun o => o <> OpAssemble) ops).
    { assert (Hany : forall n rs,
                Forall (fun o => o <> OpAssemble) (Tasks.burstOps n rs)).
      { clear. induction n as [|n IH]; intros rs; [constructor|].
        destruct rs as [|r rest]; [constructor|].
        cbn [Tasks.burstOps]. destruct (_ >? 0); [|constructor].
        constructor; [discriminate|apply IH]. }
      apply Hany. }
    split.
    + change (handleFrameTimeout lockOk now (run ops s))
        with (step (run ops s) (OpTimeout lockOk now)).
      apply wellShaped_step, wellShaped_run, Hshape.
    + destruct (handleFrameTimeout_spec_cases lockOk now (run ops s))
        as [->| ->]; [|unfold abortedBy; cbn [fp currentFrame isValid]];
        apply Hkeep; assumption.
  - rewrite displayIteration_cases. cbv zeta.
    assert (Hnext : Config.FAST_RENDER_INTERVAL
              <= Pacing.adaptInterval (Tasks.frameCount t) (Tasks.tickTime k)
                   (Tasks.lastRenderTime t) (Tasks.adaptiveInterval t)
              <= Config.MIN_RENDER_INTERVAL)
      by (apply adaptInterval_in_range; exact Hrange).
    assert (Hreset : wellShaped (resetCurrentFrame (fst (assembleCompleteFrame s)))).
    { change (wellShaped (step (step s OpAssemble) OpReset)).
      apply wellShaped_step, wellShaped_step, Hshape. }
    destruct (_ && _ && _ && _).
    + destruct (_ && _); cbn [fst snd Tasks.adaptiveInterval fp];
        (split; [exact Hnext|]); (split; [exact Hreset|reflexivity]).
    + cbn [fst snd Tasks.adaptiveInterval fp].
      split; [exact Hnext|]. split; [exact Hshape|exact Hvalid].
Qed.

(** X17. Whatever the datagrams, clock values, lock outcomes and decoder
    results, after any sequence of whole cycles of the ingest and render
    loops from start-up the pacing interval lies between
    [FAST_RENDER_INTERVAL] and [MIN_RENDER_INTERVAL], the three arrays have
    their capacities with [totalPackets <= MAX_PACKETS], and [isValid] is
    false: it is set and cleared inside one render iteration and never seen
    set between cycles. *)
Theorem systemRun_invariant (events : list Tasks.Event) :
  let st := Tasks.systemRun events in
  Config.FAST_RENDER_INTERVAL <= Tasks.adaptiveInterval (fst st)
    <= Config.MIN_RENDER_INTERVAL /\
  wellShaped (snd st) /\
  isValid (currentFrame (fp (snd st))) = false.
Proof.
  cbv zeta. unfold Tasks.systemRun.
  assert (H : forall st,
            Config.FAST_RENDER_INTERVAL <= Tasks.adaptiveInterval (fst st)
              <= Config.MIN_RENDER_INTERVAL ->
            wellShaped (snd st) ->
            isValid (currentFrame (fp (snd st))) = false ->
            let st' := foldl Tasks.systemStep st events in
            Config.FAST_RENDER_INTERVAL <= Tasks.adaptiveInterval (fst st')
              <= Config.MIN_RENDER_INTERVAL /\
            wellShaped (snd st') /\
            isValid (currentFrame (fp (snd st'))) = false).
  { induction events as [|e events IH]; intros st H1 H2 H3; [auto|].
    cbn [foldl]. destruct (systemStep_keeps st e H1 H2 H3) as (K1 & K2 & K3).
    apply IH; assumption. }
  apply H.
  - cbn. unfold Config.FAST_RENDER_INTERVAL, Config.MIN_RENDER_INTERVAL. lia.
  - exact wellShaped_initial.
  - reflexivity.
Qed.

(** ** Flushing the pixel buffer to the device *)

(** From strip [k] on, the strip loop makes the calls of the strips
    [k .. 31], whatever the buffer holds. *)
Lemma stripLoop_calls (buffer : list Z) : forall fuel k,
  (k <= 32)%nat -> (32 - k <= fuel)%nat ->
  fst (Flush.stripLoop Flush.stripHeight buffer
         (Flush.stripHeight * Z.of_nat k) fuel)
  = flat_map (Flush.strip buffer) (seq k (32 - k)).
Proof.
  change Flush.stripHeight with 10 at 1 2.
  induction fuel as [|fuel IH]; intros k Hk Hfuel.
  - replace (32 - k)%nat with 0%nat by lia. reflexivity.
  - cbn [Flush.stripLoop]. unfold Config.DISPLAY_HEIGHT.
    destruct (10 * Z.of_nat k <? 320) eqn:Erow.
    + apply Z.ltb_lt in Erow.
      assert (Hnext : u16 (10 * Z.of_nat k + 10) = 10 * Z.of_nat (S k))
        by (unfold u16; rewrite Z.mod_small; lia).
      rewrite Hnext.
      specialize (IH (S k) ltac:(lia) ltac:(lia)).
      destruct (Flush.stripLoop 10 buffer (10 * Z.of_nat (S k)) fuel)
        as [calls yields].
      cbn [fst] in IH |- *. rewrite IH.
      replace (32 - k)%nat with (S (32 - S k)) by lia.
      cbn [seq flat_map]. unfold Flush.strip at 2.
      change Flush.stripHeight with 10. unfold Config.DISPLAY_WIDTH.
      assert (Hheight : Z.min (u16 10) (u16 (320 - 10 * Z.of_nat k)) = 10).
      { unfold u16. rewrite (Z.mod_small 10) by lia.
        rewrite (Z.mod_small (320 - 10 * Z.of_nat k)) by lia. lia. }
      rewrite Hheight.
      assert (Hoffset : u32 (10 * Z.of_nat k * 480) = 10 * Z.of_nat k * 480)
        by (unfold u32; rewrite Z.mod_small; lia).
      rewrite Hoffset.
      assert (Hsend : u32 (10 * 480) = 10 * 480) by reflexivity.
      rewrite Hsend. reflexivity.
    + apply Z.ltb_ge in Erow.
      replace (32 - k)%nat with 0%nat by lia. reflexivity.
Qed.

(** The strips [k .. k + n - 1] carry the pixels of their rows in order. *)
Lemma strips_pushed (buffer : list Z) : forall n k,
  Flush.pushed (flat_map (Flush.strip buffer) (seq k n))
  = take (Z.to_nat (4800 * Z.of_nat n))
         (drop (Z.to_nat (4800 * Z.of_nat k)) buffer).
Proof.
  induction n as [|n IH]; intros k; [reflexivity|].
  cbn [seq flat_map]. unfold Flush.strip at 1.
  change Flush.stripHeight with 10. unfold Config.DISPLAY_WIDTH.
  cbn [app Flush.pushed]. rewrite IH.
  replace (Z.to_nat (4800 * Z.of_nat (S k)))
    with (Z.to_nat (4800 * Z.of_nat k) + Z.to_nat 4800)%nat by lia.
  rewrite <- drop_drop.
  replace (Z.to_nat (10 * Z.of_nat k * 480))
    with (Z.to_nat (4800 * Z.of_nat k)) by lia.
  replace (Z.to_nat (10 * 480)) with (Z.to_nat 4800) by lia.
  rewrite take_take_drop. f_equal. lia.
Qed.

Lemma pushed_framed (calls : list Flush.TftWrite) :
  Flush.pushed ([Flush.StartWrite] ++ calls ++ [Flush.EndWrite])
  = Flush.pushed calls.
Proof.
  cbn [app Flush.pushed].
  induction calls as [|c calls IH]; [reflexivity|].
  destruct c; cbn [app Flush.pushed]; rewrite ?IH; reflexivity.
Qed.

Lemma fastStripTransfer_calls (buffer : list Z) :
  fst (Flush.fastStripTransfer (Some buffer))
  = [Flush.StartWrite] ++ flat_map (Flush.strip buffer) (seq 0 32)
    ++ [Flush.EndWrite].
Proof.
  unfold Flush.fastStripTransfer.
  pose proof (stripLoop_calls buffer (Z.to_nat Config.DISPLAY_HEIGHT) 0
                ltac:(lia) ltac:(unfold Config.DISPLAY_HEIGHT; lia)) as H.
  change (Flush.stripHeight * Z.of_nat 0) with 0 in H.
  destruct (Flush.stripLoop _ _ _ _) as [calls yields].
  cbn [fst] in H |- *. rewrite H. reflexivity.
Qed.

Lemma fastStripTransfer_pushed (buffer : list Z) :
  Z.of_nat (length buffer) = Config.DISPLAY_WIDTH * Config.DISPLAY_HEIGHT ->
  Flush.pushed (fst (Flush.fastStripTransfer (Some buffer))) = buffer.
Proof.
  unfold Config.DISPLAY_WIDTH, Config.DISPLAY_HEIGHT. intros Hlen.
  rewrite fastStripTransfer_calls, pushed_framed, strips_pushed.
  change (Z.to_nat (4800 * Z.of_nat 0)) with 0%nat. rewrite drop_0.
  apply take_ge. lia.
Qed.

(** X18. Flushing a pixel buffer of [DISPLAY_WIDTH * DISPLAY_HEIGHT] pixels
    sends, between [startWrite] and [endWrite], 32 strips of 10 full rows:
    strip [k] sets the window [(0, 10k, 480, 10)] and pushes the 4800 pixels
    at offset [4800k].  The pixels pushed are the whole buffer, each once
    and in order, and the task yields 8 times, once every fourth strip. *)
Theorem fastStripTransfer_whole_buffer (buffer : list Z) :
  Z.of_nat (length buffer) = Config.DISPLAY_WIDTH * Config.DISPLAY_HEIGHT ->
  let calls := fst (Flush.fastStripTransfer (Some buffer)) in
  calls = [Flush.StartWrite] ++ flat_map (Flush.strip buffer) (seq 0 32)
          ++ [Flush.EndWrite] /\
  Flush.windows calls
  = map (fun k => (0, 10 * Z.of_nat k, 480, 10)) (seq 0 32) /\
  Flush.pushed calls = buffer /\
  snd (Flush.fastStripTransfer (Some buffer)) = 8%nat.
Proof.
  intros Hlen. cbv zeta. split; [apply fastStripTransfer_calls|]. split.
  - rewrite fastStripTransfer_calls. reflexivity.
  - split; [apply fastStripTransfer_pushed, Hlen|].
    vm_compute. reflexivity.
Qed.

Lemma fastStripTransfer_whole_buffer_witness :
  let buffer := replicate (Z.to_nat 153600) 0 in
  Flush.pushed (fst (Flush.fastStripTransfer (Some buffer))) = buffer.
Proof.
  cbv zeta.
  apply (fastStripTransfer_whole_buffer (replicate (Z.to_nat 153600) 0)).
  rewrite length_replicate, Z2Nat.id by lia. reflexivity.
Defined.

(** ** Rendering one frame *)

(** One call of the callback: a tile turned away changes nothing; a tile
    taken advances [callCount] by one, yielding and starting over at 32;
    the pixel buffer stays present or absent and keeps its size, and with a
    pixel buffer the device is not called. *)
Lemma callback_step (dm : Display.DisplayManager) (t : Render.Tile) :
  0 <= Display.callCount dm < 32 ->
  let dm' := fst (Render.callback dm t) in
  snd (Render.callback dm t) = Render.taken t /\
  (Render.taken t = false -> dm' = dm) /\
  (Render.taken t = true ->
   Display.callCount dm' = (Display.callCount dm + 1) mod 32 /\
   Display.yields dm'
   = (Display.yields dm + Z.to_nat ((Display.callCount dm + 1) / 32))%nat) /\
  match Display.displayBuffer dm with
  | Some buffer =>
      exists buffer', Display.displayBuffer dm' = Some buffer' /\
                      length buffer' = length buffer /\
                      Display.tft dm' = Display.tft dm
  | None => Display.displayBuffer dm' = None
  end.
Proof.
  intros Hcount. cbv zeta.
  unfold Render.callback, Render.taken, Display.highSpeedTftOutput.
  destruct (Render.tileBitmap t) as [pixels|].
  2:{ cbn [fst snd]. repeat split; try discriminate.
      destruct (Display.displayBuffer dm) as [b|]; eauto. }
  destruct (_ || _).
  { cbn [fst snd negb]. repeat split; try discriminate.
    destruct (Display.displayBuffer dm) as [b|]; eauto. }
  cbn [negb].
  set (w := if _ >? Config.DISPLAY_WIDTH then _ else _).
  set (h := if _ >? Config.DISPLAY_HEIGHT then _ else _).
  assert (Hu16 : u16 (Display.callCount dm + 1) = Display.callCount dm + 1)
    by (unfold u16; rewrite Z.mod_small; lia).
  rewrite Hu16.
  assert (Hshape :
    match Display.displayBuffer dm with
    | Some buffer =>
        exists buffer',
          fst (if (w >? 0) && (h >? 0)
               then match Display.displayBuffer dm with
                    | Some buffer0 =>
                        (Some (Display.copyRows (Render.tileX t)
                                 (Render.tileY t) w pixels 0 (Z.to_nat h)
                                 buffer0), Display.tft dm)
                    | None =>
                        (None, Display.tft dm
                               ++ [Display.PushImage (Render.tileX t)
                                     (Render.tileY t) w h pixels])
                    end
               else (Display.displayBuffer dm, Display.tft dm))
          = Some buffer' /\ length buffer' = length buffer /\
          snd (if (w >? 0) && (h >? 0)
               then match Display.displayBuffer dm with
                    | Some buffer0 =>
                        (Some (Display.copyRows (Render.tileX t)
                                 (Render.tileY t) w pixels 0 (Z.to_nat h)
                                 buffer0), Display.tft dm)
                    | None =>
                        (None, Display.tft dm
                               ++ [Display.PushImage (Render.tileX t)
                                     (Render.tileY t) w h pixels])
                    end
               else (Display.displayBuffer dm, Display.tft dm))
          = Display.tft dm
    | None =>
        fst (if (w >? 0) && (h >? 0)
             then match Display.displayBuffer dm with
                  | Some buffer0 =>
                      (Some (Display.copyRows (Render.tileX t)
                               (Render.tileY t) w pixels 0 (Z.to_nat h)
                               buffer0), Display.tft dm)
                  | None =>
                      (None, Display.tft dm
                             ++ [Display.PushImage (Render.tileX t)
                                   (Render.tileY t) w h pixels])
                  end
             else (Display.displayBuffer dm, Display.tft dm))
        = None
    end).
  { destruct (Display.displayBuffer dm) as [b|];
      destruct ((w >? 0) && (h >? 0)); cbn [fst snd]; eauto.
    eexists. split; [reflexivity|]. split; [apply copyRows_length|reflexivity]. }
  destruct (if (w >? 0) && (h >? 0) then _ else _) as [buffer calls].
  cbn [fst snd] in Hshape.
  destruct ((Display.callCount dm + 1) mod 32 =? 0) eqn:Ewrap;
    cbn [fst snd Display.callCount Display.yields Display.displayBuffer
         Display.tft].
  - apply Z.eqb_eq in Ewrap.
    assert (Hlast : Display.callCount dm = 31).
    { destruct (Z.eq_dec (Display.callCount dm) 31) as [|Hne]; [assumption|].
      rewrite Z.mod_small in Ewrap; lia. }
    split; [reflexivity|]. split; [discriminate|]. split.
    + intros _. rewrite Hlast. split; [reflexivity|].
      change (Z.to_nat ((31 + 1) / 32)) with 1%nat. lia.
    + exact Hshape.
  - apply Z.eqb_neq in Ewrap.
    assert (Hsmall : Display.callCount dm + 1 < 32).
    { destruct (Z.eq_dec (Display.callCount dm) 31) as [E|Hne]; [|lia].
      rewrite E in Ewrap. exfalso. apply Ewrap. reflexivity. }
    split; [reflexivity|]. split; [discriminate|]. split.
    + intros _. rewrite Z.mod_small by lia. split; [reflexivity|].
      rewrite Z.div_small by lia. change (Z.to_nat 0) with 0%nat. lia.
    + exact Hshape.
Qed.

(** X19. Over the calls of the callback one decoding makes, with
    [callCount] below 32 at the start (it starts at 0): [callCount] counts
    the tiles taken modulo 32 and stays below 32, the task yields once per
    32 tiles taken, and tiles turned away count for nothing. *)
Theorem callbacks_yield_cadence (tiles : list Render.Tile)
    (dm : Display.DisplayManager) :
  0 <= Display.callCount dm < 32 ->
  let dm' := Render.callbacks tiles dm in
  let n := Display.callCount dm + Render.takenCount tiles in
  Display.callCount dm' = n mod 32 /\
  0 <= Display.callCount dm' < 32 /\
  Display.yields dm' = (Display.yields dm + Z.to_nat (n / 32))%nat.
Proof.
  cbv zeta. revert dm.
  induction tiles as [|t tiles IH]; intros dm Hcount.
  - unfold Render.callbacks, Render.takenCount. cbn [foldl List.filter length].
    change (Z.of_nat 0) with 0. rewrite Z.add_0_r.
    rewrite Z.mod_small, Z.div_small by lia.
    change (Z.to_nat 0) with 0%nat. lia.
  - unfold Render.callbacks. cbn [foldl].
    fold (Render.callbacks tiles (fst (Render.callback dm t))).
    destruct (callback_step dm t Hcount) as (_ & Hskip & Htake & _).
    unfold Render.takenCount. cbn [List.filter].
    destruct (Render.taken t) eqn:Et.
    + destruct (Htake eq_refl) as [Hc Hy].
      assert (Hnext : 0 <= Display.callCount (fst (Render.callback dm t)) < 32)
        by (rewrite Hc; apply Z.mod_pos_bound; lia).
      destruct (IH _ Hnext) as (IH1 & IH2 & IH3).
      unfold Render.takenCount in IH1, IH3.
      cbn [length]. rewrite Nat2Z.inj_succ.
      set (m := Z.of_nat (length (List.filter Render.taken tiles))) in *.
      set (c := Display.callCount dm) in *.
      assert (Hm : 0 <= m) by (unfold m; lia).
      rewrite IH1, IH3, Hc, Hy.
      pose proof (Z.div_mod (c + 1) 32 ltac:(lia)) as D1.
      pose proof (Z.mod_pos_bound (c + 1) 32 ltac:(lia)) as B1.
      set (q1 := (c + 1) / 32) in *. set (r1 := (c + 1) mod 32) in *.
      assert (Hq1 : 0 <= q1) by (unfold q1; apply Z.div_pos; lia).
      assert (Hsum : c + Z.succ m = (r1 + m) + q1 * 32) by lia.
      rewrite Hsum, Z.mod_add, Z.div_add by lia.
      assert (Hq2 : 0 <= (r1 + m) / 32) by (apply Z.div_pos; lia).
      split; [reflexivity|]. split; [apply Z.mod_pos_bound; lia|]. lia.
    + rewrite (Hskip eq_refl). apply IH, Hcount.
Qed.

Lemma callbacks_yield_cadence_witness :
  let dm := Display.mkDM None [] 30 0 in
  let tiles := replicate 3 (Render.mkTile 0 0 16 16 (Some [])) in
  Display.callCount (Render.callbacks tiles dm) = 1 /\
  0 <= Display.callCount (Render.callbacks tiles dm) < 32 /\
  Display.yields (Render.callbacks tiles dm) = 1%nat.
Proof.
  cbv zeta.
  apply (callbacks_yield_cadence
           (replicate 3 (Render.mkTile 0 0 16 16 (Some [])))
           (Display.mkDM None [] 30 0)).
  cbn. lia.
Defined.

(** With a pixel buffer the callbacks keep it present and at its size and
    never call the device. *)
Lemma callbacks_buffered (tiles : list Render.Tile) :
  forall (dm : Display.DisplayManager) (buffer : list Z),
  0 <= Display.callCount dm < 32 ->
  Display.displayBuffer dm = Some buffer ->
  exists buffer',
    Display.displayBuffer (Render.callbacks tiles dm) = Some buffer' /\
    length buffer' = length buffer /\
    Display.tft (Render.callbacks tiles dm) = Display.tft dm.
Proof.
  induction tiles as [|t tiles IH]; intros dm buffer Hcount Hbuf.
  - exists buffer. auto.
  - unfold Render.callbacks. cbn [foldl].
    fold (Render.callbacks tiles (fst (Render.callback dm t))).
    destruct (callback_step dm t Hcount) as (_ & Hskip & Htake & Hshape).
    rewrite Hbuf in Hshape. destruct Hshape as (b1 & Hb1 & Hlen1 & Htft1).
    assert (Hnext : 0 <= Display.callCount (fst (Render.callback dm t)) < 32).
    { destruct (Render.taken t) eqn:Et.
      - destruct (Htake eq_refl) as [-> _]. apply Z.mod_pos_bound. lia.
      - rewrite (Hskip eq_refl). exact Hcount. }
    destruct (IH _ b1 Hnext Hb1) as (b2 & Hb2 & Hlen2 & Htft2).
    exists b2. split; [exact Hb2|]. split; congruence.
Qed.

(** Without a pixel buffer none appears. *)
Lemma callbacks_unbuffered (tiles : list Render.Tile) :
  forall (dm : Display.DisplayManager),
  0 <= Display.callCount dm < 32 ->
  Display.displayBuffer dm = None ->
  Display.displayBuffer (Render.callbacks tiles dm) = None.
Proof.
  induction tiles as [|t tiles IH]; intros dm Hcount Hbuf; [exact Hbuf|].
  unfold Render.callbacks. cbn [foldl].
  fold (Render.callbacks tiles (fst (Render.callback dm t))).
  destruct (callback_step dm t Hcount) as (_ & Hskip & Htake & Hshape).
  rewrite Hbuf in Hshape.
  apply IH; [|exact Hshape].
  destruct (Render.taken t) eqn:Et.
  - destruct (Htake eq_refl) as [-> _]. apply Z.mod_pos_bound. lia.
  - rewrite (Hskip eq_refl). exact Hcount.
Qed.

Lemma list_inserts_replicate {A} (x : A) (l : list A) :
  list_inserts 0 (replicate (length l) x) l = replicate (length l) x.
Proof.
  rewrite list_inserts_splice by (rewrite length_replicate; lia).
  rewrite length_replicate, take_0, drop_ge by lia.
  apply app_nil_r.
Qed.

Lemma clearDisplayBuffer_zero (dm : Display.DisplayManager) (buffer : list Z) :
  Display.displayBuffer dm = Some buffer ->
  Z.of_nat (length buffer) = Config.DISPLAY_WIDTH * Config.DISPLAY_HEIGHT ->
  Render.clearDisplayBuffer dm
  = Display.mkDM
      (Some (replicate
               (Z.to_nat (Config.DISPLAY_WIDTH * Config.DISPLAY_HEIGHT)) 0))
      (Display.tft dm) (Display.callCount dm) (Display.yields dm).
Proof.
  intros Hbuf Hlen. unfold Render.clearDisplayBuffer. rewrite Hbuf.
  assert (Hsize : Startup.DISPLAY_BUFFER_SIZE / 2
                  = Config.DISPLAY_WIDTH * Config.DISPLAY_HEIGHT)
    by (vm_compute; reflexivity).
  rewrite Hsize, <- Hlen, Nat2Z.id, list_inserts_replicate. reflexivity.
Qed.

(** X20. Rendering a frame with a pixel buffer of
    [DISPLAY_WIDTH * DISPLAY_HEIGHT] pixels, for data given and a size other
    than 0: the value returned is the decoder's; the picture left in the
    buffer is that of the same tiles drawn on an all-zero buffer, so nothing
    of the buffer's former content survives; the tiles themselves never
    reach the device; and if the decoder succeeded the device is sent
    exactly that picture, every pixel once and in order, otherwise nothing. *)
Theorem renderFrameHighSpeed_buffered (data : list byte) (size : Z)
    (tiles : list Render.Tile) (success : bool)
    (dm : Display.DisplayManager) (buffer : list Z) :
  size <> 0 ->
  0 <= Display.callCount dm < 32 ->
  Display.displayBuffer dm = Some buffer ->
  Z.of_nat (length buffer) = Config.DISPLAY_WIDTH * Config.DISPLAY_HEIGHT ->
  let r := Render.renderFrameHighSpeed (Some data) size tiles success dm in
  let blank :=
    Display.mkDM
      (Some (replicate
               (Z.to_nat (Config.DISPLAY_WIDTH * Config.DISPLAY_HEIGHT)) 0))
      (Display.tft dm) (Display.callCount dm) (Display.yields dm) in
  snd r = success /\
  Display.tft (fst (fst r)) = Display.tft dm /\
  Display.displayBuffer (fst (fst r))
  = Display.displayBuffer (Render.callbacks tiles blank) /\
  exists picture,
    Display.displayBuffer (fst (fst r)) = Some picture /\
    Z.of_nat (length picture) = Config.DISPLAY_WIDTH * Config.DISPLAY_HEIGHT /\
    (if success then Flush.pushed (snd (fst r)) = picture
     else snd (fst r) = []).
Proof.
  intros Hsize Hcount Hbuf Hlen. cbv zeta.
  unfold Render.renderFrameHighSpeed.
  destruct (size =? 0) eqn:Ezero; [apply Z.eqb_eq in Ezero; contradiction|].
  rewrite (clearDisplayBuffer_zero dm buffer Hbuf Hlen).
  set (blank := Display.mkDM _ _ _ _).
  destruct (callbacks_buffered tiles blank
              (replicate
                 (Z.to_nat (Config.DISPLAY_WIDTH * Config.DISPLAY_HEIGHT)) 0)
              Hcount eq_refl) as (picture & Hpic & Hplen & Htft).
  rewrite length_replicate in Hplen.
  assert (Hpixels : Z.of_nat (length picture)
                    = Config.DISPLAY_WIDTH * Config.DISPLAY_HEIGHT).
  { rewrite Hplen. unfold Config.DISPLAY_WIDTH, Config.DISPLAY_HEIGHT. lia. }
  rewrite Hpic. destruct success; cbn [andb].
  - pose proof (fastStripTransfer_pushed picture Hpixels) as Hpush.
    destruct (Flush.fastStripTransfer (Some picture)) as [calls n].
    cbn [fst snd Display.tft Display.displayBuffer] in *.
    split; [reflexivity|]. split; [exact Htft|]. split; [reflexivity|].
    exists picture. auto.
  - cbn [fst snd]. split; [reflexivity|]. split; [exact Htft|].
    split; [exact Hpic|]. exists picture. auto.
Qed.

Lemma renderFrameHighSpeed_buffered_witness :
  let buffer := replicate (Z.to_nat 153600) 7 in
  let dm := Display.mkDM (Some buffer) [] 0 0 in
  snd (Render.renderFrameHighSpeed (Some []) 2 [] true dm) = true.
Proof.
  cbv zeta.
  apply (renderFrameHighSpeed_buffered [] 2 [] true
           (Display.mkDM (Some (replicate (Z.to_nat 153600) 7)) [] 0 0)
           (replicate (Z.to_nat 153600) 7)).
  - discriminate.
  - cbn. lia.
  - reflexivity.
  - rewrite length_replicate, Z2Nat.id by lia. reflexivity.
Defined.
(** ** Pacing thresholds in milliseconds *)

Lemma avgFPS_elapsed (currentTime lastRenderTime : Z) :
  Pacing.avgFPS currentTime lastRenderTime
  = Pacing.avgFPS (u32 (currentTime - lastRenderTime)) 0.
Proof.
  unfold Pacing.avgFPS. rewrite Z.sub_0_r.
  assert (Hidem : u32 (u32 (currentTime - lastRenderTime))
                  = u32 (currentTime - lastRenderTime)).
  { unfold u32. apply Z.mod_small. apply Z.mod_pos_bound. lia. }
  rewrite Hidem. reflexivity.
Qed.

(** X21. At a sampling point, for a gap of at most 4095 ms since the last
    render (computed in [uint32_t]), the float comparisons amount to integer
    thresholds on the gap: at most 453 ms slows the loop by one millisecond
    (capped at [MIN_RENDER_INTERVAL]), at least 555 ms speeds it up by one
    (capped at [FAST_RENDER_INTERVAL]), anything between leaves the interval
    as it is. *)
Theorem adaptInterval_thresholds (frameCount currentTime lastRenderTime
    interval : Z) :
  frameCount mod 30 = 0 -> 0 < frameCount ->
  u32 (currentTime - lastRenderTime) <= 4095 ->
  Pacing.adaptInterval frameCount currentTime lastRenderTime interval
  = if u32 (currentTime - lastRenderTime) <=? 453
    then Z.min (u32 (interval + 1)) Config.MIN_RENDER_INTERVAL
    else if 555 <=? u32 (currentTime - lastRenderTime)
         then Z.max (u32 (interval - 1)) Config.FAST_RENDER_INTERVAL
         else interval.
Proof.
  intros Hmod Hpos Hgap.
  assert (Hlow : 0 <= u32 (currentTime - lastRenderTime))
    by (unfold u32; apply Z.mod_pos_bound; lia).
  unfold Pacing.adaptInterval.
  rewrite Hmod. cbn [Z.eqb andb].
  assert (Hgt : (frameCount >? 0) = true) by lia. rewrite Hgt.
  cbv zeta. rewrite avgFPS_elapsed.
  set (elapsed := u32 (currentTime - lastRenderTime)) in *.
  pose proof pacing_comparisons_exact as Hexact.
  rewrite forallb_forall in Hexact.
  specialize (Hexact (Z.to_nat elapsed)).
  assert (Hin : In (Z.to_nat elapsed) (seq 0 4096)).
  { apply in_seq. split; [apply Nat.le_0_l|].
    change (0 + 4096)%nat with (Z.to_nat 4096). apply Z2Nat.inj_lt; lia. }
  specialize (Hexact Hin). cbv zeta in Hexact.
  rewrite Z2Nat.id in Hexact by lia.
  apply andb_prop in Hexact as [Habove Hbelow].
  apply Bool.eqb_prop in Habove, Hbelow.
  rewrite Habove, Hbelow.
  destruct (elapsed <=? 453) eqn:Eslow.
  - apply Z.leb_le in Eslow.
    assert (H : (66 * (elapsed + 1) <? 30000) = true) by lia.
    rewrite H. reflexivity.
  - apply Z.leb_gt in Eslow.
    assert (H : (66 * (elapsed + 1) <? 30000) = false) by lia.
    rewrite H.
    destruct (555 <=? elapsed) eqn:Efast.
    + apply Z.leb_le in Efast.
      assert (H' : (30000 <? 54 * (elapsed + 1)) = true) by lia.
      rewrite H'. reflexivity.
    + apply Z.leb_gt in Efast.
      assert (H' : (30000 <? 54 * (elapsed + 1)) = false) by lia.
      rewrite H'. reflexivity.
Qed.

Lemma adaptInterval_thresholds_witness :
  Pacing.adaptInterval 30 1600 1000 12 = 11.
Proof.
  apply (adaptInterval_thresholds 30 1600 1000 12).
  - reflexivity.
  - lia.
  - vm_compute. discriminate.
Defined.

(** ** Counters across both loops *)

(** The ingest loop leaves the counters of completed and of rendered
    frames alone. *)
Lemma processPacket_render_counters (lockOk : bool) (now : Z)
    (packetData : list byte) (s : System) :
  let s' := fst (processPacket lockOk now packetData s) in
  completeFramesReceived (pm s') = completeFramesReceived (pm s) /\
  completeFramesRendered (pm s') = completeFramesRendered (pm s).
Proof.
  cbv zeta.
  destruct (processPacket_cases lockOk now packetData s)
    as [->|[(_ & _ & _ & ->)|[(_ & _ & _ & ->)|(_ & _ & _ & _ & _ & _ & ->)]]];
    split; reflexivity.
Qed.

Lemma udpCycle_render_counters (reads : list Tasks.Read) (lockOk : bool)
    (now : Z) (s : System) :
  let s' := Tasks.udpCycle reads lockOk now s in
  completeFramesReceived (pm s') = completeFramesReceived (pm s) /\
  completeFramesRendered (pm s') = completeFramesRendered (pm s).
Proof.
  cbv zeta. unfold Tasks.udpCycle.
  assert (Hburst : forall n rs s0,
            completeFramesReceived (pm (Tasks.burst n rs s0))
              = completeFramesReceived (pm s0) /\
            completeFramesRendered (pm (Tasks.burst n rs s0))
              = completeFramesRendered (pm s0)).
  { induction n as [|n IH]; intros rs s0; [split; reflexivity|].
    destruct rs as [|r rest]; [split; reflexivity|].
    cbn [Tasks.burst]. destruct (_ >? 0); [|split; reflexivity].
    destruct (IH rest (fst (processPacket (Tasks.readLock r) (Tasks.readNow r)
                                          (Tasks.readData r) s0))) as [-> ->].
    apply processPacket_render_counters. }
  destruct (Hburst 3%nat reads s) as [H1 H2].
  destruct (handleFrameTimeout_spec_cases lockOk now (Tasks.burst 3 reads s))
    as [->| ->]; [split; assumption|].
  unfold abortedBy. cbn [pm completeFramesReceived completeFramesRendered].
  split; assumption.
Qed.

(** One step of either loop keeps rendered <= completed <= n, and lets the
    bound grow by one. *)
Lemma systemStep_render_counters (st : Tasks.DisplayTask * System)
    (e : Tasks.Event) (n : Z) :
  n < 4294967295 ->
  0 <= completeFramesRendered (pm (snd st))
    <= completeFramesReceived (pm (snd st)) ->
  completeFramesReceived (pm (snd st)) <= n ->
  let st' := Tasks.systemStep st e in
  0 <= completeFramesRendered (pm (snd st'))
    <= completeFramesReceived (pm (snd st')) /\
  completeFramesReceived (pm (snd st')) <= n + 1.
Proof.
  destruct st as [t s]. cbn [snd]. intros Hn Hle Hbound. cbv zeta.
  destruct e as [reads lockOk now|k]; cbn [Tasks.systemStep fst snd].
  - destruct (udpCycle_render_counters reads lockOk now s) as [-> ->]. lia.
  - rewrite displayIteration_cases. cbv zeta.
    destruct (assembleCompleteFrame_counters s) as (Hr & _ & Hc).
    cbv zeta in Hr, Hc.
    destruct (_ && _ && _ && _).
    + destruct (snd (assembleCompleteFrame s)) eqn:Eok; cbn [andb].
      * assert (Hgrow : completeFramesReceived (pm (fst (assembleCompleteFrame s)))
                        = completeFramesReceived (pm s) + 1)
          by (rewrite Hc; unfold u32; apply Z.mod_small; lia).
        destruct (Tasks.tickRender k); cbn [snd pm].
        -- destruct (checkMemory_counters (Tasks.tickHeap k)
                       (incrementRenderedFrames
                          (pm (fst (assembleCompleteFrame s))))) as [-> ->].
           cbn [incrementRenderedFrames completeFramesRendered
                completeFramesReceived].
           rewrite Hr, Hgrow. unfold u32. rewrite Z.mod_small by lia. lia.
        -- destruct (checkMemory_counters (Tasks.tickHeap k)
                       (pm (fst (assembleCompleteFrame s)))) as [-> ->].
           rewrite Hr, Hgrow. lia.
      * cbn [snd pm].
        destruct (checkMemory_counters (Tasks.tickHeap k)
                    (pm (fst (assembleCompleteFrame s)))) as [-> ->].
        rewrite Hr, Hc. lia.
    + cbn [snd pm].
      destruct (checkMemory_counters (Tasks.tickHeap k) (pm s)) as [-> ->].
      lia.
Qed.

(** X22. Over any sequence of fewer than [2^32] whole cycles of the two
    loops from start-up, the frames counted as rendered never exceed the
    frames counted as completed, which never exceed the number of cycles:
    a frame is counted as rendered only in an iteration that counted it as
    completed. *)
Theorem rendered_at_most_completed (events : list Tasks.Event) :
  Z.of_nat (length events) < 4294967296 ->
  let s := snd (Tasks.systemRun events) in
  0 <= completeFramesRendered (pm s) <= completeFramesReceived (pm s) /\
  completeFramesReceived (pm s) <= Z.of_nat (length events).
Proof.
  intros Hlen. cbv zeta. unfold Tasks.systemRun.
  assert (H : forall st n,
            n + Z.of_nat (length events) < 4294967296 ->
            0 <= completeFramesRendered (pm (snd st))
              <= completeFramesReceived (pm (snd st)) ->
            completeFramesReceived (pm (snd st)) <= n ->
            let st' := foldl Tasks.systemStep st events in
            0 <= completeFramesRendered (pm (snd st'))
              <= completeFramesReceived (pm (snd st')) /\
            completeFramesReceived (pm (snd st'))
              <= n + Z.of_nat (length events)).
  { clear Hlen. induction events as [|e events IH]; intros st n Hn Hle Hbound.
    - cbn [foldl length]. change (Z.of_nat 0) with 0. lia.
    - cbn [foldl length] in *. rewrite Nat2Z.inj_succ in *.
      destruct (systemStep_render_counters st e n ltac:(lia) Hle Hbound)
        as [Hle' Hbound'].
      destruct (IH (Tasks.systemStep st e) (n + 1) ltac:(lia) Hle' Hbound')
        as [K1 K2].
      split; [exact K1|lia]. }
  apply (H (Tasks.initialTask, initialSystem) 0); [lia| |].
  - cbn [snd]. change (completeFramesRendered (pm initialSystem)) with 0.
    change (completeFramesReceived (pm initialSystem)) with 0. lia.
  - cbn [snd]. change (completeFramesReceived (pm initialSystem)) with 0. lia.
Qed.

Lemma rendered_at_most_completed_witness :
  let s := snd (Tasks.systemRun [Tasks.Ingest [] true 0]) in
  0 <= completeFramesRendered (pm s) <= completeFramesReceived (pm s) /\
  completeFramesReceived (pm s) <= 1.
Proof.
  cbv zeta. apply (rendered_at_most_completed [Tasks.Ingest [] true 0]).
  cbn. lia.
Defined.
(** ** Connected clients *)

Lemma wifiEventHandler_bounds (events : list Network.WiFiEvent) :
  forall c0,
  0 <= c0 -> c0 + Z.of_nat (length events) < 2147483648 ->
  let c := foldl Network.wifiEventHandler c0 events in
  0 <= c /\
  c0 + Network.connects events - Network.disconnects events <= c /\
  c <= c0 + Network.connects events.
Proof.
  unfold Network.connects, Network.disconnects.
  induction events as [|e events IH]; intros c0 Hc0 Hfit; cbv zeta.
  - cbn [foldl List.filter length]. lia.
  - cbn [foldl length] in *. rewrite Nat2Z.inj_succ in Hfit.
    assert (Hinc : Network.s32 (c0 + 1) = c0 + 1)
      by (unfold Network.s32; rewrite Z.mod_small; lia).
    assert (Hdec : Network.s32 (c0 - 1) = c0 - 1)
      by (unfold Network.s32; rewrite Z.mod_small; lia).
    destruct e; cbn [Network.wifiEventHandler List.filter Network.isConnect
                     Network.isDisconnect length].
    + unfold Network.incrementClients. rewrite Hinc.
      destruct (IH (c0 + 1) ltac:(lia) ltac:(lia)) as (K1 & K2 & K3).
      rewrite Nat2Z.inj_succ. lia.
    + unfold Network.decrementClients. cbv zeta. rewrite Hdec.
      destruct (c0 - 1 <? 0) eqn:Eneg.
      * apply Z.ltb_lt in Eneg.
        destruct (IH 0 ltac:(lia) ltac:(lia)) as (K1 & K2 & K3).
        rewrite Nat2Z.inj_succ. lia.
      * apply Z.ltb_ge in Eneg.
        destruct (IH (c0 - 1) ltac:(lia) ltac:(lia)) as (K1 & K2 & K3).
        rewrite Nat2Z.inj_succ. lia.
    + destruct (IH c0 ltac:(lia) ltac:(lia)) as (K1 & K2 & K3). lia.
Qed.

(** X23. Over any sequence of fewer than [2^31] Wi-Fi events from start-up
    the client counter is never negative, is at most the number of stations
    that connected, and is at least that number less the disconnections: a
    disconnection reported at 0 is not counted. *)
Theorem clients_never_negative (events : list Network.WiFiEvent) :
  Z.of_nat (length events) < 2147483648 ->
  let c := Network.clientsAfter events in
  0 <= c /\
  Network.connects events - Network.disconnects events <= c /\
  c <= Network.connects events.
Proof.
  intros Hfit. cbv zeta. unfold Network.clientsAfter.
  destruct (wifiEventHandler_bounds events 0 ltac:(lia) ltac:(lia))
    as (K1 & K2 & K3).
  lia.
Qed.

Lemma clients_never_negative_witness :
  let events := [Network.StaDisconnected; Network.StaConnected] in
  0 <= Network.clientsAfter events /\
  Network.connects events - Network.disconnects events
    <= Network.clientsAfter events /\
  Network.clientsAfter events <= Network.connects events.
Proof.
  cbv zeta.
  apply (clients_never_negative [Network.StaDisconnected; Network.StaConnected]).
  cbn. lia.
Defined.

(** ** Start-up *)

(** X24. [FrameProcessor::initialize] succeeds exactly when the free heap is
    at least 90500 bytes and the three buffers and the two mutexes were all
    obtained.  On success the handles hold the zeroed buffers the
    reassembler starts from (35000, 35000 and 500 cells) and both mutexes;
    on a failure after the heap check nothing is left held; a failed heap
    check leaves the handles as they were. *)
Theorem initialize_all_or_nothing (availableHeap : Z)
    (okFrame okAssembly okTracking okFrameMutex okDisplayMutex : bool)
    (h : Startup.Handles) :
  let r := Startup.initialize availableHeap okFrame okAssembly okTracking
                              okFrameMutex okDisplayMutex h in
  (snd r = true <->
   90500 <= availableHeap /\
   okFrame && okAssembly && okTracking && okFrameMutex && okDisplayMutex
   = true) /\
  (snd r = true ->
   fst r = Startup.mkHandles (Some (frameBuffer (fp initialSystem)))
                             (Some (assemblyBuffer (fp initialSystem)))
                             (Some (packetReceived (fp initialSystem)))
                             true true) /\
  (snd r = false -> 90500 <= availableHeap -> fst r = Startup.noHandles) /\
  (availableHeap < 90500 -> fst r = h).
Proof.
  cbv zeta. unfold Startup.initialize. cbv zeta.
  change (u32 (u32 (Config.MAX_FRAME_SIZE + Config.MAX_FRAME_SIZE
                    + Config.MAX_PACKETS) + 20000)) with 90500.
  destruct (availableHeap <? 90500) eqn:Eheap.
  - apply Z.ltb_lt in Eheap. cbn [fst snd].
    split; [split; [discriminate|lia]|].
    split; [discriminate|]. split; [lia|reflexivity].
  - apply Z.ltb_ge in Eheap.
    destruct okFrame, okAssembly, okTracking;
      cbn [negb orb andb fst snd Startup.cleanup];
      try (split; [split; [discriminate|intros [_ H]; discriminate]|];
           split; [discriminate|]; split; [reflexivity|lia]).
    destruct okFrameMutex, okDisplayMutex;
      cbn [negb orb andb fst snd Startup.cleanup];
      try (split; [split; [discriminate|intros [_ H]; discriminate]|];
           split; [discriminate|]; split; [reflexivity|lia]).
    split; [split; [intros _; split; [exact Eheap|reflexivity]|reflexivity]|].
    split; [intros _; reflexivity|]. split; [discriminate|lia].
Qed.

(** X25. [DisplayManager::initializeDisplayBuffer] always returns true.  It
    enables the pixel buffer exactly when more than 367200 bytes of heap
    are free and the allocation succeeds; the buffer is present exactly
    when it is enabled, and it then holds
    [DISPLAY_WIDTH * DISPLAY_HEIGHT] pixels, all 0. *)
Theorem initializeDisplayBuffer_enabled (availableHeap : Z) (okBuffer : bool) :
  let r := Startup.initializeDisplayBuffer availableHeap okBuffer in
  snd r = true /\
  (Startup.displayBufferEnabled (fst r) = true <->
   367200 < availableHeap /\ okBuffer = true) /\
  Startup.displayBuffer (fst r)
  = (if Startup.displayBufferEnabled (fst r)
     then Some (replicate
                  (Z.to_nat (Config.DISPLAY_WIDTH * Config.DISPLAY_HEIGHT)) 0)
     else None) /\
  (forall buffer, Startup.displayBuffer (fst r) = Some buffer ->
     Z.of_nat (length buffer) = Config.DISPLAY_WIDTH * Config.DISPLAY_HEIGHT).
Proof.
  cbv zeta. unfold Startup.initializeDisplayBuffer.
  assert (Hneed : u32 (Startup.DISPLAY_BUFFER_SIZE + 60000) = 367200)
    by (vm_compute; reflexivity).
  assert (Hsize : Startup.DISPLAY_BUFFER_SIZE / 2
                  = Config.DISPLAY_WIDTH * Config.DISPLAY_HEIGHT)
    by (vm_compute; reflexivity).
  rewrite Hneed, Hsize.
  destruct (availableHeap >? 367200) eqn:Eheap.
  - assert (367200 < availableHeap) by lia.
    destruct okBuffer;
      cbn [fst snd Startup.displayBufferEnabled Startup.displayBuffer].
    + split; [reflexivity|]. split; [tauto|]. split; [reflexivity|].
      intros buffer Hsome. apply (f_equal (from_option length 0%nat)) in Hsome.
      cbn [from_option] in Hsome. rewrite <- Hsome, length_replicate.
      apply Z2Nat.id. unfold Config.DISPLAY_WIDTH, Config.DISPLAY_HEIGHT. lia.
    + split; [reflexivity|].
      split; [split; [discriminate|intros [_ H']; discriminate]|].
      split; [reflexivity|discriminate].
  - assert (availableHeap <= 367200) by lia.
    cbn [fst snd Startup.displayBufferEnabled Startup.displayBuffer].
    split; [reflexivity|]. split; [split; [discriminate|lia]|].
    split; [reflexivity|discriminate].
Qed.
